(** * Quiz application: data access, image-URL validation, test flow, results

    A shallow embedding of the TypeScript sources of the quiz application:
    - the image and question services (result envelopes, validation),
    - the test screen (question loading, answering, submission),
    - the results screen (percentage and score bands).

    JavaScript numbers are IEEE-754 binary64 values ([SpecFloat]); strings
    are byte strings (UTF-8 for the localized literals). Asynchronous
    functions are computations in a small monad that threads the log of
    backend requests and may complete abruptly with a thrown value. The
    hosted backend, the network and the platform URL constructor are
    parameters of the functions that call them. *)

From Stdlib Require Import ZArith List String Ascii Bool Lia SpecFloat DecimalString.
Import ListNotations.
Local Open Scope string_scope.
Local Open Scope list_scope.
Local Open Scope Z_scope.

(** * Part I: the program *)

(** ** JavaScript values and effects *)

Module JS.

(** A [number] is an IEEE-754 double. *)
Definition number := spec_float.

Definition prec : Z := 53.
Definition emax : Z := 1024.

(** The number denoted by an integer literal or an integer-valued
    expression (rounded to nearest-even beyond 2^53). *)
Definition of_Z (z : Z) : number := binary_normalize prec emax z 0 false.

Definition div : number -> number -> number := SFdiv prec emax.
Definition mul : number -> number -> number := SFmul prec emax.

(** [a > b], [a >= b], [a < b] on numbers; a comparison with NaN is false. *)
Definition gt (a b : number) : bool := SFltb b a.
Definition ge (a b : number) : bool := SFleb b a.
Definition lt (a b : number) : bool := SFltb a b.

(** [ToBoolean] on a number: zero (either sign) and NaN are falsy. *)
Definition truthy_number (x : number) : bool :=
  match x with
  | S754_zero _ | S754_nan => false
  | _ => true
  end.

(** [ToBoolean] on a string: only the empty string is falsy. *)
Definition truthy_string (s : string) : bool :=
  match s with
  | EmptyString => false
  | String _ _ => true
  end.

(** [Math.round]: the integral number closest to [x], ties towards
    +infinity; integral values, infinities and NaN are returned as they
    are, and a result of zero keeps the sign of [x]. *)
Definition Math_round (x : number) : number :=
  match x with
  | S754_finite s m e =>
      if 0 <=? e then x
      else
        let v2 := 2 * (if s then Z.neg m else Z.pos m) in
        let n := (v2 + 2 ^ (- e)) / 2 ^ (1 - e) in
        if n =? 0 then S754_zero s else of_Z n
  | _ => x
  end.

(** Two numbers are the same value (as [Object.is] has it). *)
Definition same (a b : number) : bool :=
  match a, b with
  | S754_zero s1, S754_zero s2 => Bool.eqb s1 s2
  | S754_infinity s1, S754_infinity s2 => Bool.eqb s1 s2
  | S754_nan, S754_nan => true
  | S754_finite s1 m1 e1, S754_finite s2 m2 e2 =>
      Bool.eqb s1 s2 && Pos.eqb m1 m2 && Z.eqb e1 e2
  | _, _ => false
  end.

(** [n.toString()] for an integer-valued number. *)
Definition toString (n : Z) : string := NilZero.string_of_int (Z.to_int n).

(** *** Strings *)

(** [s.startsWith(p)] *)
Definition startsWith (s p : string) : bool := String.prefix p s.

(** [s.includes(p)] *)
Fixpoint includes (s p : string) : bool :=
  String.prefix p s ||
  match s with
  | EmptyString => false
  | String _ s' => includes s' p
  end.

(** [s.endsWith(p)] *)
Fixpoint endsWith (s p : string) : bool :=
  String.eqb s p ||
  match s with
  | EmptyString => false
  | String _ s' => endsWith s' p
  end.

(** [s.toLowerCase()] on ASCII text; bytes outside [A-Z] are kept. The
    strings it is applied to here are the host and path of a parsed URL,
    which the URL API serialises in ASCII. *)
Definition lower_ascii (c : ascii) : ascii :=
  let n := nat_of_ascii c in
  if ((65 <=? n) && (n <=? 90))%nat then ascii_of_nat (n + 32) else c.

Fixpoint toLowerCase (s : string) : string :=
  match s with
  | EmptyString => EmptyString
  | String c s' => String (lower_ascii c) (toLowerCase s')
  end.

(** [a.includes(x)] on an array of strings. *)
Definition array_includes (a : list string) (x : string) : bool :=
  existsb (String.eqb x) a.

(** *** Thrown values and asynchronous computations *)

(** What a [catch] clause receives: an [Error] object with its message,
    or any other value. *)
Inductive thrown :=
| Error (message : string)
| NonError.

(** [error instanceof Error ? error.message : 'Unknown error occurred'] *)
Definition error_message (t : thrown) : string :=
  match t with
  | Error m => m
  | NonError => "Unknown error occurred"
  end.

Inductive completion (A : Type) : Type :=
| Normal (a : A)
| Throw (t : thrown).
Arguments Normal {A} a.
Arguments Throw {A} t.

(** A computation that appends to a log of requests of type [L] and
    completes normally or abruptly. The log survives a [catch]. *)
Definition Eff (L A : Type) : Type := list L -> completion A * list L.

Definition ret {L A} (a : A) : Eff L A := fun log => (Normal a, log).

Definition throw {L A} (t : thrown) : Eff L A := fun log => (Throw t, log).

Definition bind {L A B} (c : Eff L A) (k : A -> Eff L B) : Eff L B :=
  fun log =>
    match c log with
    | (Normal a, log') => k a log'
    | (Throw t, log') => (Throw t, log')
    end.

(** [try { body } catch (error) { handler }] *)
Definition try_catch {L A} (body : Eff L A) (handler : thrown -> Eff L A) : Eff L A :=
  fun log =>
    match body log with
    | (Normal a, log') => (Normal a, log')
    | (Throw t, log') => handler t log'
    end.

(** [try { body } finally { final }] for a [final] that neither throws
    nor returns. *)
Definition try_finally {L A} (body : Eff L A) (final : A -> A) : Eff L A :=
  fun log =>
    match body log with
    | (Normal a, log') => (Normal (final a), log')
    | (Throw t, log') => (Throw t, log')
    end.

(** Issue the request [r] and take the completion the service gives. *)
Definition request {L A} (r : L) (outcome : completion A) : Eff L A :=
  fun log => (outcome, log ++ [r]).

End JS.

Notation "x <- c ;; k" := (JS.bind c (fun x => k))
  (at level 61, c at next level, right associativity).
Notation "c ;; k" := (JS.bind c (fun _ => k))
  (at level 61, right associativity).

Import JS.

(** ** The platform URL constructor *)

Module URL.

(** The parts of a parsed URL that the application reads. *)
Record t := {
  protocol : string;
  hostname : string;
  pathname : string;
  searchParams : list (string * string)
}.

(** [searchParams.has(name)] *)
Definition has (params : list (string * string)) (name : string) : bool :=
  existsb (fun kv => String.eqb (fst kv) name) params.

(** *** A model of [new URL(input)] without a base

    The services below take the constructor as a parameter. For running
    them on concrete inputs, [parse] follows the URL Standard's basic
    parser on the schemes the application accepts: input clean-up, the
    scheme, and for the network schemes (http, https, ws, wss, ftp) the
    authority with credentials and port, the host as an ASCII registered
    name, the path with dot segments and percent-encoding, and the query
    with its form-urlencoded parameters. [None] is the [TypeError] the
    constructor throws.

    Outside the model: IP-literal and numeric hosts and internationalised
    names (rejected here), and the path and host of [file:] and
    non-network schemes (the record carries their protocol only). *)

Definition code (c : ascii) : nat := nat_of_ascii c.

Definition in_range (lo hi : nat) (c : ascii) : bool :=
  ((lo <=? code c) && (code c <=? hi))%nat.

Definition one_of (k : string) (c : ascii) : bool :=
  existsb (Ascii.eqb c) (list_ascii_of_string k).

Definition is_digit : ascii -> bool := in_range 48 57.
Definition is_alpha (c : ascii) : bool := in_range 65 90 c || in_range 97 122 c.
Definition is_hex (c : ascii) : bool := is_digit c || in_range 65 70 c || in_range 97 102 c.
Definition is_c0_or_space : ascii -> bool := in_range 0 32.
Definition is_tab_or_newline (c : ascii) : bool :=
  ((code c =? 9) || (code c =? 10) || (code c =? 13))%nat.
Definition is_slash : ascii -> bool := one_of "/\".

Fixpoint drop_while (p : ascii -> bool) (l : list ascii) : list ascii :=
  match l with
  | c :: l' => if p c then drop_while p l' else l
  | [] => []
  end.

(** Split before the first character satisfying [p]. *)
Fixpoint break (p : ascii -> bool) (l : list ascii) : list ascii * list ascii :=
  match l with
  | c :: l' => if p c then ([], l) else let (a, b) := break p l' in (c :: a, b)
  | [] => ([], [])
  end.

(** Split on every character satisfying [p]. *)
Fixpoint split_on (p : ascii -> bool) (l : list ascii) : list (list ascii) :=
  match l with
  | [] => [[]]
  | c :: l' =>
      match split_on p l' with
      | seg :: segs => if p c then [] :: seg :: segs else (c :: seg) :: segs
      | [] => [[]]
      end
  end.

(** Leading and trailing C0 controls and spaces are stripped, then every
    tab and newline is removed. *)
Definition clean (l : list ascii) : list ascii :=
  let stripped := rev (drop_while is_c0_or_space (rev (drop_while is_c0_or_space l))) in
  filter (fun c => negb (is_tab_or_newline c)) stripped.

(** Scheme state: ASCII alphanumerics, [+], [-] and [.] up to a colon;
    anything else means there is no scheme, which fails without a base. *)
Fixpoint scheme_state (l buffer : list ascii) : option (list ascii * list ascii) :=
  match l with
  | [] => None
  | c :: l' =>
      if is_alpha c || is_digit c || one_of "+-." c
      then scheme_state l' (buffer ++ [lower_ascii c])
      else if one_of ":" c then Some (buffer, l') else None
  end.

Definition scheme_start_state (l : list ascii) : option (list ascii * list ascii) :=
  match l with
  | c :: _ => if is_alpha c then scheme_state l [] else None
  | [] => None
  end.

Definition hex_value (c : ascii) : nat :=
  if is_digit c then code c - 48
  else if in_range 65 70 c then code c - 55
  else code c - 87.

Definition hex_digit (n : nat) : ascii :=
  ascii_of_nat (if (n <? 10)%nat then n + 48 else n + 55).

Fixpoint percent_decode (l : list ascii) : list ascii :=
  match l with
  | [] => []
  | c :: l' =>
      match l' with
      | h1 :: h2 :: l'' =>
          if one_of "%" c && is_hex h1 && is_hex h2
          then ascii_of_nat (16 * hex_value h1 + hex_value h2) :: percent_decode l''
          else c :: percent_decode l'
      | _ => c :: percent_decode l'
      end
  end.

(** The path percent-encode set: C0 controls, space, the double quote,
    number sign, angle brackets, question mark, caret, backtick, braces
    and everything above the tilde. *)
Definition in_path_percent_encode_set (c : ascii) : bool :=
  in_range 0 32 c || in_range 127 255 c || (code c =? 34)%nat || one_of "#<>?^`{}" c.

Definition percent_encode_path (c : ascii) : list ascii :=
  if in_path_percent_encode_set c
  then ["%"%char; hex_digit (code c / 16); hex_digit (code c mod 16)]
  else [c].

Definition lower (l : list ascii) : list ascii := map lower_ascii l.

Definition list_eqb (a b : list ascii) : bool :=
  String.eqb (string_of_list_ascii a) (string_of_list_ascii b).

Definition is_single_dot (buffer : list ascii) : bool :=
  existsb (list_eqb (lower buffer))
    (map list_ascii_of_string ["."; "%2e"]).

Definition is_double_dot (buffer : list ascii) : bool :=
  existsb (list_eqb (lower buffer))
    (map list_ascii_of_string [".."; ".%2e"; "%2e."; "%2e%2e"]).

(** What the path state does with a finished segment; [slash] tells
    whether the segment was closed by a slash. *)
Definition close_segment (slash : bool) (buffer : list ascii)
    (path : list (list ascii)) : list (list ascii) :=
  if is_double_dot buffer then
    if slash then removelast path else removelast path ++ [[]]
  else if is_single_dot buffer then
    if slash then path else path ++ [[]]
  else path ++ [buffer].

(** Path state: returns the segments and the input left at [?] or [#]. *)
Fixpoint path_state (l buffer : list ascii) (path : list (list ascii))
    : list (list ascii) * list ascii :=
  match l with
  | [] => (close_segment false buffer path, [])
  | c :: l' =>
      if is_slash c then path_state l' [] (close_segment true buffer path)
      else if one_of "?#" c then (close_segment false buffer path, l)
      else path_state l' (buffer ++ percent_encode_path c) path
  end.

Definition serialize_path (path : list (list ascii)) : list ascii :=
  flat_map (fun seg => "/"%char :: seg) path.

(** Forbidden domain code points: C0 controls, space, [#], [%], [/], [:],
    [<], [>], [?], [@], the square brackets, the backslash, [^], [|] and
    DEL. *)
Definition is_forbidden_domain_code_point (c : ascii) : bool :=
  in_range 0 32 c || one_of "#%/:<>?@[\]^|" c || (code c =? 127)%nat.

Definition starts_with (p l : list ascii) : bool :=
  String.prefix (string_of_list_ascii p) (string_of_list_ascii l).

(** The last label of the host is a decimal or a [0x] hexadecimal number. *)
Definition ends_in_a_number (host : list ascii) : bool :=
  let parts := split_on (one_of ".") host in
  let parts := match rev parts with
               | [] :: ((_ :: _) as more) => rev more
               | _ => parts
               end in
  let last := List.last parts [] in
  negb (list_eqb last []) &&
  (forallb is_digit last ||
   (starts_with (list_ascii_of_string "0x") (lower last) &&
    forallb is_hex (skipn 2 last))).

(** Host parsing for a network scheme, on ASCII registered names: the
    percent-decoded name in lower case, if it is not empty and has no
    forbidden code point. *)
Definition parse_host (input : list ascii) : option (list ascii) :=
  let domain := lower (percent_decode input) in
  if starts_with ["["%char] input
     || existsb (in_range 128 255) domain
     || existsb (starts_with (list_ascii_of_string "xn--")) (split_on (one_of ".") domain)
  then None
  else if list_eqb domain [] || existsb is_forbidden_domain_code_point domain
          || ends_in_a_number domain
  then None
  else Some domain.

Definition decimal_value (l : list ascii) : Z :=
  fold_left (fun n c => 10 * n + Z.of_nat (code c - 48)) l 0.

(** Port state: ASCII digits only, at most 65535. *)
Definition port_ok (port : list ascii) : bool :=
  forallb is_digit port && (decimal_value port <=? 65535).

(** Authority and host states: credentials end at the last [@]; the host
    ends at the first colon, which starts the port. *)
Definition parse_authority (authority : list ascii) : option (list ascii) :=
  let parts := split_on (one_of "@") authority in
  let hostport := List.last parts [] in
  if (1 <? List.length parts)%nat && list_eqb hostport [] then None
  else
    let (host, port) := break (one_of ":") hostport in
    if list_eqb host [] then None
    else if port_ok (tl port) then parse_host host else None.

(** The form-urlencoded parser behind [searchParams]. *)
Definition parse_urlencoded (query : list ascii) : list (string * string) :=
  let plus_to_space := map (fun c => if one_of "+" c then " "%char else c) in
  let decode l := string_of_list_ascii (percent_decode (plus_to_space l)) in
  map (fun sequence =>
         let (name, value) := break (one_of "=") sequence in
         (decode name, decode (tl value)))
      (filter (fun sequence => negb (list_eqb sequence []))
              (split_on (one_of "&") query)).

Definition is_network_scheme (scheme : string) : bool :=
  array_includes ["http"; "https"; "ws"; "wss"; "ftp"] scheme.

Definition parse (input : string) : option t :=
  match scheme_start_state (clean (list_ascii_of_string input)) with
  | None => None
  | Some (scheme_chars, rest) =>
      let scheme := string_of_list_ascii scheme_chars in
      if is_network_scheme scheme then
        let (authority, rest) :=
          break (fun c => is_slash c || one_of "?#" c) (drop_while is_slash rest) in
        match parse_authority authority with
        | None => None
        | Some host =>
            let rest := match rest with
                        | c :: rest' => if is_slash c then rest' else rest
                        | [] => []
                        end in
            let (path, rest) := path_state rest [] [] in
            let query := match rest with
                         | c :: rest' =>
                             if one_of "?" c then fst (break (one_of "#") rest') else []
                         | [] => []
                         end in
            Some {| protocol := scheme ++ ":";
                    hostname := string_of_list_ascii host;
                    pathname := string_of_list_ascii (serialize_path path);
                    searchParams := parse_urlencoded query |}
        end
      else
        Some {| protocol := scheme ++ ":"; hostname := ""; pathname := "";
                searchParams := [] |}
  end.

End URL.

(** ** Records of the data model (types/database.ts) *)

Inductive Language := en | hi | tel.

Definition language_code (l : Language) : string :=
  match l with
  | en => "en"
  | hi => "hi"
  | tel => "tel"
  end.

Inductive Difficulty := easy | medium | hard.

Module Question.

Record t := {
  id : string;
  question_text : string;
  options : list string;
  correct_answer : Z;
  language : Language;
  category : string;
  difficulty : Difficulty;
  created_at : string;
  images : option string
}.

End Question.

(** An element of the [answers] array: a selected option index, [null],
    [undefined], or a hole left by an assignment beyond the end of the
    array. *)
Inductive answer :=
| selected (optionIndex : Z)
| null
| undefined
| hole.

Module TestSession.

Record t := {
  id : string;
  user_id : option string;
  language : Language;
  questions : list string;
  answers : list answer;
  score : Z;
  total_questions : Z;
  completed_at : option string;
  created_at : string
}.

End TestSession.

(** A stored row of the [images] relation. *)
Module Image.

Record t := {
  id : string;
  question_id : string;
  image_url : string;
  image_alt : string;
  image_type : string;
  display_order : number;
  created_at : string
}.

End Image.

(** ** The hosted backend

    A query builder chain that is awaited resolves to [{data, error}] or
    rejects. The client is a parameter: one function per chain that the
    application awaits. *)

Module Supabase.

Record PostgrestError := { message : string }.

Record response (R : Type) := {
  data : option R;
  error : option PostgrestError
}.
Arguments data {R} r.
Arguments error {R} r.

(** The row [insertImage] sends. *)
Record image_row := {
  question_id : string;
  image_url : string;
  image_alt : string;
  image_type : string;
  display_order : number
}.

(** The row [insertQuestion] sends. *)
Record question_row := {
  question_text : string;
  options : list string;
  correct_answer : Z;
  language : Language;
  category : string;
  difficulty : Difficulty;
  images : option string
}.

(** [Partial<Omit<Question, 'id' | 'created_at'>>]: every field may be
    absent; [images], when present, is a string or [null]. *)
Record question_updates := {
  set_question_text : option string;
  set_options : option (list string);
  set_correct_answer : option Z;
  set_language : option Language;
  set_category : option string;
  set_difficulty : option Difficulty;
  set_images : option (option string)
}.

(** The requests the application issues, as they appear in the log. *)
Inductive query :=
| images_insert (row : image_row)
| images_select (question_id : string)
| questions_select (language : string) (limit : Z)
| questions_insert (row : question_row)
| questions_update (updates : question_updates) (id : string)
| test_sessions_insert (row : TestSession.t).

Definition is_write (q : query) : bool :=
  match q with
  | images_select _ | questions_select _ _ => false
  | _ => true
  end.

Record client := {
  (** [from('images').insert(row).select().single()] *)
  on_images_insert : image_row -> completion (response Image.t);
  (** [from('images').select('*').eq('question_id', id).order('display_order', ...)] *)
  on_images_select : string -> completion (response (list Image.t));
  (** [from('questions').select('*').eq('language', language).limit(limit)] *)
  on_questions_select : string -> Z -> completion (response (list Question.t));
  (** [from('questions').insert(row).select().single()] *)
  on_questions_insert : question_row -> completion (response Question.t);
  (** [from('questions').update(updates).eq('id', id).select().single()] *)
  on_questions_update : question_updates -> string -> completion (response Question.t);
  (** [from('test_sessions').insert(row)] *)
  on_test_sessions_insert : TestSession.t -> completion (response unit)
}.

(** A backend whose relations are empty and that accepts every write
    without returning a row. *)
Definition empty : client :=
  {| on_images_insert := fun _ => Normal {| data := None; error := None |};
     on_images_select := fun _ => Normal {| data := Some []; error := None |};
     on_questions_select := fun _ _ => Normal {| data := Some []; error := None |};
     on_questions_insert := fun _ => Normal {| data := None; error := None |};
     on_questions_update := fun _ _ => Normal {| data := None; error := None |};
     on_test_sessions_insert := fun _ => Normal {| data := None; error := None |} |}.

(** A backend that cannot be reached: every request rejects. *)
Definition unreachable : client :=
  let rejected {A} : completion A := Throw (Error "Network request failed") in
  {| on_images_insert := fun _ => rejected;
     on_images_select := fun _ => rejected;
     on_questions_select := fun _ _ => rejected;
     on_questions_insert := fun _ => rejected;
     on_questions_update := fun _ _ => rejected;
     on_test_sessions_insert := fun _ => rejected |}.

End Supabase.

(** The uniform result of a data-access function: an object with the
    keys [success], [data] and either [message] or [error]. *)
Record envelope (D : Type) := {
  success : bool;
  data : D;
  message : option string;
  error : option string
}.
Arguments success {D} e.
Arguments data {D} e.
Arguments message {D} e.
Arguments error {D} e.

Definition succeeded {D} (d : D) (m : string) : envelope D :=
  {| success := true; data := d; message := Some m; error := None |}.

Definition failed {D} (d : D) (e : string) : envelope D :=
  {| success := false; data := d; message := None; error := Some e |}.

(** An envelope has the uniform shape: [{success: true, data, message}],
    or [{success: false, data: nothing, error}] where [nothing] is
    [null] or the empty array. *)
Definition uniform {D} (nothing : D) (e : envelope D) : Prop :=
  (success e = true /\ (exists m, message e = Some m) /\ error e = None) \/
  (success e = false /\ data e = nothing /\ (exists m, error e = Some m) /\ message e = None).

(** A call resolves to a failure with the error string [reason] and
    leaves the request log as it was. *)
Definition rejects_with {L D} (nothing : D) (reason : string)
    (call : Eff L (envelope D)) : Prop :=
  forall log, call log = (Normal (failed nothing reason), log).

(** [`${data?.length || 0}`] *)
Definition length_or_0 {A} (data : option (list A)) : string :=
  match data with
  | Some rows => toString (Z.of_nat (List.length rows))
  | None => "0"
  end.

(** ** Image service *)

Module ImageService.
Import Supabase.

(** The argument of [insertImage]. [None] is a field that is absent (or
    [undefined] or [null]) at run time, which the function checks for
    even where the declared type makes the field mandatory. *)
Record ImageData := {
  question_id : option string;
  image_url : option string;
  image_alt : option string;
  image_type : option string;
  display_order : option number
}.

(** [v || d] on an optional string. *)
Definition string_or (v : option string) (d : string) : string :=
  match v with
  | Some s => if truthy_string s then s else d
  | None => d
  end.

(** [v || d] on an optional number. *)
Definition number_or (v : option number) (d : number) : number :=
  match v with
  | Some n => if truthy_number n then n else d
  | None => d
  end.

(** The string [v] when [v] is truthy. *)
Definition truthy (v : option string) : option string :=
  match v with
  | Some s => if truthy_string s then Some s else None
  | None => None
  end.

(** [const dataToInsert = {...}], once both required fields are there. *)
Definition dataToInsert (the_question_id the_image_url : string) (imageData : ImageData)
    : image_row :=
  {| Supabase.question_id := the_question_id;
     Supabase.image_url := the_image_url;
     Supabase.image_alt := string_or (image_alt imageData) "";
     Supabase.image_type := string_or (image_type imageData) "general";
     Supabase.display_order := number_or (display_order imageData) (of_Z 1) |}.

Definition insertImage (supabase : client) (imageData : ImageData)
    : Eff query (envelope (option Image.t)) :=
  try_catch
    (match truthy (question_id imageData), truthy (image_url imageData) with
     | Some the_question_id, Some the_image_url =>
         let dataToInsert := dataToInsert the_question_id the_image_url imageData in
         r <- request (images_insert dataToInsert) (on_images_insert supabase dataToInsert) ;;
         match Supabase.error r with
         | Some error =>
             throw (Error ("Failed to insert image: " ++ Supabase.message error))
         | None =>
             ret (succeeded (Supabase.data r) "Image inserted successfully")
         end
     | _, _ => throw (Error "question_id and image_url are required fields")
     end)
    (fun error => ret (failed None (error_message error))).

Definition getImagesByQuestionId (supabase : client) (questionId : string)
    : Eff query (envelope (list Image.t)) :=
  try_catch
    (r <- request (images_select questionId) (on_images_select supabase questionId) ;;
     match Supabase.error r with
     | Some error =>
         throw (Error ("Failed to fetch images: " ++ Supabase.message error))
     | None =>
         ret (succeeded (match Supabase.data r with Some rows => rows | None => [] end)
                        ("Found " ++ length_or_0 (Supabase.data r) ++ " images"))
     end)
    (fun error => ret (failed [] (error_message error))).

(** The record of [insertSampleImage], without the optional fields and
    with a display order of 0; and the same without its URL. *)
Definition sampleImageData : ImageData :=
  {| question_id := Some "123e4567-e89b-12d3-a456-426614174000";
     image_url := Some "https://images.pexels.com/photos/6238297/pexels-photo-6238297.jpeg";
     image_alt := None;
     image_type := Some "";
     display_order := Some (of_Z 0) |}.

Definition bareImageData : ImageData :=
  {| question_id := Some "123e4567-e89b-12d3-a456-426614174000";
     image_url := Some "https://images.pexels.com/photos/6238297/pexels-photo-6238297.jpeg";
     image_alt := None;
     image_type := None;
     display_order := None |}.

Definition imageDataWithoutUrl : ImageData :=
  {| question_id := Some "123e4567-e89b-12d3-a456-426614174000";
     image_url := None;
     image_alt := Some "Mathematical diagram showing geometric shapes and formulas";
     image_type := Some "diagram";
     display_order := Some (of_Z 1) |}.

End ImageService.

(** ** Question service *)

Module QuestionService.
Import Supabase.
Import ImageService.

Definition imageExtensions : list string :=
  [".jpg"; ".jpeg"; ".png"; ".gif"; ".webp"; ".svg"; ".bmp"; ".avif"].

Definition imageHosts : list string :=
  ["images.pexels.com"; "images.unsplash.com"; "cdn.pixabay.com";
   "i.imgur.com"; "upload.wikimedia.org"; "raw.githubusercontent.com"].

(** [new_URL] is the platform constructor; [None] is its [TypeError],
    which the [catch] turns into [false]. *)
Definition isValidImageUrl (new_URL : string -> option URL.t) (url : string) : bool :=
  if negb (truthy_string url) then false
  else
    match new_URL url with
    | None => false
    | Some urlObj =>
        if negb (array_includes ["http:"; "https:"] (URL.protocol urlObj)) then false
        else
          let pathname := toLowerCase (URL.pathname urlObj) in
          let hostname := toLowerCase (URL.hostname urlObj) in
          existsb (fun ext => includes pathname ext) imageExtensions
          || existsb (fun host => includes hostname host) imageHosts
          || includes pathname "/images/"
          || URL.has (URL.searchParams urlObj) "w"
          || URL.has (URL.searchParams urlObj) "width"
    end.

(** What the probe reads from a [fetch] response. *)
Record Response := {
  ok : bool;
  status : Z;
  content_type : option string   (* [headers.get('content-type')] *)
}.

Record RequestInit := {
  method : string;
  headers : list (string * string)
}.

Definition head_request : RequestInit :=
  {| method := "HEAD"; headers := [("Accept", "image/*")] |}.

Definition range_request : RequestInit :=
  {| method := "GET"; headers := [("Range", "bytes=0-1023"); ("Accept", "image/*")] |}.

(** [fetch] is the network: it resolves to a response or rejects. *)
Definition validateImageUrl (new_URL : string -> option URL.t)
    (fetch : string -> RequestInit -> completion Response) (url : string) : bool :=
  if negb (isValidImageUrl new_URL url) then false
  else
    match fetch url head_request with
    | Normal response =>
        let contentType := content_type response in
        ok response &&
        (match contentType with
         | Some ct => startsWith ct "image/"
         | None => false
         end
         || (status response =? 200))
    | Throw _ =>
        match fetch url range_request with
        | Normal response => ok response
        | Throw _ => true
        end
    end.

Definition getQuestionsByLanguage (supabase : client) (language : string) (limit : Z)
    : Eff query (envelope (list Question.t)) :=
  try_catch
    (r <- request (questions_select language limit)
                  (on_questions_select supabase language limit) ;;
     match Supabase.error r with
     | Some error =>
         throw (Error ("Failed to fetch questions: " ++ Supabase.message error))
     | None =>
         ret (succeeded (match Supabase.data r with Some rows => rows | None => [] end)
                        ("Found " ++ length_or_0 (Supabase.data r) ++ " questions"))
     end)
    (fun error => ret (failed [] (error_message error))).

(** The argument of [insertQuestion]; [None] is a field that is absent
    (or [undefined] or [null]) at run time. *)
Record QuestionData := {
  question_text : option string;
  options : option (list string);
  correct_answer : Z;
  language : Language;
  category : option string;
  difficulty : option Difficulty;
  images : option string
}.

(** [const dataToInsert = {...}], once text and options are there. *)
Definition dataToInsert (the_question_text : string) (the_options : list string)
    (questionData : QuestionData) : question_row :=
  {| Supabase.question_text := the_question_text;
     Supabase.options := the_options;
     Supabase.correct_answer := correct_answer questionData;
     Supabase.language := language questionData;
     Supabase.category := string_or (category questionData) "general";
     Supabase.difficulty :=
       match difficulty questionData with Some d => d | None => easy end;
     Supabase.images := truthy (images questionData) |}.

Definition insertQuestion (new_URL : string -> option URL.t) (supabase : client)
    (questionData : QuestionData) : Eff query (envelope (option Question.t)) :=
  try_catch
    (match truthy (question_text questionData), options questionData with
     | Some the_question_text, Some ((_ :: _) as the_options) =>
         match truthy (images questionData) with
         | Some the_images =>
             if negb (isValidImageUrl new_URL the_images)
             then throw (Error "Invalid image URL format")
             else ret tt
         | None => ret tt
         end ;;
         let dataToInsert := dataToInsert the_question_text the_options questionData in
         r <- request (questions_insert dataToInsert)
                      (on_questions_insert supabase dataToInsert) ;;
         match Supabase.error r with
         | Some error =>
             throw (Error ("Failed to insert question: " ++ Supabase.message error))
         | None =>
             ret (succeeded (Supabase.data r) "Question inserted successfully")
         end
     | _, _ => throw (Error "question_text and options are required fields")
     end)
    (fun error => ret (failed None (error_message error))).

Definition updateQuestion (new_URL : string -> option URL.t) (supabase : client)
    (id : string) (updates : question_updates) : Eff query (envelope (option Question.t)) :=
  try_catch
    (match set_images updates with
     | Some the_images =>
         match truthy the_images with
         | Some url =>
             if negb (isValidImageUrl new_URL url)
             then throw (Error "Invalid image URL format")
             else ret tt
         | None => ret tt
         end
     | None => ret tt
     end ;;
     r <- request (questions_update updates id)
                  (on_questions_update supabase updates id) ;;
     match Supabase.error r with
     | Some error =>
         throw (Error ("Failed to update question: " ++ Supabase.message error))
     | None =>
         ret (succeeded (Supabase.data r) "Question updated successfully")
     end)
    (fun error => ret (failed None (error_message error))).

(** The acceptance test in the specification's words, on a parsed URL:
    the protocol is http or https, and the path ends in one of the
    extensions, or the host name matches (contains) one of the hosts, or
    the path contains "/images/", or the query has a parameter "w" or
    "width". *)
Definition accepted_as_specified (urlObj : URL.t) : bool :=
  array_includes ["http:"; "https:"] (URL.protocol urlObj) &&
  (existsb (fun ext => endsWith (URL.pathname urlObj) ext) imageExtensions
   || existsb (fun host => includes (URL.hostname urlObj) host) imageHosts
   || includes (URL.pathname urlObj) "/images/"
   || URL.has (URL.searchParams urlObj) "w"
   || URL.has (URL.searchParams urlObj) "width").

(** [isValidImageUrl] returns true exactly for the strings that parse
    and pass that test. *)
Definition isValidImageUrl_as_specified (new_URL : string -> option URL.t)
    (url : string) : Prop :=
  isValidImageUrl new_URL url =
  match new_URL url with
  | Some urlObj => accepted_as_specified urlObj
  | None => false
  end.

(** The two tests that bracket what the code accepts, both on the
    lower-cased path and host: the path ends in an extension, or the
    path contains one; the other three alternatives are the same. *)
Definition other_evidence (urlObj : URL.t) : bool :=
  existsb (fun host => includes (toLowerCase (URL.hostname urlObj)) host) imageHosts
  || includes (toLowerCase (URL.pathname urlObj)) "/images/"
  || URL.has (URL.searchParams urlObj) "w"
  || URL.has (URL.searchParams urlObj) "width".

Definition path_ends_in_extension (urlObj : URL.t) : bool :=
  existsb (fun ext => endsWith (toLowerCase (URL.pathname urlObj)) ext) imageExtensions.

Definition path_contains_extension (urlObj : URL.t) : bool :=
  existsb (fun ext => includes (toLowerCase (URL.pathname urlObj)) ext) imageExtensions.

Definition is_http (urlObj : URL.t) : bool :=
  array_includes ["http:"; "https:"] (URL.protocol urlObj).

(** A network on which every request fails. *)
Definition offline : string -> RequestInit -> completion Response :=
  fun _ _ => Throw (Error "Network request failed").

(** The first record of [insertSampleQuestionsWithImages], with the
    given [images] value. *)
Definition sampleQuestion (the_images : option string) : QuestionData :=
  {| question_text := Some "What is shown in this mathematical diagram?";
     options := Some ["Circle"; "Triangle"; "Square"; "Rectangle"];
     correct_answer := 1;
     language := en;
     category := Some "mathematics";
     difficulty := Some easy;
     images := the_images |}.

(** An update that only sets [images]. *)
Definition imagesUpdate (the_images : option (option string)) : question_updates :=
  {| set_question_text := None; set_options := None; set_correct_answer := None;
     set_language := None; set_category := None; set_difficulty := None;
     set_images := the_images |}.

(** A call is rejected with some non-empty error string and without a
    request. *)
Definition rejects_descriptively {L D} (nothing : D) (call : Eff L (envelope D)) : Prop :=
  exists reason, reason <> "" /\ rejects_with nothing reason call.

End QuestionService.

(** ** Test screen *)

Module TestScreen.

(** The component state ([useState]). *)
Record state := {
  questions : list Question.t;
  currentQuestionIndex : Z;
  answers : list answer;
  loading : bool;
  testSession : option TestSession.t
}.

Definition initial : state :=
  {| questions := []; currentQuestionIndex := 0; answers := [];
     loading := true; testSession := None |}.

Definition setLoading (b : bool) (st : state) : state :=
  {| questions := questions st; currentQuestionIndex := currentQuestionIndex st;
     answers := answers st; loading := b; testSession := testSession st |}.

(** What [Date.now()] and [new Date().toISOString()] give during one
    call of a handler. *)
Record instant := {
  now : Z;
  iso : string
}.

(** [setQuestions(qs); setAnswers(new Array(qs.length).fill(null));
    setTestSession({...})]: the block that both loaders end with. *)
Definition startSession (language : Language) (date : instant)
    (qs : list Question.t) (st : state) : state :=
  let session :=
    {| TestSession.id := toString (now date);
       TestSession.user_id := None;
       TestSession.language := language;
       TestSession.questions := map Question.id qs;
       TestSession.answers := repeat null (List.length qs);
       TestSession.score := 0;
       TestSession.total_questions := Z.of_nat (List.length qs);
       TestSession.completed_at := None;
       TestSession.created_at := iso date |} in
  {| questions := qs; currentQuestionIndex := currentQuestionIndex st;
     answers := repeat null (List.length qs); loading := loading st;
     testSession := Some session |}.

Definition sampleQuestions (language : Language) (date : instant) : list Question.t :=
  [ {| Question.id := "1";
       Question.question_text :=
         match language with
         | en => "What is the capital of India?"
         | hi => "भारत की राजधानी क्या है?"
         | tel => "భారతదేశ రాజధాని ఏది?"
         end;
       Question.options :=
         match language with
         | en => ["Mumbai"; "Delhi"; "Kolkata"; "Chennai"]
         | hi => ["मुंबई"; "दिल्ली"; "कोलकाता"; "चेन्नई"]
         | tel => ["ముంబై"; "ఢిల్లీ"; "కోల్‌కతా"; "చెన్నై"]
         end;
       Question.correct_answer := 1;
       Question.language := language;
       Question.category := "general";
       Question.difficulty := easy;
       Question.created_at := iso date;
       Question.images := Some "https://images.pexels.com/photos/1486222/pexels-photo-1486222.jpeg?auto=compress&cs=tinysrgb&w=800" |};
    {| Question.id := "2";
       Question.question_text :=
         match language with
         | en => "Which planet is known as the Red Planet?"
         | hi => "कौन सा ग्रह लाल ग्रह के नाम से जाना जाता है?"
         | tel => "ఏ గ్రహాన్ని రెడ్ ప్లానెట్ అని పిలుస్తారు?"
         end;
       Question.options :=
         match language with
         | en => ["Venus"; "Mars"; "Jupiter"; "Saturn"]
         | hi => ["शुक्र"; "मंगल"; "बृहस्पति"; "शनि"]
         | tel => ["శుక్రుడు"; "మంగళుడు"; "బృహస్పతి"; "శని"]
         end;
       Question.correct_answer := 1;
       Question.language := language;
       Question.category := "science";
       Question.difficulty := easy;
       Question.created_at := iso date;
       Question.images := Some "https://images.pexels.com/photos/87009/earth-soil-creep-moon-lunar-surface-87009.jpeg?auto=compress&cs=tinysrgb&w=800" |};
    {| Question.id := "3";
       Question.question_text :=
         match language with
         | en => "What mathematical operation is shown?"
         | hi => "कौन सा गणितीय ऑपरेशन दिखाया गया है?"
         | tel => "ఏ గణిత ఆపరేషన్ చూపబడింది?"
         end;
       Question.options :=
         match language with
         | en => ["Addition"; "Subtraction"; "Multiplication"; "Division"]
         | hi => ["जोड़"; "घटाव"; "गुणा"; "भाग"]
         | tel => ["కూడిక"; "తీసివేత"; "గుణకారం"; "భాగహారం"]
         end;
       Question.correct_answer := 2;
       Question.language := language;
       Question.category := "mathematics";
       Question.difficulty := easy;
       Question.created_at := iso date;
       Question.images := Some "https://images.pexels.com/photos/6238297/pexels-photo-6238297.jpeg?auto=compress&cs=tinysrgb&w=800" |} ].

Definition loadSampleQuestions (language : Language) (date : instant) (st : state) : state :=
  startSession language date (sampleQuestions language date) st.

Definition loadQuestions (supabase : Supabase.client) (language : Language) (date : instant)
    (st : state) : Eff Supabase.query state :=
  try_finally
    (try_catch
       (let st := setLoading true st in
        result <- QuestionService.getQuestionsByLanguage supabase (language_code language) 10 ;;
        if negb (success result) then ret (loadSampleQuestions language date st)
        else if (0 <? Z.of_nat (List.length (data result)))
        then ret (startSession language date (data result) st)
        else ret (loadSampleQuestions language date st))
       (fun error => ret (loadSampleQuestions language date (setLoading true st))))
    (setLoading false).

(** [[...answers]]: copying an array turns its holes into [undefined]. *)
Definition spread (a : list answer) : list answer :=
  map (fun x => match x with hole => undefined | _ => x end) a.

(** [a[i] = v]: an index beyond the end extends the array with holes. *)
Fixpoint array_set (a : list answer) (i : nat) (v : answer) : list answer :=
  match a, i with
  | [], O => [v]
  | [], S i' => hole :: array_set [] i' v
  | _ :: rest, O => v :: rest
  | x :: rest, S i' => x :: array_set rest i' v
  end.

Definition handleAnswerSelect (optionIndex : Z) (st : state) : state :=
  let newAnswers := array_set (spread (answers st))
                              (Z.to_nat (currentQuestionIndex st)) (selected optionIndex) in
  {| questions := questions st; currentQuestionIndex := currentQuestionIndex st;
     answers := newAnswers; loading := loading st; testSession := testSession st |}.

Definition setCurrentQuestionIndex (i : Z) (st : state) : state :=
  {| questions := questions st; currentQuestionIndex := i;
     answers := answers st; loading := loading st; testSession := testSession st |}.

Definition handleNext (st : state) : state :=
  if currentQuestionIndex st <? Z.of_nat (List.length (questions st)) - 1
  then setCurrentQuestionIndex (currentQuestionIndex st + 1) st
  else st.

Definition handlePrevious (st : state) : state :=
  if 0 <? currentQuestionIndex st
  then setCurrentQuestionIndex (currentQuestionIndex st - 1) st
  else st.

(** [answer === questions[index].correct_answer] *)
Definition is_correct (a : answer) (q : Question.t) : bool :=
  match a with
  | selected optionIndex => optionIndex =? Question.correct_answer q
  | _ => false
  end.

(** [answers.reduce((total, answer, index) => ..., 0)] from position
    [index] on: holes are skipped, and reading [correct_answer] of a
    question that is not there throws a [TypeError]. *)
Fixpoint reduce_score (questions : list Question.t) (answers : list answer)
    (index : nat) (total : Z) : completion Z :=
  match answers with
  | [] => Normal total
  | hole :: rest => reduce_score questions rest (S index) total
  | answer :: rest =>
      match nth_error questions index with
      | Some question =>
          reduce_score questions rest (S index)
                       (if is_correct answer question then total + 1 else total)
      | None => Throw (Error "Cannot read properties of undefined (reading 'correct_answer')")
      end
  end.

(** The argument of [router.push]. *)
Record navigation := {
  pathname : string;
  param_score : string;
  param_total : string;
  param_sessionId : string
}.

Definition handleSubmit (supabase : Supabase.client) (date : instant) (st : state)
    : Eff Supabase.query (option navigation) :=
  match testSession st with
  | None => ret None
  | Some session =>
      score <- (fun log => (reduce_score (questions st) (answers st) 0 0, log)) ;;
      let completedSession :=
        {| TestSession.id := TestSession.id session;
           TestSession.user_id := TestSession.user_id session;
           TestSession.language := TestSession.language session;
           TestSession.questions := TestSession.questions session;
           TestSession.answers := answers st;
           TestSession.score := score;
           TestSession.total_questions := TestSession.total_questions session;
           TestSession.completed_at := Some (iso date);
           TestSession.created_at := TestSession.created_at session |} in
      try_catch
        (request (Supabase.test_sessions_insert completedSession)
                 (Supabase.on_test_sessions_insert supabase completedSession) ;;
         ret tt)
        (fun error => ret tt) ;;
      ret (Some {| pathname := "/results";
                   param_score := toString score;
                   param_total := toString (Z.of_nat (List.length (questions st)));
                   param_sessionId := TestSession.id session |})
  end.

(** *** The screen as a transition system

    What the user and the framework can make the component do. The test
    view is rendered when loading is over, there are questions and the
    current question exists (rendering fails otherwise); it offers the
    options of the current question, the previous button, and either the
    next button or, on the last question, the submit button. *)

Inductive event :=
| Load (language : Language) (date : instant)   (* mount, language change, retry *)
| Select (optionIndex : Z)
| Next
| Previous
| Submit (date : instant).

Definition currentQuestion (st : state) : option Question.t :=
  if currentQuestionIndex st <? 0 then None
  else nth_error (questions st) (Z.to_nat (currentQuestionIndex st)).

Definition on_last (st : state) : bool :=
  currentQuestionIndex st =? Z.of_nat (List.length (questions st)) - 1.

Definition offered (st : state) (e : event) : bool :=
  match e with
  | Load _ _ => true
  | _ =>
      negb (loading st) &&
      match currentQuestion st with
      | None => false
      | Some question =>
          match e with
          | Select optionIndex =>
              (0 <=? optionIndex) &&
              (optionIndex <? Z.of_nat (List.length (Question.options question)))
          | Next => negb (on_last st)
          | Previous => negb (currentQuestionIndex st =? 0)
          | Submit _ => on_last st
          | Load _ _ => true
          end
      end
  end.

(** The state and the request log after the handler of [e] has run. *)
Definition handle (supabase : Supabase.client) (e : event) (st : state) (log : list Supabase.query)
    : state * list Supabase.query :=
  match e with
  | Load language date =>
      match loadQuestions supabase language date st log with
      | (Normal st', log') => (st', log')
      | (Throw _, log') => (setLoading false st, log')
      end
  | Select optionIndex => (handleAnswerSelect optionIndex st, log)
  | Next => (handleNext st, log)
  | Previous => (handlePrevious st, log)
  | Submit date => (st, snd (handleSubmit supabase date st log))
  end.

Inductive reachable (supabase : Supabase.client) : state -> list Supabase.query -> Prop :=
| reachable_initial : reachable supabase initial []
| reachable_step st log e :
    reachable supabase st log ->
    offered st e = true ->
    reachable supabase (fst (handle supabase e st log)) (snd (handle supabase e st log)).

(** The number of positions [i] with [answers[i]] equal to the correct
    answer of [questions[i]]. *)
Definition matching_positions (questions : list Question.t) (answers : list answer) : Z :=
  Z.of_nat (List.length
    (filter (fun i =>
               match nth_error answers i, nth_error questions i with
               | Some a, Some q => is_correct a q
               | _, _ => false
               end)
            (seq 0 (List.length answers)))).

(** The screen after a sequence of events, from the initial state and an
    empty log; [playable] checks that each event is offered when it is
    fired. *)
Definition run (supabase : Supabase.client) (events : list event) : state * list Supabase.query :=
  fold_left (fun sl e => handle supabase e (fst sl) (snd sl)) events (initial, []).

Fixpoint playable_from (supabase : Supabase.client) (events : list event)
    (st : state) (log : list Supabase.query) : bool :=
  match events with
  | [] => true
  | e :: rest =>
      offered st e &&
      playable_from supabase rest (fst (handle supabase e st log))
                    (snd (handle supabase e st log))
  end.

Definition playable (supabase : Supabase.client) (events : list event) : bool :=
  playable_from supabase events initial [].

(** A session of the sample questions in which the user selects options
    1, 0 and 2, and an instant to run it at. *)
Definition noon : instant := {| now := 1753600000000; iso := "2025-07-27T07:06:40.000Z" |}.

Definition sample_run (language : Language) : list event :=
  [Load language noon; Select 1; Next; Select 0; Next; Select 2].

(** Loading from state [st] and log [log] ends, with log [log'], on the
    built-in sample set: three questions, one per category, all in the
    active language, none answered. *)
Definition falls_back (supabase : Supabase.client) (language : Language) (date : instant)
    (st : state) (log log' : list Supabase.query) : Prop :=
  exists st',
    loadQuestions supabase language date st log = (Normal st', log') /\
    questions st' = sampleQuestions language date /\
    List.length (questions st') = 3%nat /\
    (forall q, In q (questions st') -> Question.language q = language) /\
    map Question.category (questions st') = ["general"; "science"; "mathematics"] /\
    answers st' = [null; null; null] /\
    loading st' = false.

(** The read of the questions fails (it rejects, or answers with an
    error) or returns no rows. *)
Definition fetch_fails_or_is_empty (supabase : Supabase.client) (language : Language) : Prop :=
  match Supabase.on_questions_select supabase (language_code language) 10 with
  | Throw _ => True
  | Normal r =>
      Supabase.error r <> None \/ Supabase.data r = None \/ Supabase.data r = Some []
  end.

(** The arrays the screen holds are aligned with each other and with
    the session it has started. *)
Definition consistent (st : state) : Prop :=
  List.length (answers st) = List.length (questions st) /\
  match testSession st with
  | None => True
  | Some session =>
      TestSession.total_questions session = Z.of_nat (List.length (questions st)) /\
      List.length (TestSession.questions session) = List.length (questions st)
  end.

End TestScreen.

(** ** Results screen *)

Module Results.

(** [const percentage = total > 0 ? Math.round((score / total) * 100) : 0],
    on the numbers [score] and [total] that the screen has read from its
    route parameters. *)
Definition percentage (score total : number) : number :=
  if gt total (of_Z 0)
  then Math_round (mul (div score total) (of_Z 100))
  else of_Z 0.

Definition getScoreColor (percentage : number) : string :=
  if ge percentage (of_Z 80) then "#16A34A"
  else if ge percentage (of_Z 60) then "#D97706"
  else "#DC2626".

Definition getScoreMessage (language : Language) (percentage : number) : string :=
  if ge percentage (of_Z 80) then
    match language with
    | en => "Excellent!"
    | hi => "उत्कृष्ट!"
    | tel => "అద్భుతం!"
    end
  else if ge percentage (of_Z 60) then
    match language with
    | en => "Good!"
    | hi => "अच्छा!"
    | tel => "బాగుంది!"
    end
  else
    match language with
    | en => "Keep practicing!"
    | hi => "अभ्यास जारी रखें!"
    | tel => "అభ్యాసం కొనసాగించండి!"
    end.

(** The three bands, with the message and the colour each one carries. *)
Inductive band := excellent | good | keep_practicing.

Definition band_message (language : Language) (b : band) : string :=
  match b, language with
  | excellent, en => "Excellent!"
  | excellent, hi => "उत्कृष्ट!"
  | excellent, tel => "అద్భుతం!"
  | good, en => "Good!"
  | good, hi => "अच्छा!"
  | good, tel => "బాగుంది!"
  | keep_practicing, en => "Keep practicing!"
  | keep_practicing, hi => "अभ्यास जारी रखें!"
  | keep_practicing, tel => "అభ్యాసం కొనసాగించండి!"
  end.

Definition band_color (b : band) : string :=
  match b with
  | excellent => "#16A34A"
  | good => "#D97706"
  | keep_practicing => "#DC2626"
  end.

(** A percentage is shown in band [b]. *)
Definition shown_as (percentage : number) (b : band) : Prop :=
  getScoreColor percentage = band_color b /\
  forall language, getScoreMessage language percentage = band_message language b.

(** The integer nearest to [100 * score / total] in exact arithmetic,
    halves rounded up. *)
Definition nearest_percent (score total : Z) : Z :=
  (200 * score + total) / (2 * total).

(** The pairs [(score, total)] with [0 <= score <= total < bound] and
    [0 < total]. *)
Definition sessions_below (bound : nat) : list (Z * Z) :=
  flat_map (fun total => map (fun score => (Z.of_nat score, Z.of_nat total))
                             (seq 0 (S total)))
           (seq 1 (bound - 1)).

End Results.

(** ** More of the JavaScript string API *)

Module JSText.

(** [s.trim()] on UTF-8 text. White space and line terminators are the
    ASCII characters TAB, LF, VT, FF, CR and SP, and the characters
    U+00A0, U+1680, U+2000 to U+200A, U+2028, U+2029, U+202F, U+205F,
    U+3000 and U+FEFF, given here by their encodings of two and three
    bytes. *)
Definition byte (c : ascii) : nat := nat_of_ascii c.

Definition is_space1 (c : ascii) : bool :=
  ((9 <=? byte c) && (byte c <=? 13) || (byte c =? 32))%nat.

Definition is_space2 (a b : ascii) : bool :=
  ((byte a =? 194) && (byte b =? 160))%nat.

Definition is_space3 (a b c : ascii) : bool :=
  ((byte a =? 225) && (byte b =? 154) && (byte c =? 128)
   || (byte a =? 226) && (byte b =? 128) &&
      ((128 <=? byte c) && (byte c <=? 138) || (byte c =? 168) || (byte c =? 169)
       || (byte c =? 175))
   || (byte a =? 226) && (byte b =? 129) && (byte c =? 159)
   || (byte a =? 227) && (byte b =? 128) && (byte c =? 128)
   || (byte a =? 239) && (byte b =? 187) && (byte c =? 191))%nat.

(** Drop the white space at the front of [l]; [s2] and [s3] recognise
    the characters of two and three bytes in the order the bytes are
    met. *)
Fixpoint strip (s2 : ascii -> ascii -> bool) (s3 : ascii -> ascii -> ascii -> bool)
    (l : list ascii) : list ascii :=
  match l with
  | [] => []
  | a :: r =>
      if is_space1 a then strip s2 s3 r
      else
        match r with
        | b :: r2 =>
            if s2 a b then strip s2 s3 r2
            else
              match r2 with
              | c :: r3 => if s3 a b c then strip s2 s3 r3 else l
              | [] => l
              end
        | [] => l
        end
  end.

Definition trimStart (l : list ascii) : list ascii := strip is_space2 is_space3 l.

Definition trimEnd (l : list ascii) : list ascii :=
  rev (strip (fun b a => is_space2 a b) (fun c b a => is_space3 a b c) (rev l)).

Definition trim (s : string) : string :=
  string_of_list_ascii (trimEnd (trimStart (list_ascii_of_string s))).

End JSText.

(** ** Image service: the sample insertion *)

Module ImageSample.

(** [const sampleImageData = {...}] of [insertSampleImage]. *)
Definition sampleImageData : ImageService.ImageData :=
  {| ImageService.question_id := Some "123e4567-e89b-12d3-a456-426614174000";
     ImageService.image_url :=
       Some "https://images.pexels.com/photos/6238297/pexels-photo-6238297.jpeg";
     ImageService.image_alt :=
       Some "Mathematical diagram showing geometric shapes and formulas";
     ImageService.image_type := Some "diagram";
     ImageService.display_order := Some (of_Z 1) |}.

(** The message of [new Error(result.error)]. *)
Definition Error_of (e : option string) : thrown :=
  Error match e with Some m => m | None => "" end.

Definition insertSampleImage (supabase : Supabase.client)
    : Eff Supabase.query (option Image.t) :=
  result <- ImageService.insertImage supabase sampleImageData ;;
  if success result then ret (data result)
  else throw (Error_of (error result)).

End ImageSample.

(** ** Question service: the sample insertion *)

Module QuestionSample.

Definition sampleImage : string :=
  "https://images.pexels.com/photos/6238297/pexels-photo-6238297.jpeg".

Definition sampleQuestions : list QuestionService.QuestionData :=
  [ {| QuestionService.question_text := Some "What is shown in this mathematical diagram?";
       QuestionService.options := Some ["Circle"; "Triangle"; "Square"; "Rectangle"];
       QuestionService.correct_answer := 1;
       QuestionService.language := en;
       QuestionService.category := Some "mathematics";
       QuestionService.difficulty := Some easy;
       QuestionService.images := Some sampleImage |};
    {| QuestionService.question_text := Some "इस चित्र में क्या दिखाया गया है?";
       QuestionService.options := Some ["वृत्त"; "त्रिभुज"; "वर्ग"; "आयत"];
       QuestionService.correct_answer := 1;
       QuestionService.language := hi;
       QuestionService.category := Some "mathematics";
       QuestionService.difficulty := Some easy;
       QuestionService.images := Some sampleImage |};
    {| QuestionService.question_text := Some "ఈ చిత్రంలో ఏమి చూపబడింది?";
       QuestionService.options := Some ["వృత్తం"; "త్రిభుజం"; "చతురస్రం"; "దీర్ఘచతురస్రం"];
       QuestionService.correct_answer := 1;
       QuestionService.language := tel;
       QuestionService.category := Some "mathematics";
       QuestionService.difficulty := Some easy;
       QuestionService.images := Some sampleImage |} ].

(** [for (const question of questions) { results.push(await insertQuestion(question)) }] *)
Fixpoint insert_each (new_URL : string -> option URL.t) (supabase : Supabase.client)
    (questions : list QuestionService.QuestionData)
    (results : list (envelope (option Question.t)))
    : Eff Supabase.query (list (envelope (option Question.t))) :=
  match questions with
  | [] => ret results
  | question :: rest =>
      result <- QuestionService.insertQuestion new_URL supabase question ;;
      insert_each new_URL supabase rest (results ++ [result])
  end.

Definition insertSampleQuestionsWithImages (new_URL : string -> option URL.t)
    (supabase : Supabase.client) : Eff Supabase.query (list (envelope (option Question.t))) :=
  insert_each new_URL supabase sampleQuestions [].

(** The query is an insertion into [questions] of a row in [language]. *)
Definition inserts_question_in (language : Language) (q : Supabase.query) : Prop :=
  exists row, q = Supabase.questions_insert row /\ Supabase.language row = language.

End QuestionSample.

(** ** The image of a question (components/QuestionImage) *)

Module QuestionImage.

(** What the component renders, as far as the URL decides it. *)
Inductive view :=
| nothing                    (* [return null] *)
| invalid_url                (* the "Invalid image URL" box *)
| image (uri : string).      (* the image, loading or error indicator *)

(** [isValidUrl]: the string parses and its protocol is http or https. *)
Definition isValidUrl (new_URL : string -> option URL.t) (url : string) : bool :=
  match new_URL url with
  | Some urlObj => array_includes ["http:"; "https:"] (URL.protocol urlObj)
  | None => false
  end.

Definition render (new_URL : string -> option URL.t) (imageUrl : option string) : view :=
  match imageUrl with
  | None => nothing
  | Some imageUrl =>
      if negb (truthy_string imageUrl) || String.eqb (JSText.trim imageUrl) "" then nothing
      else
        let cleanUrl := JSText.trim imageUrl in
        if negb (isValidUrl new_URL cleanUrl) then invalid_url
        else image cleanUrl
  end.

End QuestionImage.

(** ** The language provider (contexts/LanguageContext) *)

Module AsyncStorage.

(** The items of the device store. *)
Definition store := string -> option string.

Definition empty : store := fun _ => None.

Definition put (s : store) (key value : string) : store :=
  fun k => if String.eqb k key then Some value else s k.

(** The storage service: a read resolves to a string or [null] or
    rejects; a write resolves or rejects, and leaves a store. *)
Record t := {
  getItem : store -> string -> completion (option string);
  setItem : store -> string -> string -> completion unit * store
}.

(** A storage that works: reads return what was last written. *)
Definition working : t :=
  {| getItem := fun s key => Normal (s key);
     setItem := fun s key value => (Normal tt, put s key value) |}.

(** A storage on which every operation rejects. *)
Definition failing : t :=
  {| getItem := fun _ _ => Throw (Error "Storage unavailable");
     setItem := fun s _ _ => (Throw (Error "Storage unavailable"), s) |}.

End AsyncStorage.

Module LanguageContext.

(** The provider: the [language] state and the [isMountedRef] flag. *)
Record provider := {
  language : Language;
  isMounted : bool
}.

(** After [useState('en')] and the start of the mount effect. *)
Definition mounted : provider := {| language := en; isMounted := true |}.

Definition unmount (p : provider) : provider :=
  {| language := language p; isMounted := false |}.

Definition setLanguageState (l : Language) (p : provider) : provider :=
  {| language := l; isMounted := isMounted p |}.

(** [['en', 'hi', 'tel'].includes(saved)], with the language it names. *)
Definition language_of_code (saved : string) : option Language :=
  if String.eqb saved "en" then Some en
  else if String.eqb saved "hi" then Some hi
  else if String.eqb saved "tel" then Some tel
  else None.

Definition loadLanguage (storage : AsyncStorage.t) (p : provider) (s : AsyncStorage.store)
    : provider * AsyncStorage.store :=
  match AsyncStorage.getItem storage s "selectedLanguage" with
  | Normal savedLanguage =>
      match savedLanguage with
      | Some saved =>
          match language_of_code saved with
          | Some l => if isMounted p then (setLanguageState l p, s) else (p, s)
          | None => (p, s)
          end
      | None => (p, s)
      end
  | Throw _ => (p, s)
  end.

Definition setLanguage (storage : AsyncStorage.t) (newLanguage : Language)
    (p : provider) (s : AsyncStorage.store) : provider * AsyncStorage.store :=
  match AsyncStorage.setItem storage s "selectedLanguage" (language_code newLanguage) with
  | (Normal _, s') => (if isMounted p then setLanguageState newLanguage p else p, s')
  | (Throw _, s') => (p, s')
  end.

End LanguageContext.

(** ** The question form (components/QuestionForm) *)

Module QuestionForm.

(** The component state. [options] is an array of strings without
    holes, which is how [useState] starts it and how [addOption] and
    [removeOption] leave it. *)
Record state := {
  questionText : string;
  options : list string;
  correctAnswer : Z;
  category : string;
  difficulty : Difficulty;
  imageUrl : string;
  loading : bool;
  imageUrlError : string
}.

Definition initial : state :=
  {| questionText := ""; options := [""; ""; ""; ""]; correctAnswer := 0;
     category := "general"; difficulty := easy; imageUrl := "";
     loading := false; imageUrlError := "" |}.

Definition setOptions (o : list string) (st : state) : state :=
  {| questionText := questionText st; options := o; correctAnswer := correctAnswer st;
     category := category st; difficulty := difficulty st; imageUrl := imageUrl st;
     loading := loading st; imageUrlError := imageUrlError st |}.

Definition setCorrectAnswer (i : Z) (st : state) : state :=
  {| questionText := questionText st; options := options st; correctAnswer := i;
     category := category st; difficulty := difficulty st; imageUrl := imageUrl st;
     loading := loading st; imageUrlError := imageUrlError st |}.

Definition setImageUrl (url : string) (st : state) : state :=
  {| questionText := questionText st; options := options st;
     correctAnswer := correctAnswer st; category := category st;
     difficulty := difficulty st; imageUrl := url;
     loading := loading st; imageUrlError := imageUrlError st |}.

Definition setImageUrlError (e : string) (st : state) : state :=
  {| questionText := questionText st; options := options st;
     correctAnswer := correctAnswer st; category := category st;
     difficulty := difficulty st; imageUrl := imageUrl st;
     loading := loading st; imageUrlError := e |}.

Definition setLoading (b : bool) (st : state) : state :=
  {| questionText := questionText st; options := options st;
     correctAnswer := correctAnswer st; category := category st;
     difficulty := difficulty st; imageUrl := imageUrl st;
     loading := b; imageUrlError := imageUrlError st |}.

(** The form's own [validateImageUrl]: the verdict and the error text
    it leaves. *)
Definition validateImageUrl (new_URL : string -> option URL.t) (url : string)
    (st : state) : bool * state :=
  if negb (truthy_string url) then (true, setImageUrlError "" st)
  else if negb (QuestionService.isValidImageUrl new_URL url)
  then (false, setImageUrlError
                 "Please enter a valid image URL (jpg, png, gif, webp, etc.)" st)
  else (true, setImageUrlError "" st).

Definition handleImageUrlChange (new_URL : string -> option URL.t) (url : string)
    (st : state) : state :=
  snd (validateImageUrl new_URL url (setImageUrl url st)).

Definition addOption (st : state) : state :=
  if (List.length (options st) <? 6)%nat then setOptions (options st ++ [""]) st
  else st.

(** [options.filter((_, i) => i !== index)] *)
Fixpoint without (index : nat) (o : list string) : list string :=
  match o, index with
  | [], _ => []
  | _ :: rest, O => rest
  | x :: rest, S i => x :: without i rest
  end.

Definition removeOption (index : nat) (st : state) : state :=
  if (2 <? List.length (options st))%nat then
    let newOptions := without index (options st) in
    let st' := setOptions newOptions st in
    if Z.of_nat (List.length newOptions) <=? correctAnswer st
    then setCorrectAnswer (Z.of_nat (List.length newOptions) - 1) st'
    else st'
  else st.

(** What [handleSubmit] does to the world: alerts, backend requests. *)
Inductive effect :=
| Alert (title message : string)
| Backend (q : Supabase.query).

(** Run a service call, recording its requests among the effects. *)
Definition call {A} (c : Eff Supabase.query A) : Eff effect A :=
  fun log => let (r, queries) := c [] in (r, log ++ map Backend queries).

Definition alert (title message : string) : Eff effect unit :=
  fun log => (Normal tt, log ++ [Alert title message]).

(** [options.some(opt => !opt.trim())] *)
Definition some_blank (o : list string) : bool :=
  existsb (fun opt => negb (truthy_string (JSText.trim opt))) o.

(** [imageUrl.trim() || null] *)
Definition trimmed_or_null (url : string) : option string :=
  if truthy_string (JSText.trim url) then Some (JSText.trim url) else None.

Definition questionData (language : Language) (st : state) : QuestionService.QuestionData :=
  {| QuestionService.question_text := Some (JSText.trim (questionText st));
     QuestionService.options := Some (map JSText.trim (options st));
     QuestionService.correct_answer := correctAnswer st;
     QuestionService.language := language;
     QuestionService.category := Some (category st);
     QuestionService.difficulty := Some (difficulty st);
     QuestionService.images := trimmed_or_null (imageUrl st) |}.

(** [result.error || 'Failed to create question'] *)
Definition error_or_default (e : option string) : string :=
  match e with
  | Some m => if truthy_string m then m else "Failed to create question"
  | None => "Failed to create question"
  end.

(** [onSuccess] is the optional callback of the parent: it returns or
    throws. The result is the state the handler leaves. *)
Definition handleSubmit (new_URL : string -> option URL.t) (supabase : Supabase.client)
    (language : Language) (onSuccess : option (Question.t -> completion unit))
    (st : state) : Eff effect state :=
  if negb (truthy_string (JSText.trim (questionText st))) then
    alert "Error" "Question text is required" ;; ret st
  else if some_blank (options st) then
    alert "Error" "All options must be filled" ;; ret st
  else if truthy_string (imageUrl st)
          && negb (QuestionService.isValidImageUrl new_URL (imageUrl st)) then
    alert "Error" "Please enter a valid image URL or leave it empty" ;; ret st
  else
    try_finally
      (try_catch
         (result <- call (QuestionService.insertQuestion new_URL supabase
                            (questionData language st)) ;;
          match success result, data result with
          | true, Some question =>
              alert "Success" "Question created successfully" ;;
              match onSuccess with
              | Some callback => fun log => (callback question, log)
              | None => ret tt
              end
          | _, _ => alert "Error" (error_or_default (error result))
          end ;;
          ret (setLoading true st))
         (fun error =>
            alert "Error" "An unexpected error occurred" ;;
            ret (setLoading true st)))
      (setLoading false).

(** The shape the form keeps: two to six options and a correct answer
    that indexes one of them. *)
Definition well_formed (st : state) : Prop :=
  (2 <= List.length (options st) <= 6)%nat /\
  0 <= correctAnswer st < Z.of_nat (List.length (options st)).

(** A row that satisfies the invariant of a question: non-empty text,
    two to six non-empty options, a correct answer among them. *)
Definition valid_row (row : Supabase.question_row) : Prop :=
  Supabase.question_text row <> "" /\
  (2 <= List.length (Supabase.options row) <= 6)%nat /\
  Forall (fun opt => opt <> "") (Supabase.options row) /\
  0 <= Supabase.correct_answer row < Z.of_nat (List.length (Supabase.options row)).

End QuestionForm.

(** ** Notions for the properties of the test screen *)

Module TestScreenFacts.
Import TestScreen.

(** The score, counted question by question. *)
Fixpoint tally (qs : list Question.t) (a : list answer) : Z :=
  match qs, a with
  | q :: qs', x :: a' => (if is_correct x q then 1 else 0) + tally qs' a'
  | _, _ => 0
  end.

(** An answer the view can have produced for question [q]: none yet, or
    the index of one of the options of [q]. *)
Definition offered_answer (q : option Question.t) (a : answer) : Prop :=
  a = null \/
  exists k q', a = selected k /\ q = Some q' /\
               0 <= k < Z.of_nat (List.length (Question.options q')).

Definition answers_offered (st : state) : Prop :=
  List.length (answers st) = List.length (questions st) /\
  forall i a, nth_error (answers st) i = Some a ->
              offered_answer (nth_error (questions st) i) a.

(** The current index is the position of a question. *)
Definition in_range (st : state) : Prop :=
  0 <= currentQuestionIndex st < Z.of_nat (List.length (questions st)).

(** Position [i] holds a correct answer. *)
Definition correct_at (qs : list Question.t) (a : list answer) (i : nat) : bool :=
  match nth_error a i, nth_error qs i with
  | Some x, Some q => is_correct x q
  | _, _ => false
  end.

End TestScreenFacts.

(** ** Notions for the properties of the services *)

Module ServiceFacts.

(** The envelope a service call makes of the backend's reply to a write
    or a read whose row type is [R]: [wrap] turns the reply's data into
    the envelope's, [nothing] is the data of a failure. *)
Definition envelope_of {R D} (nothing : D) (wrap : option R -> D)
    (failure success : string) (reply : completion (Supabase.response R)) : envelope D :=
  match reply with
  | Normal r =>
      match Supabase.error r with
      | Some e => failed nothing (failure ++ Supabase.message e)
      | None => succeeded (wrap (Supabase.data r)) success
      end
  | Throw t => failed nothing (error_message t)
  end.

(** The rows of a reply, [[]] for [null]. *)
Definition rows_of {R} (data : option (list R)) : list R :=
  match data with Some rows => rows | None => [] end.

(** The backend resolved without an error. *)
Definition answered {R} (reply : completion (Supabase.response R)) : Prop :=
  exists r, reply = Normal r /\ Supabase.error r = None.

(** A string field that is absent (or null) or empty, and one that
    holds the non-empty string [s]. *)
Definition missing (v : option string) : Prop := v = None \/ v = Some "".

Definition supplied (v : option string) (s : string) : Prop := v = Some s /\ s <> "".

(** The envelope [e] reports the backend's [reply]. It has the uniform
    shape; it is a success exactly when the backend resolved without an
    error, and then carries the reply's data (through [wrap], which
    turns null into the empty list for the reads); when the backend
    resolved with an error the error string ends in the backend's
    message, and when the request rejected it is the message of the
    thrown value. *)
Definition reports {R D} (nothing : D) (wrap : option R -> D)
    (reply : completion (Supabase.response R)) (e : envelope D) : Prop :=
  uniform nothing e /\
  (success e = true <-> answered reply) /\
  (forall r, reply = Normal r -> Supabase.error r = None ->
     data e = wrap (Supabase.data r)) /\
  (forall r err, reply = Normal r -> Supabase.error r = Some err ->
     exists prefix, error e = Some (prefix ++ Supabase.message err)%string) /\
  (forall t, reply = Throw t -> error e = Some (error_message t)).

(** The envelope of a call that was refused before any request: a
    failure with null and a non-empty error string. *)
Definition refusal {D} (e : envelope (option D)) : Prop :=
  exists reason, reason <> "" /\ e = failed None reason.

End ServiceFacts.

(** ** Notions for the properties of the question form *)

Module FormFacts.
Import QuestionForm.

(** The option that the view marks as correct: the one whose index is
    [correctAnswer]. *)
Definition marked (st : state) : option string :=
  if correctAnswer st <? 0 then None
  else nth_error (options st) (Z.to_nat (correctAnswer st)).

Definition is_alert (e : effect) : Prop := exists title message, e = Alert title message.

(** The row is the one the form describes: trimmed text and options,
    the marked index, the form's language, and the trimmed image URL,
    checked, or none. *)
Definition row_of_form (new_URL : string -> option URL.t) (language : Language)
    (st : state) (row : Supabase.question_row) : Prop :=
  Supabase.question_text row = JSText.trim (questionText st) /\
  Supabase.question_text row <> "" /\
  Supabase.options row = map JSText.trim (options st) /\
  Forall (fun opt => opt <> "") (Supabase.options row) /\
  Supabase.correct_answer row = correctAnswer st /\
  Supabase.language row = language /\
  (Supabase.images row = None \/
   Supabase.images row = Some (JSText.trim (imageUrl st)) /\
   QuestionService.isValidImageUrl new_URL (JSText.trim (imageUrl st)) = true).

(** The stored question a backend returns for an inserted row. *)
Definition stored (row : Supabase.question_row) : Question.t :=
  {| Question.id := "7c9e6679-7425-40de-944b-e07fc1f90ae7";
     Question.question_text := Supabase.question_text row;
     Question.options := Supabase.options row;
     Question.correct_answer := Supabase.correct_answer row;
     Question.language := Supabase.language row;
     Question.category := Supabase.category row;
     Question.difficulty := Supabase.difficulty row;
     Question.created_at := "2025-01-01T00:00:00+00:00";
     Question.images := Supabase.images row |}.

(** A backend that stores every question it is sent and returns it. *)
Definition accepting : Supabase.client :=
  {| Supabase.on_images_insert := Supabase.on_images_insert Supabase.empty;
     Supabase.on_images_select := Supabase.on_images_select Supabase.empty;
     Supabase.on_questions_select := Supabase.on_questions_select Supabase.empty;
     Supabase.on_questions_insert :=
       fun row => Normal {| Supabase.data := Some (stored row); Supabase.error := None |};
     Supabase.on_questions_update := Supabase.on_questions_update Supabase.empty;
     Supabase.on_test_sessions_insert := Supabase.on_test_sessions_insert Supabase.empty |}.

(** A form filled in with a question, three options and no image. *)
Definition filled : state :=
  setCorrectAnswer 1
    (setOptions [" 3 "; "4"; "5"]
       {| questionText := "2 + 2 = ?"; options := []; correctAnswer := 0;
          category := "general"; difficulty := easy; imageUrl := "";
          loading := false; imageUrlError := "" |}).

End FormFacts.

(** * Part II: properties *)

(** Running a service function: unfold the monad and split on every
    test and every backend outcome. *)
Ltac run_service :=
  unfold try_catch, bind, request, ret, throw; simpl;
  repeat match goal with
         | |- context [match ?x with _ => _ end] =>
             lazymatch x with
             | context [match _ with _ => _ end] => fail
             | _ => destruct x eqn:?; simpl
             end
         end.


(** ** Numbers *)

Lemma same_eq (a b : number) : same a b = true -> a = b.
Proof.
  destruct a as [sa| sa| |sa ma ea], b as [sb| sb| |sb mb eb]; simpl;
    try discriminate; try reflexivity.
  - intros H. apply Bool.eqb_prop in H. congruence.
  - intros H. apply Bool.eqb_prop in H. congruence.
  - intros H. apply andb_prop in H. destruct H as [H He].
    apply andb_prop in H. destruct H as [Hs Hm].
    apply Bool.eqb_prop in Hs. apply Pos.eqb_eq in Hm. apply Z.eqb_eq in He.
    congruence.
Qed.

Lemma SFcompare_antisym (a b : number) (c : comparison) :
  SFcompare a b = Some c -> SFcompare b a = Some (CompOpp c).
Proof.
  destruct a as [sa| sa| |sa ma ea], b as [sb| sb| |sb mb eb]; simpl;
    try discriminate;
    try (destruct sa; intros [= <-]; reflexivity);
    try (destruct sb; intros [= <-]; reflexivity);
    try (intros [= <-]; reflexivity).
  - destruct sa, sb; intros [= <-]; reflexivity.
  - assert (Hm : Pos.compare_cont Eq mb ma = CompOpp (Pos.compare_cont Eq ma mb))
      by (rewrite Pos.compare_cont_antisym; reflexivity).
    rewrite (Z.compare_antisym ea eb), Hm.
    destruct sa, sb; intros [= <-]; try reflexivity;
      destruct (ea ?= eb); simpl; try reflexivity;
      destruct (Pos.compare_cont Eq ma mb); reflexivity.
Qed.

Lemma lt_not_ge (a b : number) : lt a b = true -> ge a b = false.
Proof.
  unfold lt, ge, SFltb, SFleb. intros H.
  destruct (SFcompare a b) as [[]|] eqn:E; try discriminate.
  rewrite (SFcompare_antisym _ _ _ E). reflexivity.
Qed.

Lemma not_ge_not_lt_nan (a b : number) :
  ge a b = false -> lt a b = false -> SFcompare b a = None.
Proof.
  unfold lt, ge, SFltb, SFleb. intros H1 H2.
  destruct (SFcompare b a) as [c|] eqn:E; [|reflexivity].
  rewrite (SFcompare_antisym _ _ _ E) in H2.
  destruct c; simpl in *; discriminate.
Qed.

Lemma SFcompare_none (a b : number) :
  SFcompare b a = None -> a = S754_nan \/ b = S754_nan.
Proof.
  destruct a, b; simpl; intros H; try discriminate; auto.
Qed.

(** ** Results screen *)

Section ResultsProperties.
Import Results.

Lemma band_excellent (p : number) :
  ge p (of_Z 80) = true -> shown_as p excellent.
Proof.
  intros H. split; [|intros language];
    unfold getScoreColor, getScoreMessage; rewrite H;
    try destruct language; reflexivity.
Qed.

Lemma band_good (p : number) :
  ge p (of_Z 60) = true -> lt p (of_Z 80) = true -> shown_as p good.
Proof.
  intros H60 H80. apply lt_not_ge in H80.
  split; [|intros language];
    unfold getScoreColor, getScoreMessage; rewrite H80, H60;
    try destruct language; reflexivity.
Qed.

Lemma band_keep_practicing (p : number) :
  ge p (of_Z 80) = false ->
  ge p (of_Z 60) && lt p (of_Z 80) = false ->
  shown_as p keep_practicing.
Proof.
  intros H80 H.
  assert (H60 : ge p (of_Z 60) = false).
  { destruct (ge p (of_Z 60)) eqn:E; [|reflexivity]. simpl in H.
    destruct (SFcompare_none _ _ (not_ge_not_lt_nan _ _ H80 H)) as [Hn|Hn];
      [subst p; discriminate E | discriminate Hn]. }
  split; [|intros language];
    unfold getScoreColor, getScoreMessage; rewrite H80, H60;
    try destruct language; reflexivity.
Qed.

Lemma sessions_below_complete (bound : nat) (score total : Z) :
  0 <= score <= total -> 0 < total < Z.of_nat bound ->
  In (score, total) (sessions_below bound).
Proof.
  intros Hs Ht. unfold sessions_below. apply in_flat_map.
  exists (Z.to_nat total). split.
  - apply in_seq. lia.
  - apply in_map_iff. exists (Z.to_nat score). split.
    + f_equal; lia.
    + apply in_seq. lia.
Qed.

Lemma percentage_exact_below_40 (score total : Z) :
  0 <= score <= total -> 0 < total < 40 ->
  percentage (of_Z score) (of_Z total) = of_Z (nearest_percent score total).
Proof.
  intros Hs Ht.
  assert (H : forallb (fun st => same (percentage (of_Z (fst st)) (of_Z (snd st)))
                                      (of_Z (nearest_percent (fst st) (snd st))))
                      (sessions_below 40) = true) by (vm_compute; reflexivity).
  rewrite forallb_forall in H.
  apply same_eq, (H _ (sessions_below_complete 40 score total Hs Ht)).
Qed.

(** The bound is sharp: at 23 out of 40 the quotient 0.575 is rounded
    down to a double whose product with 100 lies just below 57.5. *)
Lemma percentage_double_rounding :
  percentage (of_Z 23) (of_Z 40) = of_Z 57 /\ nearest_percent 23 40 = 58.
Proof. split; reflexivity. Qed.

End ResultsProperties.

(** ** Test screen *)

Section TestScreenProperties.
Import TestScreen.
Variable supabase : Supabase.client.

Lemma array_set_length (a : list answer) (i : nat) (v : answer) :
  (i < List.length a)%nat -> List.length (array_set a i v) = List.length a.
Proof.
  revert i. induction a as [|x a IH]; intros [|i] H; simpl in *; try lia.
  rewrite IH; lia.
Qed.

Lemma spread_length (a : list answer) : List.length (spread a) = List.length a.
Proof. apply length_map. Qed.

(** The fold of [handleSubmit] from position [index] on adds one for
    each matching position, provided every answer has its question. *)
Lemma reduce_score_from (qs : list Question.t) (a : list answer) :
  forall index total,
    (index + List.length a <= List.length qs)%nat ->
    reduce_score qs a index total =
    Normal (total + Z.of_nat (List.length
      (filter (fun i => match nth_error a i, nth_error qs (index + i) with
                        | Some x, Some q => is_correct x q
                        | _, _ => false
                        end)
              (seq 0 (List.length a))))).
Proof.
  induction a as [|x a IH]; intros index total H.
  - simpl. f_equal. lia.
  - assert (Hshift :
      List.length (filter (fun i => match nth_error (x :: a) i, nth_error qs (index + i) with
                                    | Some y, Some q => is_correct y q
                                    | _, _ => false
                                    end) (seq 1 (List.length a)))
      = List.length (filter (fun i => match nth_error a i, nth_error qs (S index + i) with
                                      | Some y, Some q => is_correct y q
                                      | _, _ => false
                                      end) (seq 0 (List.length a)))).
    { rewrite <- seq_shift, filter_map_swap, length_map. f_equal.
      apply filter_ext. intros i. simpl. now rewrite Nat.add_succ_r. }
    simpl in H.
    destruct (nth_error qs index) as [q|] eqn:Hq;
      [|apply nth_error_None in Hq; lia].
    assert (Hstep : reduce_score qs (x :: a) index total =
                    reduce_score qs a (S index)
                      (if is_correct x q then total + 1 else total)).
    { simpl. rewrite Hq. destruct x; reflexivity. }
    rewrite Hstep, IH by lia.
    change (List.length (x :: a)) with (S (List.length a)).
    rewrite <- Hshift. clear Hshift.
    set (f := fun i => match nth_error (x :: a) i, nth_error qs (index + i) with
                       | Some y, Some q => is_correct y q
                       | _, _ => false
                       end).
    assert (H0 : f 0%nat = is_correct x q)
      by (unfold f; simpl; now rewrite Nat.add_0_r, Hq).
    change (seq 0 (S (List.length a))) with (0%nat :: seq 1 (List.length a)).
    cbn [filter]. rewrite H0.
    destruct (is_correct x q); cbn [List.length]; f_equal; lia.
Qed.

Lemma reduce_score_matching (qs : list Question.t) (a : list answer) :
  List.length a = List.length qs ->
  reduce_score qs a 0 0 = Normal (matching_positions qs a).
Proof.
  intros H. rewrite reduce_score_from by (simpl; lia). reflexivity.
Qed.

Lemma matching_positions_bounds (qs : list Question.t) (a : list answer) :
  0 <= matching_positions qs a <= Z.of_nat (List.length a).
Proof.
  unfold matching_positions. split; [lia|].
  apply inj_le.
  etransitivity; [apply filter_length_le|]. now rewrite length_seq.
Qed.

Lemma getQuestionsByLanguage_run (language : string) (limit : Z) (log : list Supabase.query) :
  exists result,
    QuestionService.getQuestionsByLanguage supabase language limit log =
    (Normal result, log ++ [Supabase.questions_select language limit]) /\
    (success result = true ->
     exists r, Supabase.on_questions_select supabase language limit = Normal r /\
               Supabase.error r = None /\
               data result = match Supabase.data r with Some rows => rows | None => [] end).
Proof.
  unfold QuestionService.getQuestionsByLanguage, try_catch, bind, request, ret, throw.
  destruct (Supabase.on_questions_select supabase language limit) as [r|t] eqn:E.
  - destruct (Supabase.error r) as [e|] eqn:Ee; eexists; (split; [reflexivity|]);
      simpl; intros H; [discriminate|]. exists r. auto.
  - eexists; split; [reflexivity|]. simpl. discriminate.
Qed.

(** Loading always ends normally, after one read request, with a fresh
    session over a question list that is the backend's rows or the
    sample set. *)
Lemma loadQuestions_run (language : Language) (date : instant) (st : state)
    (log : list Supabase.query) :
  exists qs,
    loadQuestions supabase language date st log =
    (Normal (setLoading false (startSession language date qs (setLoading true st))),
     log ++ [Supabase.questions_select (language_code language) 10]) /\
    qs <> [].
Proof.
  unfold loadQuestions, try_finally, try_catch, bind.
  destruct (getQuestionsByLanguage_run (language_code language) 10 log) as (result & -> & _).
  unfold ret, loadSampleQuestions.
  destruct (success result); simpl.
  - destruct (0 <? Z.of_nat (List.length (data result))) eqn:E.
    + exists (data result). split; [reflexivity|].
      intros Hnil. rewrite Hnil in E. discriminate.
    + exists (sampleQuestions language date). split; [reflexivity|discriminate].
  - exists (sampleQuestions language date). split; [reflexivity|discriminate].
Qed.

Lemma startSession_consistent (language : Language) (date : instant)
    (qs : list Question.t) (st : state) :
  consistent (startSession language date qs st).
Proof.
  unfold consistent. simpl. rewrite repeat_length, length_map. auto.
Qed.

Lemma handle_consistent (e : event) (st : state) (log : list Supabase.query) :
  consistent st -> offered st e = true -> consistent (fst (handle supabase e st log)).
Proof.
  intros Hc He. destruct e as [language date|optionIndex| | |date]; simpl.
  - destruct (loadQuestions_run language date st log) as (qs & -> & _). simpl.
    apply (startSession_consistent language date qs (setLoading true st)).
  - destruct Hc as [Hlen Hs]. split; [|exact Hs]. simpl.
    simpl in He. apply andb_prop in He. destruct He as [_ He].
    unfold currentQuestion in He.
    destruct (currentQuestionIndex st <? 0) eqn:Hneg; [discriminate|].
    destruct (nth_error (questions st) (Z.to_nat (currentQuestionIndex st))) eqn:Hq;
      [|discriminate].
    assert (Hlt : (Z.to_nat (currentQuestionIndex st) < List.length (questions st))%nat)
      by (apply nth_error_Some; congruence).
    rewrite array_set_length; rewrite spread_length; lia.
  - unfold handleNext. destruct (_ <? _); exact Hc.
  - unfold handlePrevious. destruct (_ <? _); exact Hc.
  - exact Hc.
Qed.

Lemma reachable_consistent (st : state) (log : list Supabase.query) :
  reachable supabase st log -> consistent st.
Proof.
  induction 1 as [|st log e _ IH He].
  - split; simpl; auto.
  - now apply handle_consistent.
Qed.

Lemma playable_reachable (events : list event) :
  forall st log,
    reachable supabase st log ->
    playable_from supabase events st log = true ->
    reachable supabase
      (fst (fold_left (fun sl e => handle supabase e (fst sl) (snd sl)) events (st, log)))
      (snd (fold_left (fun sl e => handle supabase e (fst sl) (snd sl)) events (st, log))).
Proof.
  induction events as [|e events IH]; intros st log Hr Hp; simpl in *.
  - exact Hr.
  - apply andb_prop in Hp. destruct Hp as [He Hp].
    rewrite (surjective_pairing (handle supabase e st log)).
    apply IH; [|exact Hp]. now apply reachable_step.
Qed.

Lemma run_reachable (events : list event) :
  playable supabase events = true ->
  reachable supabase (fst (run supabase events)) (snd (run supabase events)).
Proof.
  intros H. apply playable_reachable; [constructor | exact H].
Qed.

Lemma handleSubmit_run (date : instant) (st : state) (log : list Supabase.query)
    (session : TestSession.t) :
  testSession st = Some session ->
  List.length (answers st) = List.length (questions st) ->
  handleSubmit supabase date st log =
  (Normal (Some {| pathname := "/results";
                   param_score := toString (matching_positions (questions st) (answers st));
                   param_total := toString (Z.of_nat (List.length (questions st)));
                   param_sessionId := TestSession.id session |}),
   log ++ [Supabase.test_sessions_insert
             {| TestSession.id := TestSession.id session;
                TestSession.user_id := TestSession.user_id session;
                TestSession.language := TestSession.language session;
                TestSession.questions := TestSession.questions session;
                TestSession.answers := answers st;
                TestSession.score := matching_positions (questions st) (answers st);
                TestSession.total_questions := TestSession.total_questions session;
                TestSession.completed_at := Some (iso date);
                TestSession.created_at := TestSession.created_at session |}]).
Proof.
  intros Hs Hlen. unfold handleSubmit. rewrite Hs.
  unfold bind, try_catch, request, ret.
  rewrite (reduce_score_matching _ _ Hlen).
  destruct (Supabase.on_test_sessions_insert supabase _); reflexivity.
Qed.

(** C1. Whenever the submit handler runs in a state the screen can be
    in, it either has no session and does nothing, or it completes
    normally after sending exactly one completed session to the backend;
    the score stored in that session is the number of positions where
    the answer equals the correct answer of the question at that
    position, it lies between 0 and [total_questions], and the answers,
    the question identifiers and the question list all have
    [total_questions] elements. *)
Theorem submit_stores_matching_score (date : instant) (st : state)
    (log : list Supabase.query) :
  reachable supabase st log ->
  (testSession st = None /\ handleSubmit supabase date st log = (Normal None, log)) \/
  (exists completed nav,
      handleSubmit supabase date st log =
        (Normal (Some nav), log ++ [Supabase.test_sessions_insert completed]) /\
      TestSession.answers completed = answers st /\
      TestSession.completed_at completed = Some (iso date) /\
      TestSession.score completed = matching_positions (questions st) (answers st) /\
      0 <= TestSession.score completed <= TestSession.total_questions completed /\
      Z.of_nat (List.length (TestSession.answers completed)) =
        TestSession.total_questions completed /\
      Z.of_nat (List.length (TestSession.questions completed)) =
        TestSession.total_questions completed /\
      Z.of_nat (List.length (questions st)) = TestSession.total_questions completed /\
      param_score nav = toString (TestSession.score completed) /\
      param_total nav = toString (TestSession.total_questions completed)).
Proof.
  intros Hr. destruct (reachable_consistent _ _ Hr) as [Hlen Hs].
  destruct (testSession st) as [session|] eqn:E.
  - right. destruct Hs as [Ht Hq].
    do 2 eexists. split; [apply (handleSubmit_run date st log session E Hlen)|].
    cbn [TestSession.answers TestSession.completed_at TestSession.score
         TestSession.total_questions TestSession.questions param_score param_total].
    pose proof (matching_positions_bounds (questions st) (answers st)) as Hb.
    rewrite Ht, Hq, Hlen. repeat split; try reflexivity; lia.
  - left. split; [reflexivity|]. unfold handleSubmit. rewrite E. reflexivity.
Qed.

End TestScreenProperties.

Lemma submit_stores_matching_score_witness :
  let st := fst (TestScreen.run Supabase.unreachable (TestScreen.sample_run hi)) in
  let log := snd (TestScreen.run Supabase.unreachable (TestScreen.sample_run hi)) in
  TestScreen.reachable Supabase.unreachable st log /\
  ((TestScreen.testSession st = None /\
    TestScreen.handleSubmit Supabase.unreachable TestScreen.noon st log = (Normal None, log)) \/
   (exists completed nav,
      TestScreen.handleSubmit Supabase.unreachable TestScreen.noon st log =
        (Normal (Some nav), log ++ [Supabase.test_sessions_insert completed]) /\
      TestSession.answers completed = TestScreen.answers st /\
      TestSession.completed_at completed = Some (TestScreen.iso TestScreen.noon) /\
      TestSession.score completed =
        TestScreen.matching_positions (TestScreen.questions st) (TestScreen.answers st) /\
      0 <= TestSession.score completed <= TestSession.total_questions completed /\
      Z.of_nat (List.length (TestSession.answers completed)) =
        TestSession.total_questions completed /\
      Z.of_nat (List.length (TestSession.questions completed)) =
        TestSession.total_questions completed /\
      Z.of_nat (List.length (TestScreen.questions st)) =
        TestSession.total_questions completed /\
      TestScreen.param_score nav = toString (TestSession.score completed) /\
      TestScreen.param_total nav = toString (TestSession.total_questions completed))).
Proof.
  intros st log.
  assert (Hr : TestScreen.reachable Supabase.unreachable st log)
    by (apply run_reachable; reflexivity).
  split; [exact Hr|].
  exact (submit_stores_matching_score Supabase.unreachable TestScreen.noon st log Hr).
Defined.

Section LoadingProperties.
Import TestScreen.
Variable supabase : Supabase.client.

Lemma loadQuestions_sample (language : Language) (date : instant)
    (st : state) (log log' : list Supabase.query) (result : envelope (list Question.t)) :
  QuestionService.getQuestionsByLanguage supabase (language_code language) 10 log =
    (Normal result, log') ->
  success result = false \/ data result = [] ->
  falls_back supabase language date st log log'.
Proof.
  intros Hget Hfail.
  exists (setLoading false (loadSampleQuestions language date (setLoading true st))).
  split.
  - unfold loadQuestions, try_finally, try_catch, bind. rewrite Hget. unfold ret.
    destruct Hfail as [Hf|He].
    + rewrite Hf. reflexivity.
    + rewrite He. destruct (success result); reflexivity.
  - simpl. repeat split; try reflexivity.
    intros q [<-|[<-|[<-|[]]]]; reflexivity.
Qed.

Lemma getQuestionsByLanguage_fails_or_is_empty (language : Language)
    (log : list Supabase.query) :
  fetch_fails_or_is_empty supabase language ->
  exists result,
    QuestionService.getQuestionsByLanguage supabase (language_code language) 10 log =
      (Normal result, log ++ [Supabase.questions_select (language_code language) 10]) /\
    (success result = false \/ data result = []).
Proof.
  unfold fetch_fails_or_is_empty, QuestionService.getQuestionsByLanguage,
    try_catch, bind, request, ret, throw.
  destruct (Supabase.on_questions_select supabase (language_code language) 10) as [r|t].
  - destruct (Supabase.error r) as [e|]; intros H.
    + eexists. split; [reflexivity | left; reflexivity].
    + destruct H as [H|[H|H]]; [congruence| |]; rewrite H;
        (eexists; split; [reflexivity | right; reflexivity]).
  - intros _. eexists. split; [reflexivity | left; reflexivity].
Qed.

(** C8. When the fetch of the questions for the active language fails
    (the envelope is a failure: the backend rejected or answered with an
    error) or returns zero rows, loading ends with the built-in sample
    set: exactly three questions, one in each of the categories general,
    science and mathematics, each carrying the active language, with
    three unset answers. For language hi and zero rows these are the
    three sample questions flagged hi. *)
Theorem load_falls_back_to_samples (language : Language) (date : instant)
    (st : state) (log : list Supabase.query) :
  (forall result log',
     QuestionService.getQuestionsByLanguage supabase (language_code language) 10 log =
       (Normal result, log') ->
     success result = false \/ data result = [] ->
     falls_back supabase language date st log log') /\
  (fetch_fails_or_is_empty supabase language ->
   falls_back supabase language date st log
     (log ++ [Supabase.questions_select (language_code language) 10])).
Proof.
  split.
  - intros result log'. apply loadQuestions_sample.
  - intros H.
    destruct (getQuestionsByLanguage_fails_or_is_empty language log H)
      as (result & Hget & Hfail).
    exact (loadQuestions_sample language date st log _ result Hget Hfail).
Qed.

End LoadingProperties.

Lemma load_falls_back_to_samples_witness :
  TestScreen.fetch_fails_or_is_empty Supabase.empty hi /\
  TestScreen.falls_back Supabase.empty hi TestScreen.noon TestScreen.initial
    [] [Supabase.questions_select "hi" 10] /\
  TestScreen.falls_back Supabase.unreachable tel TestScreen.noon TestScreen.initial
    [] [Supabase.questions_select "tel" 10].
Proof.
  assert (Hhi : TestScreen.fetch_fails_or_is_empty Supabase.empty hi)
    by (right; right; reflexivity).
  split; [exact Hhi|]. split.
  - exact (proj2 (load_falls_back_to_samples Supabase.empty hi TestScreen.noon
                    TestScreen.initial []) Hhi).
  - exact (proj1 (load_falls_back_to_samples Supabase.unreachable tel TestScreen.noon
                    TestScreen.initial [])
             (failed [] "Network request failed") [Supabase.questions_select "tel" 10]
             eq_refl (or_introl eq_refl)).
Defined.

(** ** Results screen: percentage, bands and a three-question session *)

Section ResultsScenario.
Import Results TestScreen.

Lemma three_answers_score (qs : list Question.t) :
  map Question.correct_answer qs = [1; 1; 2] ->
  List.length qs = 3%nat /\
  matching_positions qs [selected 1; selected 0; selected 2] = 2.
Proof.
  destruct qs as [|q1 [|q2 [|q3 [|q4 qs]]]]; try discriminate.
  intros [= H1 H2 H3]. split; [reflexivity|].
  unfold matching_positions. simpl. rewrite H1, H2, H3. reflexivity.
Qed.

(** C3. The results view computes the percentage as [Math.round] of
    [(score / total) * 100] when [total > 0] and as 0 otherwise, in
    particular when [total] is 0; for every session of fewer than 40
    questions this is the integer nearest to the exact ratio times 100,
    halves up. A percentage of at least 80 is shown as excellent, one of
    at least 60 and below 80 as good, any other as keep practicing. A
    session with answers 1, 0, 2 against correct answers 1, 1, 2 is
    submitted with score 2 out of 3, which gives 67 percent and good. *)
Theorem results_percentage_and_band :
  (forall score total, gt total (of_Z 0) = true ->
     percentage score total = Math_round (mul (div score total) (of_Z 100))) /\
  (forall score total, gt total (of_Z 0) = false -> percentage score total = of_Z 0) /\
  (forall score, percentage score (of_Z 0) = of_Z 0) /\
  (forall score total : Z, 0 <= score <= total -> 0 < total < 40 ->
     percentage (of_Z score) (of_Z total) = of_Z (nearest_percent score total)) /\
  (forall p, ge p (of_Z 80) = true -> shown_as p excellent) /\
  (forall p, ge p (of_Z 60) = true -> lt p (of_Z 80) = true -> shown_as p good) /\
  (forall p, ge p (of_Z 80) = false -> ge p (of_Z 60) && lt p (of_Z 80) = false ->
     shown_as p keep_practicing) /\
  (forall supabase date st log session,
     testSession st = Some session ->
     map Question.correct_answer (questions st) = [1; 1; 2] ->
     answers st = [selected 1; selected 0; selected 2] ->
     exists completed nav,
       handleSubmit supabase date st log =
         (Normal (Some nav), log ++ [Supabase.test_sessions_insert completed]) /\
       TestSession.score completed = 2 /\
       param_score nav = "2" /\ param_total nav = "3" /\
       percentage (of_Z 2) (of_Z 3) = of_Z 67 /\
       shown_as (of_Z 67) good).
Proof.
  repeat apply conj.
  - intros score total H. unfold percentage. now rewrite H.
  - intros score total H. unfold percentage. now rewrite H.
  - intros score. reflexivity.
  - exact percentage_exact_below_40.
  - exact band_excellent.
  - exact band_good.
  - exact band_keep_practicing.
  - intros supabase date st log session Hs Hq Ha.
    destruct (three_answers_score _ Hq) as [Hlen Hscore]. rewrite <- Ha in Hscore.
    do 2 eexists. split.
    + apply (handleSubmit_run supabase date st log session Hs).
      rewrite Ha, Hlen. reflexivity.
    + cbn [TestSession.score param_score param_total]. rewrite Hscore, Hlen.
      repeat split; try reflexivity; try (intros []; reflexivity).
Qed.

End ResultsScenario.

Lemma results_percentage_and_band_witness :
  Results.percentage (of_Z 2) (of_Z 3) = of_Z (Results.nearest_percent 2 3) /\
  Results.shown_as (of_Z 90) Results.excellent /\
  Results.shown_as (of_Z 67) Results.good /\
  Results.shown_as (of_Z 40) Results.keep_practicing.
Proof.
  destruct results_percentage_and_band as (_ & _ & _ & Hexact & He & Hg & Hk & _).
  split; [apply Hexact; lia|].
  split; [apply He; reflexivity|].
  split; [apply Hg; reflexivity|].
  apply Hk; reflexivity.
Defined.

(** ** Inserting an image *)

Section InsertImage.
Import Supabase ImageService.
Variable supabase : client.

Lemma truthy_nonempty (s : string) : s <> "" -> truthy (Some s) = Some s.
Proof. destruct s; [congruence | reflexivity]. Qed.

Lemma truthy_Some (v : option string) (s : string) :
  truthy v = Some s -> v = Some s /\ s <> "".
Proof.
  destruct v as [[|c r]|]; simpl; try discriminate.
  intros [= <-]. split; [reflexivity | discriminate].
Qed.

(** With both required fields there, [insertImage] sends one row and
    turns the backend's answer into an envelope. *)
Lemma insertImage_run (imageData : ImageData) (qid url : string) (log : list query) :
  question_id imageData = Some qid -> image_url imageData = Some url ->
  qid <> "" -> url <> "" ->
  insertImage supabase imageData log =
  (Normal match on_images_insert supabase (dataToInsert qid url imageData) with
          | Normal r =>
              match Supabase.error r with
              | Some e => failed None ("Failed to insert image: " ++ Supabase.message e)
              | None => succeeded (Supabase.data r) "Image inserted successfully"
              end
          | Throw t => failed None (error_message t)
          end,
   log ++ [images_insert (dataToInsert qid url imageData)]).
Proof.
  intros Hq Hu Hqn Hun. unfold insertImage.
  rewrite Hq, Hu, (truthy_nonempty _ Hqn), (truthy_nonempty _ Hun).
  run_service; reflexivity.
Qed.

Lemma insertImage_missing (imageData : ImageData) :
  truthy (question_id imageData) = None \/ truthy (image_url imageData) = None ->
  rejects_with None "question_id and image_url are required fields"
               (insertImage supabase imageData).
Proof.
  intros H log. unfold insertImage.
  destruct H as [-> | H].
  - reflexivity.
  - rewrite H. destruct (truthy (question_id imageData)); reflexivity.
Qed.

(** C6. When [question_id] or [image_url] is missing or empty,
    [insertImage] resolves to the failure envelope with data null and
    the error "question_id and image_url are required fields", and sends
    nothing to the backend. When both are present it sends exactly one
    row, carrying them, in which an absent [image_alt] is the empty
    string, an absent [image_type] is "general" and an absent
    [display_order] is 1; when the backend answers without an error the
    call resolves to success with the row the backend returned. *)
Theorem insertImage_requires_and_defaults (imageData : ImageData) :
  (question_id imageData = None \/ question_id imageData = Some "" \/
   image_url imageData = None \/ image_url imageData = Some "" ->
   rejects_with None "question_id and image_url are required fields"
                (insertImage supabase imageData)) /\
  (forall qid url,
     question_id imageData = Some qid -> image_url imageData = Some url ->
     qid <> "" -> url <> "" ->
     exists row,
       (forall log, snd (insertImage supabase imageData log) = log ++ [images_insert row]) /\
       Supabase.question_id row = qid /\
       Supabase.image_url row = url /\
       (image_alt imageData = None -> Supabase.image_alt row = "") /\
       (image_type imageData = None -> Supabase.image_type row = "general") /\
       (display_order imageData = None -> Supabase.display_order row = of_Z 1) /\
       (forall r, on_images_insert supabase row = Normal r -> Supabase.error r = None ->
          forall log, fst (insertImage supabase imageData log) =
                      Normal (succeeded (Supabase.data r) "Image inserted successfully"))).
Proof.
  split.
  - intros H. apply insertImage_missing.
    destruct H as [H|[H|[H|H]]]; rewrite H; auto.
  - intros qid url Hq Hu Hqn Hun. exists (dataToInsert qid url imageData).
    split; [intros log; now rewrite (insertImage_run _ qid url log)|].
    do 2 (split; [reflexivity|]).
    split; [intros H; simpl; now rewrite H|].
    split; [intros H; simpl; now rewrite H|].
    split; [intros H; simpl; now rewrite H|].
    intros r Hr He log. rewrite (insertImage_run _ qid url log) by assumption.
    simpl. now rewrite Hr, He.
Qed.

(** C10. In the row [insertImage] sends, every falsy value of a
    defaultable field is replaced by the default, not only an absent
    one: a [display_order] of 0 (or -0, or NaN) becomes 1, an empty
    [image_type] becomes "general" and an empty [image_alt] stays empty.
    Consequently every call that resolves to success has sent one row
    whose [display_order] is not 0. *)
Theorem insertImage_coerces_falsy (imageData : ImageData) :
  (forall qid url,
     question_id imageData = Some qid -> image_url imageData = Some url ->
     qid <> "" -> url <> "" ->
     exists row,
       (forall log, snd (insertImage supabase imageData log) = log ++ [images_insert row]) /\
       (display_order imageData = Some (of_Z 0) -> Supabase.display_order row = of_Z 1) /\
       (forall n, display_order imageData = Some n -> truthy_number n = false ->
          Supabase.display_order row = of_Z 1) /\
       (forall t, image_type imageData = Some t -> truthy_string t = false ->
          Supabase.image_type row = "general") /\
       (forall a, image_alt imageData = Some a -> truthy_string a = false ->
          Supabase.image_alt row = "")) /\
  (forall log e log',
     insertImage supabase imageData log = (Normal e, log') ->
     success e = true ->
     exists row,
       log' = log ++ [images_insert row] /\
       SFeqb (Supabase.display_order row) (of_Z 0) = false /\
       forall sign, Supabase.display_order row <> S754_zero sign).
Proof.
  split.
  - intros qid url Hq Hu Hqn Hun. exists (dataToInsert qid url imageData).
    split; [intros log; now rewrite (insertImage_run _ qid url log)|].
    split; [intros H; simpl; now rewrite H|].
    split; [intros n H Hn; unfold dataToInsert, number_or;
            cbn [Supabase.display_order]; now rewrite H, Hn|].
    split; [intros t H Ht; unfold dataToInsert, string_or;
            cbn [Supabase.image_type]; now rewrite H, Ht|].
    intros a H Ha. unfold dataToInsert, string_or.
    cbn [Supabase.image_alt]. now rewrite H, Ha.
  - intros log e log' Hrun Hok.
    destruct (truthy (question_id imageData)) as [qid|] eqn:Hq;
      [|rewrite (insertImage_missing imageData (or_introl Hq) log) in Hrun;
        injection Hrun as <- _; discriminate].
    destruct (truthy (image_url imageData)) as [url|] eqn:Hu;
      [|rewrite (insertImage_missing imageData (or_intror Hu) log) in Hrun;
        injection Hrun as <- _; discriminate].
    apply truthy_Some in Hq, Hu. destruct Hq as [Hq Hqn], Hu as [Hu Hun].
    rewrite (insertImage_run _ qid url log Hq Hu Hqn Hun) in Hrun.
    injection Hrun as _ <-. exists (dataToInsert qid url imageData).
    split; [reflexivity|]. simpl. unfold number_or.
    destruct (display_order imageData) as [[| | |]|]; simpl;
      split; try reflexivity; try discriminate.
    all: destruct s; reflexivity.
Qed.

End InsertImage.

Lemma insertImage_requires_and_defaults_witness :
  rejects_with None "question_id and image_url are required fields"
    (ImageService.insertImage Supabase.empty ImageService.imageDataWithoutUrl) /\
  exists row,
    (forall log, snd (ImageService.insertImage Supabase.empty ImageService.bareImageData log) =
                 log ++ [Supabase.images_insert row]) /\
    Supabase.question_id row = "123e4567-e89b-12d3-a456-426614174000" /\
    Supabase.image_url row =
      "https://images.pexels.com/photos/6238297/pexels-photo-6238297.jpeg" /\
    Supabase.image_alt row = "" /\
    Supabase.image_type row = "general" /\
    Supabase.display_order row = of_Z 1 /\
    forall log, fst (ImageService.insertImage Supabase.empty ImageService.bareImageData log) =
                Normal (succeeded None "Image inserted successfully").
Proof.
  split.
  - apply (proj1 (insertImage_requires_and_defaults Supabase.empty
                    ImageService.imageDataWithoutUrl)).
    right; right; left; reflexivity.
  - destruct (proj2 (insertImage_requires_and_defaults Supabase.empty
                       ImageService.bareImageData)
                _ _ eq_refl eq_refl) as (row & Hlog & Hq & Hu & Ha & Ht & Hd & Hok);
      [discriminate | discriminate |].
    exists row. repeat split; auto.
Defined.

Lemma insertImage_coerces_falsy_witness :
  exists row,
    (forall log, snd (ImageService.insertImage Supabase.empty ImageService.sampleImageData log) =
                 log ++ [Supabase.images_insert row]) /\
    Supabase.display_order row = of_Z 1 /\
    Supabase.image_type row = "general".
Proof.
  destruct (proj1 (insertImage_coerces_falsy Supabase.empty ImageService.sampleImageData)
              _ _ eq_refl eq_refl) as (row & Hlog & Hd & _ & Ht & _);
    [discriminate | discriminate |].
  exists row. repeat split; auto.
  apply (Ht ""); reflexivity.
Defined.

(** ** Writing questions *)

Section QuestionWrites.
Import Supabase ImageService QuestionService.
Variable new_URL : string -> option URL.t.
Variable supabase : client.

Lemma insertQuestion_missing (questionData : QuestionData) :
  question_text questionData = None \/ question_text questionData = Some "" \/
  options questionData = None \/ options questionData = Some [] ->
  rejects_with None "question_text and options are required fields"
               (insertQuestion new_URL supabase questionData).
Proof.
  intros H log. unfold insertQuestion.
  destruct H as [H|[H|[H|H]]]; rewrite H; simpl;
    try reflexivity;
    destruct (truthy (question_text questionData)); reflexivity.
Qed.

Lemma insertQuestion_invalid_image (questionData : QuestionData) (url : string) :
  images questionData = Some url -> url <> "" ->
  isValidImageUrl new_URL url = false ->
  rejects_with None "question_text and options are required fields"
               (insertQuestion new_URL supabase questionData) \/
  rejects_with None "Invalid image URL format"
               (insertQuestion new_URL supabase questionData).
Proof.
  intros Hi Hn Hv.
  destruct (question_text questionData) as [[|c t]|] eqn:Ht;
    try (left; apply insertQuestion_missing; auto; fail).
  destruct (options questionData) as [[|o os]|] eqn:Ho;
    try (left; apply insertQuestion_missing; auto; fail).
  right. intros log. unfold insertQuestion.
  rewrite Ht, Ho, Hi, (truthy_nonempty _ Hn). simpl.
  unfold bind. rewrite Hv. reflexivity.
Qed.

Lemma insertQuestion_without_image (questionData : QuestionData) (text o : string)
    (os : list string) (log : list query) :
  question_text questionData = Some text -> text <> "" ->
  options questionData = Some (o :: os) ->
  images questionData = None \/ images questionData = Some "" ->
  snd (insertQuestion new_URL supabase questionData log) =
    log ++ [questions_insert (dataToInsert text (o :: os) questionData)] /\
  Supabase.images (dataToInsert text (o :: os) questionData) = None.
Proof.
  intros Ht Hn Ho Hi. unfold insertQuestion, dataToInsert.
  rewrite Ht, Ho, (truthy_nonempty _ Hn).
  destruct Hi as [-> | ->]; simpl; (split; [|reflexivity]);
    run_service; reflexivity.
Qed.

Lemma updateQuestion_invalid_image (id : string) (updates : question_updates) (url : string) :
  set_images updates = Some (Some url) -> url <> "" ->
  isValidImageUrl new_URL url = false ->
  rejects_with None "Invalid image URL format"
               (updateQuestion new_URL supabase id updates).
Proof.
  intros Hi Hn Hv log. unfold updateQuestion.
  rewrite Hi, (truthy_nonempty _ Hn). unfold try_catch, bind. rewrite Hv. reflexivity.
Qed.

Lemma updateQuestion_without_image (id : string) (updates : question_updates)
    (log : list query) :
  set_images updates = None \/ set_images updates = Some None \/
  set_images updates = Some (Some "") ->
  updateQuestion new_URL supabase id updates log =
  (Normal match on_questions_update supabase updates id with
          | Normal r =>
              match Supabase.error r with
              | Some e => failed None ("Failed to update question: " ++ Supabase.message e)
              | None => succeeded (Supabase.data r) "Question updated successfully"
              end
          | Throw t => failed None (error_message t)
          end,
   log ++ [questions_update updates id]).
Proof.
  intros H. unfold updateQuestion.
  destruct H as [H|[H|H]]; rewrite H; run_service; reflexivity.
Qed.

(** C5. An image is supplied when [images] is a non-empty string; an
    empty string, like null, is no image. [insertQuestion] resolves to
    the failure envelope with the error "question_text and options are
    required fields", sending nothing, when the text is missing or empty
    or the options are missing or empty; and to a failure with that
    error or "Invalid image URL format", sending nothing, when an image
    is supplied that fails [isValidImageUrl]. Without an image nothing
    is checked and the row is sent with [images] null. [updateQuestion]
    rejects with "Invalid image URL format", sending nothing, when the
    update carries an image that fails the check; when [images] is
    absent (or null or empty) the check is not applied: the update is
    sent and the envelope depends on the backend's answer alone. In
    short, [insertQuestion] is rejected with a non-empty error string
    and without a request whenever the text is empty, the options are
    empty or a supplied image fails [isValidImageUrl]. *)
Theorem question_writes_validate :
  (forall questionData,
     question_text questionData = None \/ question_text questionData = Some "" \/
     options questionData = None \/ options questionData = Some [] ->
     rejects_with None "question_text and options are required fields"
                  (insertQuestion new_URL supabase questionData)) /\
  (forall questionData url,
     images questionData = Some url -> url <> "" ->
     isValidImageUrl new_URL url = false ->
     rejects_with None "question_text and options are required fields"
                  (insertQuestion new_URL supabase questionData) \/
     rejects_with None "Invalid image URL format"
                  (insertQuestion new_URL supabase questionData)) /\
  (forall questionData text o os log,
     question_text questionData = Some text -> text <> "" ->
     options questionData = Some (o :: os) ->
     images questionData = None \/ images questionData = Some "" ->
     snd (insertQuestion new_URL supabase questionData log) =
       log ++ [questions_insert (dataToInsert text (o :: os) questionData)] /\
     Supabase.images (dataToInsert text (o :: os) questionData) = None) /\
  (forall id updates url,
     set_images updates = Some (Some url) -> url <> "" ->
     isValidImageUrl new_URL url = false ->
     rejects_with None "Invalid image URL format"
                  (updateQuestion new_URL supabase id updates)) /\
  (forall id updates log,
     set_images updates = None \/ set_images updates = Some None \/
     set_images updates = Some (Some "") ->
     updateQuestion new_URL supabase id updates log =
     (Normal match on_questions_update supabase updates id with
             | Normal r =>
                 match Supabase.error r with
                 | Some e => failed None ("Failed to update question: " ++ Supabase.message e)
                 | None => succeeded (Supabase.data r) "Question updated successfully"
                 end
             | Throw t => failed None (error_message t)
             end,
      log ++ [questions_update updates id])) /\
  (forall questionData,
     question_text questionData = Some "" \/
     options questionData = Some [] \/
     (exists url, images questionData = Some url /\ url <> "" /\
                  isValidImageUrl new_URL url = false) ->
     rejects_descriptively None (insertQuestion new_URL supabase questionData)).
Proof.
  repeat apply conj.
  - exact insertQuestion_missing.
  - exact insertQuestion_invalid_image.
  - exact insertQuestion_without_image.
  - exact updateQuestion_invalid_image.
  - exact updateQuestion_without_image.
  - intros questionData [H | [H | (url & Hi & Hn & Hv)]].
    + eexists. split; [|apply insertQuestion_missing; auto]. discriminate.
    + eexists. split; [|apply insertQuestion_missing; auto]. discriminate.
    + destruct (insertQuestion_invalid_image questionData url Hi Hn Hv) as [Hr | Hr];
        (eexists; split; [|exact Hr]; discriminate).
Qed.

End QuestionWrites.

Lemma question_writes_validate_witness :
  rejects_with None "question_text and options are required fields"
    (QuestionService.insertQuestion URL.parse Supabase.empty
       {| QuestionService.question_text := Some "";
          QuestionService.options := Some ["Circle"; "Triangle"];
          QuestionService.correct_answer := 1;
          QuestionService.language := en;
          QuestionService.category := None;
          QuestionService.difficulty := None;
          QuestionService.images := None |}) /\
  (rejects_with None "question_text and options are required fields"
     (QuestionService.insertQuestion URL.parse Supabase.empty
        (QuestionService.sampleQuestion (Some "not a url"))) \/
   rejects_with None "Invalid image URL format"
     (QuestionService.insertQuestion URL.parse Supabase.empty
        (QuestionService.sampleQuestion (Some "not a url")))) /\
  rejects_with None "Invalid image URL format"
    (QuestionService.updateQuestion URL.parse Supabase.empty "42"
       (QuestionService.imagesUpdate (Some (Some "ftp://x.com/a.png")))).
Proof.
  destruct (question_writes_validate URL.parse Supabase.empty)
    as (Hmissing & Hinvalid & _ & Hupdate & _ & _).
  split; [apply Hmissing; right; left; reflexivity|].
  split; [apply (Hinvalid _ "not a url"); [reflexivity | discriminate | reflexivity]|].
  apply (Hupdate _ _ "ftp://x.com/a.png"); [reflexivity | discriminate | reflexivity].
Defined.

(** ** Data access *)

Section DataAccess.
Import ServiceFacts.
Variable new_URL : string -> option URL.t.
Variable supabase : Supabase.client.

Lemma missing_or_supplied (v : option string) : missing v \/ exists s, supplied v s.
Proof.
  destruct v as [[|c s]|]; [left; now right | right | left; now left].
  exists (String c s). split; [reflexivity | discriminate].
Qed.

Lemma missing_truthy (v : option string) : missing v -> ImageService.truthy v = None.
Proof. intros [-> | ->]; reflexivity. Qed.

Lemma supplied_truthy (v : option string) (s : string) :
  supplied v s -> ImageService.truthy v = Some s.
Proof. intros [-> Hs]. now apply truthy_nonempty. Qed.

Lemma refusal_uniform {D} (e : envelope (option D)) : refusal e -> uniform None e.
Proof. intros (reason & _ & ->). right. unfold failed. cbn. eauto 6. Qed.

(** The envelope made of a reply reports it. *)
Lemma reply_reports {R D} (nothing : D) (wrap : option R -> D) (failure : string)
    (found : Supabase.response R -> string) (reply : completion (Supabase.response R)) :
  reports nothing wrap reply
    match reply with
    | Normal r =>
        match Supabase.error r with
        | Some err => failed nothing (failure ++ Supabase.message err)
        | None => succeeded (wrap (Supabase.data r)) (found r)
        end
    | Throw t => failed nothing (error_message t)
    end.
Proof.
  unfold reports, answered, uniform.
  destruct reply as [r|t]; [destruct (Supabase.error r) as [err|] eqn:He|];
    unfold succeeded, failed; cbn [success data message error].
  - split; [right; eauto 6|].
    split; [split; [discriminate | intros (r' & [= <-] & H); congruence]|].
    split; [intros r' [= <-] H; congruence|].
    split; [|intros t H; discriminate H].
    intros r' err' [= <-] H. exists failure. congruence.
  - split; [left; eauto|].
    split; [split; [intros _; now exists r | reflexivity]|].
    split; [intros r' [= <-] _; reflexivity|].
    split; [|intros t H; discriminate H].
    intros r' err' [= <-] H. congruence.
  - split; [right; eauto 6|].
    split; [split; [discriminate | intros (r' & H & _); discriminate H]|].
    split; [intros r' H; discriminate H|].
    split; [intros r' err' H; discriminate H|].
    intros t' [= <-]. reflexivity.
Qed.

Lemma getQuestionsByLanguage_eq (language : string) (limit : Z) (log : list Supabase.query) :
  QuestionService.getQuestionsByLanguage supabase language limit log =
  (Normal match Supabase.on_questions_select supabase language limit with
          | Normal r =>
              match Supabase.error r with
              | Some e => failed [] ("Failed to fetch questions: " ++ Supabase.message e)
              | None => succeeded (rows_of (Supabase.data r))
                          ("Found " ++ length_or_0 (Supabase.data r) ++ " questions")
              end
          | Throw t => failed [] (error_message t)
          end,
   log ++ [Supabase.questions_select language limit]).
Proof.
  unfold QuestionService.getQuestionsByLanguage. run_service; reflexivity.
Qed.

Lemma getImagesByQuestionId_eq (questionId : string) (log : list Supabase.query) :
  ImageService.getImagesByQuestionId supabase questionId log =
  (Normal match Supabase.on_images_select supabase questionId with
          | Normal r =>
              match Supabase.error r with
              | Some e => failed [] ("Failed to fetch images: " ++ Supabase.message e)
              | None => succeeded (rows_of (Supabase.data r))
                          ("Found " ++ length_or_0 (Supabase.data r) ++ " images")
              end
          | Throw t => failed [] (error_message t)
          end,
   log ++ [Supabase.images_select questionId]).
Proof.
  unfold ImageService.getImagesByQuestionId. run_service; reflexivity.
Qed.

Lemma insertQuestion_checked (questionData : QuestionService.QuestionData)
    (text o : string) (os : list string) (log : list Supabase.query) :
  supplied (QuestionService.question_text questionData) text ->
  QuestionService.options questionData = Some (o :: os) ->
  (forall u, supplied (QuestionService.images questionData) u ->
             QuestionService.isValidImageUrl new_URL u = true) ->
  QuestionService.insertQuestion new_URL supabase questionData log =
  (Normal match Supabase.on_questions_insert supabase
                  (QuestionService.dataToInsert text (o :: os) questionData) with
          | Normal r =>
              match Supabase.error r with
              | Some e => failed None ("Failed to insert question: " ++ Supabase.message e)
              | None => succeeded (Supabase.data r) "Question inserted successfully"
              end
          | Throw t => failed None (error_message t)
          end,
   log ++ [Supabase.questions_insert
             (QuestionService.dataToInsert text (o :: os) questionData)]).
Proof.
  intros Ht Ho Hv. unfold QuestionService.insertQuestion.
  rewrite (supplied_truthy _ _ Ht), Ho.
  unfold try_catch, bind, request, ret, throw.
  destruct (missing_or_supplied (QuestionService.images questionData)) as [Hi | [u Hi]].
  - rewrite (missing_truthy _ Hi).
    destruct (Supabase.on_questions_insert supabase _) as [r|t];
      [destruct (Supabase.error r)|]; reflexivity.
  - rewrite (supplied_truthy _ _ Hi), (Hv u Hi). cbn [negb].
    destruct (Supabase.on_questions_insert supabase _) as [r|t];
      [destruct (Supabase.error r)|]; reflexivity.
Qed.

Lemma updateQuestion_checked (id : string) (updates : Supabase.question_updates)
    (log : list Supabase.query) :
  (forall u, Supabase.set_images updates = Some (Some u) -> u <> "" ->
             QuestionService.isValidImageUrl new_URL u = true) ->
  QuestionService.updateQuestion new_URL supabase id updates log =
  (Normal match Supabase.on_questions_update supabase updates id with
          | Normal r =>
              match Supabase.error r with
              | Some e => failed None ("Failed to update question: " ++ Supabase.message e)
              | None => succeeded (Supabase.data r) "Question updated successfully"
              end
          | Throw t => failed None (error_message t)
          end,
   log ++ [Supabase.questions_update updates id]).
Proof.
  intros Hv.
  destruct (Supabase.set_images updates) as [[[|c u]|]|] eqn:Hi;
    try (apply updateQuestion_without_image; auto; fail).
  unfold QuestionService.updateQuestion. rewrite Hi.
  cbn [ImageService.truthy truthy_string].
  rewrite (Hv (String c u) eq_refl) by discriminate. cbn [negb].
  unfold try_catch, bind, request, ret, throw.
  destruct (Supabase.on_questions_update supabase updates id) as [r|t];
    [destruct (Supabase.error r)|]; reflexivity.
Qed.

(** C4. Each of the five data-access operations, for every argument,
    every backend behaviour (a response with or without an error, or a
    rejection with any thrown value) and every URL constructor, returns
    normally, never by throwing, with an envelope of the uniform shape,
    and the envelope tells what happened. The two reads send one select
    and report its reply: success with the backend's rows exactly when
    the backend resolved without an error, failure with the empty list
    and an error string otherwise. Each of the three writes either
    refuses its argument, sending nothing and returning a failure with
    null and a non-empty error string, which happens exactly when the
    validation fails (a required field missing or empty, or a supplied
    image that fails [isValidImageUrl]); or sends one request and
    reports its reply: success with the stored row exactly when the
    backend resolved without an error, failure with null and the
    backend's or the thrown error's message otherwise. *)
Theorem data_access_returns_envelope :
  (forall language limit log,
     exists e,
       QuestionService.getQuestionsByLanguage supabase language limit log =
         (Normal e, log ++ [Supabase.questions_select language limit]) /\
       reports [] rows_of (Supabase.on_questions_select supabase language limit) e) /\
  (forall questionId log,
     exists e,
       ImageService.getImagesByQuestionId supabase questionId log =
         (Normal e, log ++ [Supabase.images_select questionId]) /\
       reports [] rows_of (Supabase.on_images_select supabase questionId) e) /\
  (forall questionData log,
     exists e,
       uniform None e /\
       ((QuestionService.insertQuestion new_URL supabase questionData log =
           (Normal e, log) /\
         refusal e /\
         (missing (QuestionService.question_text questionData) \/
          QuestionService.options questionData = None \/
          QuestionService.options questionData = Some [] \/
          exists u, supplied (QuestionService.images questionData) u /\
                    QuestionService.isValidImageUrl new_URL u = false)) \/
        (exists text o os,
           supplied (QuestionService.question_text questionData) text /\
           QuestionService.options questionData = Some (o :: os) /\
           (forall u, supplied (QuestionService.images questionData) u ->
                      QuestionService.isValidImageUrl new_URL u = true) /\
           QuestionService.insertQuestion new_URL supabase questionData log =
             (Normal e,
              log ++ [Supabase.questions_insert
                        (QuestionService.dataToInsert text (o :: os) questionData)]) /\
           reports None (fun d => d)
             (Supabase.on_questions_insert supabase
                (QuestionService.dataToInsert text (o :: os) questionData)) e))) /\
  (forall id updates log,
     exists e,
       uniform None e /\
       ((QuestionService.updateQuestion new_URL supabase id updates log =
           (Normal e, log) /\
         refusal e /\
         exists u, Supabase.set_images updates = Some (Some u) /\ u <> "" /\
                   QuestionService.isValidImageUrl new_URL u = false) \/
        ((forall u, Supabase.set_images updates = Some (Some u) -> u <> "" ->
                    QuestionService.isValidImageUrl new_URL u = true) /\
         QuestionService.updateQuestion new_URL supabase id updates log =
           (Normal e, log ++ [Supabase.questions_update updates id]) /\
         reports None (fun d => d)
           (Supabase.on_questions_update supabase updates id) e))) /\
  (forall imageData log,
     exists e,
       uniform None e /\
       ((ImageService.insertImage supabase imageData log = (Normal e, log) /\
         refusal e /\
         (missing (ImageService.question_id imageData) \/
          missing (ImageService.image_url imageData))) \/
        (exists qid url,
           supplied (ImageService.question_id imageData) qid /\
           supplied (ImageService.image_url imageData) url /\
           ImageService.insertImage supabase imageData log =
             (Normal e,
              log ++ [Supabase.images_insert
                        (ImageService.dataToInsert qid url imageData)]) /\
           reports None (fun d => d)
             (Supabase.on_images_insert supabase
                (ImageService.dataToInsert qid url imageData)) e))).
Proof.
  assert (Hrefusal : forall D reason, reason <> "" ->
            @refusal D (failed None reason)) by (intros D reason H; now exists reason).
  split; [|split; [|split; [|split]]].
  - intros language limit log. eexists. split; [apply getQuestionsByLanguage_eq|].
    apply (reply_reports [] rows_of "Failed to fetch questions: "
             (fun r => ("Found " ++ length_or_0 (Supabase.data r) ++ " questions")%string)).
  - intros questionId log. eexists. split; [apply getImagesByQuestionId_eq|].
    apply (reply_reports [] rows_of "Failed to fetch images: "
             (fun r => ("Found " ++ length_or_0 (Supabase.data r) ++ " images")%string)).
  - intros questionData log.
    assert (Hcases :
      (missing (QuestionService.question_text questionData) \/
       QuestionService.options questionData = None \/
       QuestionService.options questionData = Some [] \/
       exists u, supplied (QuestionService.images questionData) u /\
                 QuestionService.isValidImageUrl new_URL u = false) \/
      (exists text o os,
         supplied (QuestionService.question_text questionData) text /\
         QuestionService.options questionData = Some (o :: os) /\
         (forall u, supplied (QuestionService.images questionData) u ->
                    QuestionService.isValidImageUrl new_URL u = true))).
    { destruct (missing_or_supplied (QuestionService.question_text questionData))
        as [Ht | [text Ht]]; [auto|].
      destruct (QuestionService.options questionData) as [[|o os]|]; [auto | | auto].
      destruct (missing_or_supplied (QuestionService.images questionData))
        as [Hi | [u Hi]].
      - right. exists text, o, os. repeat split; try apply Ht.
        intros u [Hu Hn]. destruct Hi as [Hi | Hi]; congruence.
      - destruct (QuestionService.isValidImageUrl new_URL u) eqn:Hv.
        + right. exists text, o, os. repeat split; try apply Ht.
          intros u' [Hu' _]. destruct Hi as [Hi _]. congruence.
        + left. right. right. right. now exists u. }
    destruct Hcases as [Hcause | (text & o & os & Ht & Ho & Hv)].
    + assert (Hrun : exists reason, reason <> "" /\
                QuestionService.insertQuestion new_URL supabase questionData log =
                  (Normal (failed None reason), log)).
      { destruct Hcause as [[H | H] | [H | [H | (u & [Hi Hn] & Hv)]]];
          try (eexists; split;
               [|apply (insertQuestion_missing new_URL supabase questionData); auto];
               discriminate).
        destruct (insertQuestion_invalid_image new_URL supabase questionData u Hi Hn Hv)
          as [H | H]; (eexists; split; [|apply H]; discriminate). }
      destruct Hrun as (reason & Hn & Hrun). exists (failed None reason).
      split; [apply refusal_uniform, Hrefusal, Hn|]. left.
      split; [exact Hrun|]. split; [apply Hrefusal, Hn | exact Hcause].
    + eexists. split; [|right; exists text, o, os;
                        split; [exact Ht|]; split; [exact Ho|]; split; [exact Hv|];
                        split; [apply insertQuestion_checked; auto|]].
      * apply (reply_reports None (fun d => d) "Failed to insert question: "
                 (fun _ => "Question inserted successfully")).
      * apply (reply_reports None (fun d => d) "Failed to insert question: "
                 (fun _ => "Question inserted successfully")).
  - intros id updates log.
    assert (Hvalid : (exists u, Supabase.set_images updates = Some (Some u) /\ u <> "" /\
                                QuestionService.isValidImageUrl new_URL u = false) \/
                     (forall u, Supabase.set_images updates = Some (Some u) -> u <> "" ->
                                QuestionService.isValidImageUrl new_URL u = true)).
    { destruct (Supabase.set_images updates) as [[u|]|]; try (right; discriminate).
      destruct (QuestionService.isValidImageUrl new_URL u) eqn:Hv.
      - right. intros u' [= <-] _. exact Hv.
      - destruct u as [|c u]; [right; intros u' [= <-] Hn; congruence|].
        left. exists (String c u). repeat split; [discriminate | exact Hv]. }
    destruct Hvalid as [(u & Hi & Hn & Hv) | Hv].
    + exists (failed None "Invalid image URL format").
      split; [apply refusal_uniform, Hrefusal; discriminate|]. left.
      split; [|split; [apply Hrefusal; discriminate | now exists u]].
      now apply (updateQuestion_invalid_image new_URL supabase id updates u).
    + eexists. split; [|right; split; [exact Hv|];
                        split; [apply updateQuestion_checked; exact Hv|]].
      * apply (reply_reports None (fun d => d) "Failed to update question: "
                 (fun _ => "Question updated successfully")).
      * apply (reply_reports None (fun d => d) "Failed to update question: "
                 (fun _ => "Question updated successfully")).
  - intros imageData log.
    destruct (missing_or_supplied (ImageService.question_id imageData)) as [Hq | [qid Hq]];
      [|destruct (missing_or_supplied (ImageService.image_url imageData))
          as [Hu | [url Hu]]].
    + exists (failed None "question_id and image_url are required fields").
      split; [apply refusal_uniform, Hrefusal; discriminate|]. left.
      split; [|split; [apply Hrefusal; discriminate | now left]].
      apply insertImage_missing. left. now apply missing_truthy.
    + exists (failed None "question_id and image_url are required fields").
      split; [apply refusal_uniform, Hrefusal; discriminate|]. left.
      split; [|split; [apply Hrefusal; discriminate | now right]].
      apply insertImage_missing. right. now apply missing_truthy.
    + eexists. split; [|right; exists qid, url;
                        split; [exact Hq|]; split; [exact Hu|];
                        split; [destruct Hq, Hu; now apply insertImage_run|]].
      * apply (reply_reports None (fun d => d) "Failed to insert image: "
                 (fun _ => "Image inserted successfully")).
      * apply (reply_reports None (fun d => d) "Failed to insert image: "
                 (fun _ => "Image inserted successfully")).
Qed.

End DataAccess.

(** ** The network probe *)

Section Probe.
Import QuestionService.
Variable new_URL : string -> option URL.t.
Variable fetch : string -> RequestInit -> completion Response.

(** C7. [validateImageUrl] is false whenever [isValidImageUrl] is
    false. Otherwise, when the HEAD request resolves, the result is
    that the response is ok and its content type starts with "image/"
    or its status is 200; when the HEAD request throws, a GET request
    with the header Range: bytes=0-1023 is made and the result is
    whether that response is ok; when that request throws as well, the
    result is true. *)
Theorem validateImageUrl_probe (url : string) :
  (isValidImageUrl new_URL url = false -> validateImageUrl new_URL fetch url = false) /\
  (isValidImageUrl new_URL url = true ->
   (forall response, fetch url head_request = Normal response ->
      validateImageUrl new_URL fetch url =
        ok response &&
        (match content_type response with
         | Some contentType => startsWith contentType "image/"
         | None => false
         end || (status response =? 200))) /\
   (forall thrown, fetch url head_request = Throw thrown ->
      (forall response, fetch url range_request = Normal response ->
         validateImageUrl new_URL fetch url = ok response) /\
      (forall thrown', fetch url range_request = Throw thrown' ->
         validateImageUrl new_URL fetch url = true))) /\
  method head_request = "HEAD" /\
  method range_request = "GET" /\
  In ("Range", "bytes=0-1023") (headers range_request).
Proof.
  unfold validateImageUrl. split; [intros ->; reflexivity|].
  split; [|simpl; auto].
  intros ->. simpl. split.
  - intros response ->. reflexivity.
  - intros thrown ->. split.
    + intros response ->. reflexivity.
    + intros thrown' ->. reflexivity.
Qed.

End Probe.

Lemma validateImageUrl_probe_witness :
  QuestionService.validateImageUrl URL.parse QuestionService.offline "not a url" = false /\
  QuestionService.validateImageUrl URL.parse QuestionService.offline
    "https://images.pexels.com/photos/1/x.jpeg" = true.
Proof.
  split.
  - apply (proj1 (validateImageUrl_probe URL.parse QuestionService.offline "not a url")).
    reflexivity.
  - destruct (proj1 (proj2 (validateImageUrl_probe URL.parse QuestionService.offline
                               "https://images.pexels.com/photos/1/x.jpeg")) eq_refl)
      as [_ Hthrow].
    apply (proj2 (Hthrow (Error "Network request failed") eq_refl)
                 (Error "Network request failed")).
    reflexivity.
Defined.

(** ** The image-URL predicate *)

Section ImageUrl.
Import QuestionService.
Variable new_URL : string -> option URL.t.

Lemma prefix_refl (p : string) : String.prefix p p = true.
Proof.
  induction p as [|c p IH]; simpl; [reflexivity|].
  destruct (ascii_dec c c); [exact IH | congruence].
Qed.

Lemma prefix_iff (p s : string) :
  String.prefix p s = true <-> exists b, s = (p ++ b)%string.
Proof.
  revert s. induction p as [|c p IH]; intros s.
  - split; [intros _; now exists s | intros _; destruct s; reflexivity].
  - destruct s as [|d s]; simpl.
    + split; [discriminate | intros (b & H); discriminate].
    + destruct (ascii_dec c d) as [->|Hne].
      * rewrite IH. split; intros (b & H); exists b; congruence.
      * split; [discriminate | intros (b & H); congruence].
Qed.

(** [includes] and [endsWith] are the substring and the suffix test. *)
Lemma includes_iff (s p : string) :
  includes s p = true <-> exists a b, s = (a ++ p ++ b)%string.
Proof.
  induction s as [|c s IH]; cbn [includes].
  - rewrite orb_false_r, prefix_iff. split.
    + intros (b & H). now exists "", b.
    + intros (a & b & H). destruct a; [now exists b | discriminate].
  - rewrite orb_true_iff, prefix_iff, IH. split.
    + intros [(b & H) | (a & b & H)]; [now exists "", b | exists (String c a), b].
      simpl. now rewrite H.
    + intros (a & b & H). destruct a as [|d a]; [left; now exists b | right].
      exists a, b. simpl in H. congruence.
Qed.

Lemma endsWith_iff (s p : string) :
  endsWith s p = true <-> exists a, s = (a ++ p)%string.
Proof.
  induction s as [|c s IH]; cbn [endsWith].
  - rewrite orb_false_r, String.eqb_eq. split.
    + intros <-. now exists "".
    + intros (a & H). destruct a; [exact H | discriminate].
  - rewrite orb_true_iff, String.eqb_eq, IH. split.
    + intros [<- | (a & H)]; [now exists "" | exists (String c a)].
      simpl. now rewrite H.
    + intros (a & H). destruct a as [|d a]; [left; exact H | right].
      exists a. simpl in H. congruence.
Qed.

Lemma endsWith_includes (s p : string) : endsWith s p = true -> includes s p = true.
Proof.
  induction s as [|c s IH]; intros H.
  - destruct p; [reflexivity | discriminate H].
  - cbn [endsWith] in H. apply orb_prop in H. destruct H as [H|H].
    + apply String.eqb_eq in H. subst p. cbn [includes].
      now rewrite prefix_refl.
    + apply IH in H. cbn [includes]. rewrite H. apply orb_true_r.
Qed.

Lemma ends_in_contains (urlObj : URL.t) :
  path_ends_in_extension urlObj = true -> path_contains_extension urlObj = true.
Proof.
  unfold path_ends_in_extension, path_contains_extension.
  rewrite !existsb_exists. intros (ext & Hin & H).
  exists ext. split; [exact Hin | now apply endsWith_includes].
Qed.

(** What the function computes, in one equation. *)
Lemma isValidImageUrl_unfold (url : string) :
  isValidImageUrl new_URL url =
  truthy_string url &&
  match new_URL url with
  | Some urlObj => is_http urlObj && (path_contains_extension urlObj || other_evidence urlObj)
  | None => false
  end.
Proof.
  unfold isValidImageUrl, is_http, path_contains_extension, other_evidence.
  destruct (truthy_string url); cbn [negb andb]; [|reflexivity].
  destruct (new_URL url) as [urlObj|]; [|reflexivity].
  destruct (array_includes ["http:"; "https:"] (URL.protocol urlObj));
    cbn [negb andb]; [|reflexivity].
  now rewrite !orb_assoc.
Qed.

(** C2, as the code has it. [isValidImageUrl] returns false for a
    string that does not parse and for one whose protocol is neither
    http nor https. It returns true only for a non-empty string that
    parses with http or https and whose lower-cased path contains one of
    the extensions, or whose host contains one of the listed hosts, or
    whose lower-cased path contains "/images/", or whose query has a
    parameter "w" or "width"; and it does return true for such a string
    whenever the lower-cased path ends in one of the extensions or one
    of the other three alternatives holds. *)
Theorem isValidImageUrl_brackets (url : string) :
  (new_URL url = None -> isValidImageUrl new_URL url = false) /\
  (forall urlObj, new_URL url = Some urlObj -> is_http urlObj = false ->
     isValidImageUrl new_URL url = false) /\
  (isValidImageUrl new_URL url = true ->
     url <> "" /\
     exists urlObj, new_URL url = Some urlObj /\ is_http urlObj = true /\
       path_contains_extension urlObj || other_evidence urlObj = true) /\
  (forall urlObj, url <> "" -> new_URL url = Some urlObj -> is_http urlObj = true ->
     path_ends_in_extension urlObj || other_evidence urlObj = true ->
     isValidImageUrl new_URL url = true).
Proof.
  rewrite isValidImageUrl_unfold. repeat apply conj.
  - intros ->. apply andb_false_r.
  - intros urlObj -> ->. apply andb_false_r.
  - intros H. apply andb_prop in H. destruct H as [Hu H].
    split; [intros ->; discriminate|].
    destruct (new_URL url) as [urlObj|]; [|discriminate].
    apply andb_prop in H. destruct H as [Hp H]. exists urlObj. auto.
  - intros urlObj Hu -> -> H.
    destruct url; [congruence|]. simpl.
    apply orb_prop in H. destruct H as [H|H].
    + now rewrite (ends_in_contains _ H).
    + rewrite H. apply orb_true_r.
Qed.

End ImageUrl.

Lemma isValidImageUrl_brackets_witness :
  QuestionService.isValidImageUrl URL.parse "not a url" = false /\
  QuestionService.isValidImageUrl URL.parse "ftp://x.com/a.png" = false /\
  QuestionService.isValidImageUrl URL.parse "https://example.com/Photo.PNG" = true.
Proof.
  destruct (isValidImageUrl_brackets URL.parse "not a url") as (Hnone & _).
  destruct (isValidImageUrl_brackets URL.parse "ftp://x.com/a.png") as (_ & Hftp & _).
  destruct (isValidImageUrl_brackets URL.parse "https://example.com/Photo.PNG")
    as (_ & _ & _ & Hyes).
  split; [apply Hnone; reflexivity|].
  split; [eapply Hftp; reflexivity|].
  eapply Hyes; [discriminate | reflexivity | reflexivity | reflexivity].
Defined.

(** The characterisation in the specification's words fails in two
    ways. The path and host are compared in lower case, so a path with
    "/Images/" is accepted; and an extension is looked for anywhere in
    the path, so a path that contains ".png" without ending in it is
    accepted. *)
Lemma isValidImageUrl_not_as_specified :
  QuestionService.isValidImageUrl URL.parse "https://example.com/Images/photo" = true /\
  ~ QuestionService.isValidImageUrl_as_specified URL.parse "https://example.com/Images/photo" /\
  QuestionService.isValidImageUrl URL.parse "https://example.com/a.png/b" = true /\
  ~ QuestionService.isValidImageUrl_as_specified URL.parse "https://example.com/a.png/b".
Proof.
  repeat split; try reflexivity; intros H; vm_compute in H; discriminate H.
Qed.

(** C9. On the three inputs of the specification: a string that is not
    a URL is rejected, an https URL on images.pexels.com ending in .jpeg
    is accepted, and an ftp URL is rejected. *)
Theorem isValidImageUrl_examples :
  QuestionService.isValidImageUrl URL.parse "not a url" = false /\
  QuestionService.isValidImageUrl URL.parse "https://images.pexels.com/photos/1/x.jpeg" = true /\
  QuestionService.isValidImageUrl URL.parse "ftp://x.com/a.png" = false.
Proof. repeat split; reflexivity. Qed.

(** The three answers do not depend on more of the URL constructor than
    this: it throws on the first input, and it reports the protocol and
    the path of the other two as written. *)
Lemma three_inputs_for_any_constructor (new_URL : string -> option URL.t) :
  new_URL "not a url" = None ->
  (forall urlObj, new_URL "https://images.pexels.com/photos/1/x.jpeg" = Some urlObj ->
     URL.protocol urlObj = "https:" /\ URL.pathname urlObj = "/photos/1/x.jpeg") ->
  (forall urlObj, new_URL "ftp://x.com/a.png" = Some urlObj ->
     URL.protocol urlObj = "ftp:") ->
  new_URL "https://images.pexels.com/photos/1/x.jpeg" <> None ->
  QuestionService.isValidImageUrl new_URL "not a url" = false /\
  QuestionService.isValidImageUrl new_URL "https://images.pexels.com/photos/1/x.jpeg" = true /\
  QuestionService.isValidImageUrl new_URL "ftp://x.com/a.png" = false.
Proof.
  intros Hnone Hpexels Hftp Hparses. rewrite !isValidImageUrl_unfold.
  repeat split.
  - now rewrite Hnone.
  - destruct (new_URL "https://images.pexels.com/photos/1/x.jpeg") as [urlObj|];
      [|congruence].
    destruct (Hpexels urlObj eq_refl) as [Hp Hpath].
    unfold QuestionService.is_http, QuestionService.path_contains_extension.
    rewrite Hp, Hpath. reflexivity.
  - destruct (new_URL "ftp://x.com/a.png") as [urlObj|]; [|reflexivity].
    unfold QuestionService.is_http. now rewrite (Hftp urlObj eq_refl).
Qed.

(** * Part III: further properties of the code *)

(** ** Test screen: navigation, answers and scoring *)

Section TestScreenMore.
Import TestScreen TestScreenFacts.
Variable supabase : Supabase.client.

Lemma state_eta (st : state) :
  {| questions := questions st; currentQuestionIndex := currentQuestionIndex st;
     answers := answers st; loading := loading st; testSession := testSession st |} = st.
Proof. destruct st; reflexivity. Qed.

Lemma previous_after_next (st : state) :
  0 <= currentQuestionIndex st < Z.of_nat (List.length (questions st)) - 1 ->
  currentQuestionIndex (handleNext st) = currentQuestionIndex st + 1 /\
  handlePrevious (handleNext st) = st.
Proof.
  intros H. unfold handleNext.
  destruct (Z.ltb_spec (currentQuestionIndex st)
              (Z.of_nat (List.length (questions st)) - 1)); [|lia].
  split; [reflexivity|]. unfold handlePrevious.
  cbn [setCurrentQuestionIndex currentQuestionIndex].
  destruct (Z.ltb_spec 0 (currentQuestionIndex st + 1)); [|lia].
  unfold setCurrentQuestionIndex. cbn.
  replace (currentQuestionIndex st + 1 - 1) with (currentQuestionIndex st) by lia.
  apply state_eta.
Qed.

Lemma next_after_previous (st : state) :
  0 < currentQuestionIndex st < Z.of_nat (List.length (questions st)) ->
  currentQuestionIndex (handlePrevious st) = currentQuestionIndex st - 1 /\
  handleNext (handlePrevious st) = st.
Proof.
  intros H. unfold handlePrevious.
  destruct (Z.ltb_spec 0 (currentQuestionIndex st)); [|lia].
  split; [reflexivity|]. unfold handleNext.
  cbn [setCurrentQuestionIndex currentQuestionIndex questions].
  destruct (Z.ltb_spec (currentQuestionIndex st - 1)
              (Z.of_nat (List.length (questions st)) - 1)); [|lia].
  unfold setCurrentQuestionIndex. cbn.
  replace (currentQuestionIndex st - 1 + 1) with (currentQuestionIndex st) by lia.
  apply state_eta.
Qed.

(** The next and previous buttons move the position by one inside the
    question list and stop at its ends; each undoes the other; neither
    touches the questions, the answers or the session. *)
Theorem navigation_stays_in_range (st : state) :
  in_range st ->
  in_range (handleNext st) /\ in_range (handlePrevious st) /\
  (currentQuestionIndex st = Z.of_nat (List.length (questions st)) - 1 ->
   handleNext st = st) /\
  (currentQuestionIndex st = 0 -> handlePrevious st = st) /\
  (currentQuestionIndex st < Z.of_nat (List.length (questions st)) - 1 ->
   currentQuestionIndex (handleNext st) = currentQuestionIndex st + 1 /\
   handlePrevious (handleNext st) = st) /\
  (0 < currentQuestionIndex st ->
   currentQuestionIndex (handlePrevious st) = currentQuestionIndex st - 1 /\
   handleNext (handlePrevious st) = st) /\
  answers (handleNext st) = answers st /\ answers (handlePrevious st) = answers st /\
  testSession (handleNext st) = testSession st /\
  testSession (handlePrevious st) = testSession st.
Proof.
  unfold in_range. intros H.
  split; [|split; [|split; [|split; [|split; [|split]]]]].
  - unfold handleNext.
    destruct (Z.ltb_spec (currentQuestionIndex st)
                (Z.of_nat (List.length (questions st)) - 1)); cbn; lia.
  - unfold handlePrevious.
    destruct (Z.ltb_spec 0 (currentQuestionIndex st)); cbn; lia.
  - intros Hq. unfold handleNext. rewrite Hq. now rewrite Z.ltb_irrefl.
  - intros Hq. unfold handlePrevious. rewrite Hq. reflexivity.
  - intros Hq. apply previous_after_next. lia.
  - intros Hq. apply next_after_previous. lia.
  - unfold handleNext, handlePrevious.
    destruct (Z.ltb_spec (currentQuestionIndex st)
                (Z.of_nat (List.length (questions st)) - 1));
      destruct (Z.ltb_spec 0 (currentQuestionIndex st)); repeat split.
Qed.

Lemma nth_error_array_set (a : list answer) (i j : nat) (v : answer) :
  (i < List.length a)%nat ->
  nth_error (array_set a i v) j = if Nat.eqb j i then Some v else nth_error a j.
Proof.
  revert i j. induction a as [|x a IH]; intros [|i] [|j] H; simpl in *;
    try lia; try reflexivity.
  apply IH. lia.
Qed.

Lemma spread_without_holes (a : list answer) : ~ In hole a -> spread a = a.
Proof.
  induction a as [|x a IH]; intros H; [reflexivity|]. simpl.
  rewrite IH by (intros Hin; apply H; now right).
  destruct x; try reflexivity. exfalso. apply H. now left.
Qed.

(** Selecting an option writes it at the current position and nowhere
    else: the array keeps its length and every other answer, and the
    questions, the position and the session stay as they are. *)
Theorem select_overwrites_current_only (optionIndex : Z) (st : state) :
  0 <= currentQuestionIndex st < Z.of_nat (List.length (answers st)) ->
  ~ In hole (answers st) ->
  List.length (answers (handleAnswerSelect optionIndex st)) = List.length (answers st) /\
  nth_error (answers (handleAnswerSelect optionIndex st))
            (Z.to_nat (currentQuestionIndex st)) = Some (selected optionIndex) /\
  (forall j, j <> Z.to_nat (currentQuestionIndex st) ->
     nth_error (answers (handleAnswerSelect optionIndex st)) j = nth_error (answers st) j) /\
  questions (handleAnswerSelect optionIndex st) = questions st /\
  currentQuestionIndex (handleAnswerSelect optionIndex st) = currentQuestionIndex st /\
  testSession (handleAnswerSelect optionIndex st) = testSession st.
Proof.
  intros Hi Hd. unfold handleAnswerSelect. simpl.
  rewrite (spread_without_holes _ Hd).
  assert (Hlt : (Z.to_nat (currentQuestionIndex st) < List.length (answers st))%nat) by lia.
  repeat apply conj; try reflexivity.
  - now apply array_set_length.
  - rewrite nth_error_array_set by exact Hlt. now rewrite Nat.eqb_refl.
  - intros j Hj. rewrite nth_error_array_set by exact Hlt.
    apply Nat.eqb_neq in Hj. now rewrite Hj.
Qed.

End TestScreenMore.

Lemma navigation_stays_in_range_witness :
  let st := fst (TestScreen.run Supabase.unreachable (TestScreen.sample_run hi)) in
  TestScreenFacts.in_range st /\
  TestScreenFacts.in_range (TestScreen.handleNext st) /\
  TestScreen.handleNext st = st /\
  TestScreen.handleNext (TestScreen.handlePrevious st) = st.
Proof.
  intros st.
  assert (Hr : TestScreenFacts.in_range st) by (unfold TestScreenFacts.in_range; simpl; lia).
  destruct (navigation_stays_in_range st Hr) as (Hn & _ & Hlast & _ & _ & Hback & _).
  split; [exact Hr|]. split; [exact Hn|]. split; [apply Hlast; reflexivity|].
  apply Hback. reflexivity.
Defined.

Lemma select_overwrites_current_only_witness :
  let st := fst (TestScreen.run Supabase.unreachable (TestScreen.sample_run hi)) in
  nth_error (TestScreen.answers (TestScreen.handleAnswerSelect 3 st)) 2 = Some (selected 3) /\
  nth_error (TestScreen.answers (TestScreen.handleAnswerSelect 3 st)) 0 =
    nth_error (TestScreen.answers st) 0.
Proof.
  intros st.
  assert (Hi : 0 <= TestScreen.currentQuestionIndex st
               < Z.of_nat (List.length (TestScreen.answers st))) by (simpl; lia).
  assert (Hd : ~ In hole (TestScreen.answers st))
    by (simpl; intros [H|[H|[H|[]]]]; discriminate H).
  destruct (select_overwrites_current_only 3 st Hi Hd) as (_ & Hcur & Hother & _).
  split; [exact Hcur|]. apply Hother. discriminate.
Defined.

Section TestScreenScoring.
Import TestScreen TestScreenFacts.
Variable supabase : Supabase.client.

Lemma filter_none {A} (f : A -> bool) (l : list A) :
  (forall x, In x l -> f x = false) -> filter f l = [].
Proof.
  induction l as [|x l IH]; intros H; [reflexivity|]. simpl.
  rewrite (H x) by now left. apply IH. intros y Hy. apply H. now right.
Qed.

Lemma matching_positions_nil_l (a : list answer) : matching_positions [] a = 0.
Proof.
  unfold matching_positions. rewrite filter_none; [reflexivity|].
  intros i _. destruct (nth_error a i); [|reflexivity]. now destruct i.
Qed.

Lemma matching_positions_cons (q : Question.t) (qs : list Question.t)
    (x : answer) (a : list answer) :
  matching_positions (q :: qs) (x :: a) =
  (if is_correct x q then 1 else 0) + matching_positions qs a.
Proof.
  unfold matching_positions.
  change (seq 0 (List.length (x :: a))) with (0%nat :: seq 1 (List.length a)).
  rewrite <- seq_shift. cbn [filter nth_error].
  rewrite filter_map_swap.
  rewrite (filter_ext _ (fun i => match nth_error a i, nth_error qs i with
                                  | Some y, Some q' => is_correct y q'
                                  | _, _ => false
                                  end)) by reflexivity.
  destruct (is_correct x q); cbn [List.length]; rewrite length_map; lia.
Qed.

Lemma matching_positions_tally (qs : list Question.t) (a : list answer) :
  matching_positions qs a = tally qs a.
Proof.
  revert a. induction qs as [|q qs IH]; intros a.
  - apply matching_positions_nil_l.
  - destruct a as [|x a]; [reflexivity|].
    rewrite matching_positions_cons, IH. reflexivity.
Qed.

Lemma tally_bounds (qs : list Question.t) (a : list answer) :
  0 <= tally qs a <= Z.of_nat (List.length qs).
Proof.
  revert a. induction qs as [|q qs IH]; intros [|x a]; simpl; try lia.
  specialize (IH a). destruct (is_correct x q); lia.
Qed.

Lemma tally_zero (qs : list Question.t) (a : list answer) :
  tally qs a = 0 <-> forall i, correct_at qs a i = false.
Proof.
  revert a. induction qs as [|q qs IH]; intros [|x a]; simpl.
  - split; [intros _ [|i]; reflexivity | reflexivity].
  - split; [intros _ i; unfold correct_at | reflexivity].
    destruct (nth_error (x :: a) i); [|reflexivity]. now destruct i.
  - split; [intros _ [|i]; reflexivity | reflexivity].
  - pose proof (tally_bounds qs a) as Hb. split.
    + intros H [|i]; unfold correct_at; simpl.
      * destruct (is_correct x q); [lia | reflexivity].
      * apply (proj1 (IH a)). destruct (is_correct x q); lia.
    + intros H. pose proof (H 0%nat) as H0. unfold correct_at in H0. simpl in H0.
      rewrite H0. apply (proj2 (IH a)). intros i. exact (H (S i)).
Qed.

Lemma tally_full (qs : list Question.t) (a : list answer) :
  List.length a = List.length qs ->
  (tally qs a = Z.of_nat (List.length qs) <->
   forall i, (i < List.length qs)%nat -> correct_at qs a i = true).
Proof.
  revert a. induction qs as [|q qs IH]; intros [|x a] Hlen; simpl in Hlen; try lia.
  - simpl. split; [intros _ i Hi; lia | reflexivity].
  - pose proof (tally_bounds qs a) as Hb.
    cbn [tally List.length]. split.
    + intros H [|i] Hi; unfold correct_at; simpl.
      * destruct (is_correct x q); [reflexivity | lia].
      * apply (proj1 (IH a ltac:(lia))); [|lia]. destruct (is_correct x q); lia.
    + intros H. pose proof (H 0%nat ltac:(lia)) as H0. unfold correct_at in H0.
      simpl in H0. rewrite H0.
      rewrite (proj2 (IH a ltac:(lia))); [lia|].
      intros i Hi. apply (H (S i)). lia.
Qed.

(** The score that submit computes over aligned arrays is 0 exactly
    when no position holds the correct answer, and is the number of
    questions exactly when every position does. *)
Theorem score_extremes (qs : list Question.t) (a : list answer) :
  List.length a = List.length qs ->
  exists score,
    reduce_score qs a 0 0 = Normal score /\
    0 <= score <= Z.of_nat (List.length qs) /\
    (score = 0 <-> forall i, correct_at qs a i = false) /\
    (score = Z.of_nat (List.length qs) <->
     forall i, (i < List.length qs)%nat -> correct_at qs a i = true).
Proof.
  intros Hlen. exists (tally qs a).
  split; [rewrite (reduce_score_matching qs a Hlen); f_equal;
          apply matching_positions_tally|].
  split; [apply tally_bounds|]. split; [apply tally_zero | now apply tally_full].
Qed.

Lemma tally_array_set (qs : list Question.t) (a : list answer) (i : nat)
    (q : Question.t) (old v : answer) :
  nth_error qs i = Some q -> nth_error a i = Some old ->
  tally qs (array_set a i v) =
  tally qs a - (if is_correct old q then 1 else 0) + (if is_correct v q then 1 else 0).
Proof.
  revert a i. induction qs as [|q' qs IH]; intros [|x a] [|i] Hq Ha;
    simpl in *; try discriminate.
  - injection Hq as ->. injection Ha as ->. lia.
  - rewrite (IH a i Hq Ha). lia.
Qed.

(** Selecting an option changes the score that submit would compute by
    what the current question gains or loses: one more if the new
    option is the correct one, one less if the old answer was. *)
Theorem select_changes_score_by_current (optionIndex : Z) (st : state)
    (q : Question.t) (old : answer) (score : Z) :
  List.length (answers st) = List.length (questions st) ->
  ~ In hole (answers st) ->
  0 <= currentQuestionIndex st ->
  nth_error (questions st) (Z.to_nat (currentQuestionIndex st)) = Some q ->
  nth_error (answers st) (Z.to_nat (currentQuestionIndex st)) = Some old ->
  reduce_score (questions st) (answers st) 0 0 = Normal score ->
  reduce_score (questions st) (answers (handleAnswerSelect optionIndex st)) 0 0 =
  Normal (score - (if is_correct old q then 1 else 0)
                + (if optionIndex =? Question.correct_answer q then 1 else 0)).
Proof.
  intros Hlen Hd Hi Hq Ha Hs.
  rewrite (reduce_score_matching _ _ Hlen) in Hs. injection Hs as <-.
  assert (Hlt : (Z.to_nat (currentQuestionIndex st) < List.length (answers st))%nat)
    by (apply nth_error_Some; congruence).
  unfold handleAnswerSelect. cbn [answers].
  rewrite (spread_without_holes _ Hd).
  rewrite reduce_score_matching by (rewrite array_set_length; assumption).
  rewrite !matching_positions_tally.
  rewrite (tally_array_set _ _ _ q old (selected optionIndex) Hq Ha). reflexivity.
Qed.

End TestScreenScoring.

Lemma score_extremes_witness :
  exists score,
    TestScreen.reduce_score (TestScreen.sampleQuestions en TestScreen.noon)
      [selected 1; selected 1; selected 2] 0 0 = Normal score /\
    0 <= score <= 3 /\
    (score = 0 <-> forall i, TestScreenFacts.correct_at
                      (TestScreen.sampleQuestions en TestScreen.noon)
                      [selected 1; selected 1; selected 2] i = false) /\
    (score = 3 <-> forall i, (i < 3)%nat ->
                   TestScreenFacts.correct_at
                      (TestScreen.sampleQuestions en TestScreen.noon)
                      [selected 1; selected 1; selected 2] i = true).
Proof.
  exact (score_extremes (TestScreen.sampleQuestions en TestScreen.noon)
           [selected 1; selected 1; selected 2] eq_refl).
Defined.

Lemma select_changes_score_by_current_witness :
  let st := fst (TestScreen.run Supabase.unreachable (TestScreen.sample_run hi)) in
  TestScreen.reduce_score (TestScreen.questions st)
    (TestScreen.answers (TestScreen.handleAnswerSelect 3 st)) 0 0 = Normal 1.
Proof.
  intros st.
  assert (Hq : exists q, nth_error (TestScreen.questions st) 2 = Some q /\
                         Question.correct_answer q = 2)
    by (eexists; split; reflexivity).
  destruct Hq as (q & Hq & Hc).
  assert (Hd : ~ In hole (TestScreen.answers st))
    by (simpl; intros [H|[H|[H|[]]]]; discriminate H).
  pose proof (select_changes_score_by_current 3 st q (selected 2) 2
                eq_refl Hd ltac:(simpl; lia) Hq eq_refl eq_refl) as H.
  cbn [TestScreen.is_correct] in H. rewrite Hc in H. exact H.
Defined.

Section TestScreenReachable.
Import TestScreen TestScreenFacts.
Variable supabase : Supabase.client.

Lemma offered_answer_not_hole (q : option Question.t) (a : answer) :
  offered_answer q a -> a <> hole.
Proof. intros [->|(k & q' & -> & _)]; discriminate. Qed.

Lemma answers_offered_no_hole (st : state) : answers_offered st -> ~ In hole (answers st).
Proof.
  intros [_ H] Hin. apply In_nth_error in Hin. destruct Hin as (i & Hi).
  now apply (offered_answer_not_hole _ _ (H i hole Hi)).
Qed.

Lemma nth_error_repeat_null (n i : nat) (a : answer) :
  nth_error (repeat null n) i = Some a -> a = null.
Proof.
  intros H. apply nth_error_In in H. now apply repeat_spec in H.
Qed.

Lemma handle_answers_offered (e : event) (st : state) (log : list Supabase.query) :
  answers_offered st /\ 0 <= currentQuestionIndex st ->
  offered st e = true ->
  answers_offered (fst (handle supabase e st log)) /\
  0 <= currentQuestionIndex (fst (handle supabase e st log)).
Proof.
  intros [Ha Hi] He. destruct e as [language date|optionIndex| | |date]; simpl.
  - destruct (loadQuestions_run supabase language date st log) as (qs & -> & _).
    simpl. split; [|exact Hi]. split; simpl.
    + apply repeat_length.
    + intros i a H. left. exact (nth_error_repeat_null _ _ _ H).
  - split; [|exact Hi].
    simpl in He. apply andb_prop in He. destruct He as [_ He].
    unfold currentQuestion in He.
    destruct (currentQuestionIndex st <? 0); [discriminate|].
    destruct (nth_error (questions st) (Z.to_nat (currentQuestionIndex st)))
      as [q|] eqn:Hq; [|discriminate].
    apply andb_prop in He. destruct He as [Hlo Hhi].
    apply Z.leb_le in Hlo. apply Z.ltb_lt in Hhi.
    pose proof (answers_offered_no_hole st Ha) as Hd.
    destruct Ha as [Hlen Hall].
    assert (Hlt : (Z.to_nat (currentQuestionIndex st) < List.length (answers st))%nat)
      by (rewrite Hlen; apply nth_error_Some; congruence).
    unfold handleAnswerSelect. split; cbn [answers questions].
    + rewrite (spread_without_holes _ Hd). now rewrite array_set_length.
    + intros i a. rewrite (spread_without_holes _ Hd).
      rewrite nth_error_array_set by exact Hlt.
      destruct (Nat.eqb_spec i (Z.to_nat (currentQuestionIndex st))) as [->|Hne].
      * intros [= <-]. right. exists optionIndex, q. auto.
      * apply Hall.
  - unfold handleNext.
    destruct (Z.ltb_spec (currentQuestionIndex st)
                (Z.of_nat (List.length (questions st)) - 1));
      (split; [exact Ha | cbn; lia]).
  - unfold handlePrevious.
    destruct (Z.ltb_spec 0 (currentQuestionIndex st));
      (split; [exact Ha | cbn; lia]).
  - split; assumption.
Qed.

(** However the user gets there (loading, reloading in another language,
    selecting, moving, submitting), the answers array has one entry per
    question, and each entry is either unset or the index of an option
    of the question at the same position; the position is never
    negative. *)
Theorem reachable_answers_are_offered (st : state) (log : list Supabase.query) :
  reachable supabase st log ->
  answers_offered st /\ 0 <= currentQuestionIndex st.
Proof.
  induction 1 as [|st log e _ IH He].
  - split; [split|]; simpl; [reflexivity| |lia]. intros [|i] a H; discriminate H.
  - now apply handle_answers_offered.
Qed.

(** Loading never fails and never writes: it issues one read of the
    questions and ends with loading off, a non-empty question list, all
    answers unset and a fresh session over those questions with score 0
    and no completion time. It keeps the position where it was. *)
Theorem load_restarts_session (language : Language) (date : instant) (st : state)
    (log : list Supabase.query) :
  exists st' session,
    loadQuestions supabase language date st log =
      (Normal st', log ++ [Supabase.questions_select (language_code language) 10]) /\
    questions st' <> [] /\
    answers st' = repeat null (List.length (questions st')) /\
    loading st' = false /\
    currentQuestionIndex st' = currentQuestionIndex st /\
    testSession st' = Some session /\
    TestSession.language session = language /\
    TestSession.questions session = map Question.id (questions st') /\
    TestSession.answers session = repeat null (List.length (questions st')) /\
    TestSession.score session = 0 /\
    TestSession.total_questions session = Z.of_nat (List.length (questions st')) /\
    TestSession.completed_at session = None.
Proof.
  destruct (loadQuestions_run supabase language date st log) as (qs & -> & Hne).
  do 2 eexists. split; [reflexivity|]. simpl. repeat split; assumption.
Qed.

Lemma reduce_score_orphan (qs : list Question.t) (a : list answer) :
  forall index total,
    (exists i x, nth_error a i = Some x /\ x <> hole /\
                 (List.length qs <= index + i)%nat) ->
    reduce_score qs a index total =
    Throw (Error "Cannot read properties of undefined (reading 'correct_answer')").
Proof.
  induction a as [|y a IH]; intros index total (i & x & Hx & Hh & Hi).
  - destruct i; discriminate Hx.
  - destruct i as [|i].
    + injection Hx as ->. rewrite Nat.add_0_r in Hi.
      apply nth_error_None in Hi. simpl. rewrite Hi. destruct x; congruence.
    + assert (Hrec : forall total', reduce_score qs a (S index) total' =
                       Throw (Error "Cannot read properties of undefined (reading 'correct_answer')")).
      { intros total'. apply IH. exists i, x. repeat split; auto. lia. }
      simpl. destruct y; try apply Hrec;
        destruct (nth_error qs index); try reflexivity; apply Hrec.
Qed.

Lemma nth_error_array_set_same (a : list answer) (i : nat) (v : answer) :
  nth_error (array_set a i v) i = Some v.
Proof.
  revert a. induction i as [|i IH]; intros [|x a]; simpl; try reflexivity; apply IH.
Qed.

Lemma handleSubmit_orphan (date : instant) (st : state)
    (log : list Supabase.query) (session : TestSession.t) :
  testSession st = Some session ->
  (exists i x, nth_error (answers st) i = Some x /\ x <> hole /\
               (List.length (questions st) <= i)%nat) ->
  handleSubmit supabase date st log =
  (Throw (Error "Cannot read properties of undefined (reading 'correct_answer')"), log).
Proof.
  intros Hs Ho. unfold handleSubmit. rewrite Hs. unfold bind.
  rewrite (reduce_score_orphan _ _ 0%nat 0 Ho). reflexivity.
Qed.

(** An answer without a question makes submit fail before anything is
    sent: when some entry of the answers array that is not a hole lies
    beyond the question list, the handler throws a TypeError, stores no
    session and does not navigate. Selecting an option while the
    position is beyond the question list produces such an entry. *)
Theorem submit_throws_on_orphan_answer (date : instant) (st : state)
    (log : list Supabase.query) (session : TestSession.t) :
  testSession st = Some session ->
  ((exists i x, nth_error (answers st) i = Some x /\ x <> hole /\
                (List.length (questions st) <= i)%nat) ->
   handleSubmit supabase date st log =
   (Throw (Error "Cannot read properties of undefined (reading 'correct_answer')"), log)) /\
  (forall optionIndex,
     Z.of_nat (List.length (questions st)) <= currentQuestionIndex st ->
     handleSubmit supabase date (handleAnswerSelect optionIndex st) log =
     (Throw (Error "Cannot read properties of undefined (reading 'correct_answer')"), log)).
Proof.
  intros Hs. split; [apply (handleSubmit_orphan date st log session Hs)|].
  intros optionIndex Hi.
  apply (handleSubmit_orphan date (handleAnswerSelect optionIndex st) log session Hs).
  exists (Z.to_nat (currentQuestionIndex st)), (selected optionIndex).
  split; [apply nth_error_array_set_same|]. split; [discriminate | simpl; lia].
Qed.

End TestScreenReachable.

Section SubmitWithoutBackend.
Import TestScreen.

(** What submit returns does not depend on the backend: the same state
    gives the same navigation (or the same failure) whether the save
    succeeds, is refused or cannot be sent; and submit sends at most one
    request, the insertion of a session. *)
Theorem submit_ignores_backend (supabase supabase' : Supabase.client) (date : instant)
    (st : state) (log : list Supabase.query) :
  fst (handleSubmit supabase date st log) = fst (handleSubmit supabase' date st log) /\
  (snd (handleSubmit supabase date st log) = log \/
   exists completed,
     snd (handleSubmit supabase date st log) =
       log ++ [Supabase.test_sessions_insert completed] /\
     fst (handleSubmit supabase date st log) <> Normal None /\
     TestSession.answers completed = answers st).
Proof.
  unfold handleSubmit. destruct (testSession st) as [session|]; [|split; auto].
  unfold bind, try_catch, request, ret.
  destruct (reduce_score (questions st) (answers st) 0 0) as [score|t]; [|split; auto].
  split.
  - destruct (Supabase.on_test_sessions_insert supabase _),
             (Supabase.on_test_sessions_insert supabase' _); reflexivity.
  - right. eexists.
    destruct (Supabase.on_test_sessions_insert supabase _);
      (split; [reflexivity | split; [discriminate | reflexivity]]).
Qed.

End SubmitWithoutBackend.

Lemma reachable_answers_are_offered_witness :
  let st := fst (TestScreen.run Supabase.unreachable (TestScreen.sample_run hi)) in
  TestScreenFacts.answers_offered st /\ 0 <= TestScreen.currentQuestionIndex st.
Proof.
  intros st.
  apply (reachable_answers_are_offered Supabase.unreachable st
           (snd (TestScreen.run Supabase.unreachable (TestScreen.sample_run hi)))).
  apply run_reachable. reflexivity.
Defined.

Lemma submit_throws_on_orphan_answer_witness :
  let st := TestScreen.setCurrentQuestionIndex 5
              (fst (TestScreen.run Supabase.unreachable (TestScreen.sample_run hi))) in
  TestScreen.handleSubmit Supabase.empty TestScreen.noon
    (TestScreen.handleAnswerSelect 1 st) [] =
  (Throw (Error "Cannot read properties of undefined (reading 'correct_answer')"), []).
Proof.
  intros st.
  assert (Hs : exists session, TestScreen.testSession st = Some session)
    by (eexists; reflexivity).
  destruct Hs as (session & Hs).
  apply (proj2 (submit_throws_on_orphan_answer Supabase.empty TestScreen.noon st []
                  session Hs)).
  simpl. lia.
Defined.

(** ** Results screen: bands and small sessions *)

Section ResultsMore.
Import Results.

(** Colour and message always belong to the same band, and to exactly
    one: every number, NaN included, is shown in one band only. *)
Theorem every_percentage_has_one_band (p : number) :
  exists b, shown_as p b /\ forall b', shown_as p b' -> b' = b.
Proof.
  unfold shown_as, getScoreColor, getScoreMessage.
  destruct (ge p (of_Z 80)) eqn:E80; [|destruct (ge p (of_Z 60)) eqn:E60].
  - exists excellent. split; [split; [reflexivity | intros []; reflexivity]|].
    intros [] [H _]; try reflexivity; discriminate H.
  - exists good. split; [split; [reflexivity | intros []; reflexivity]|].
    intros [] [H _]; try reflexivity; discriminate H.
  - exists keep_practicing. split; [split; [reflexivity | intros []; reflexivity]|].
    intros [] [H _]; try reflexivity; discriminate H.
Qed.

Lemma nearest_percent_range (score total : Z) :
  0 <= score <= total -> 0 < total < 40 ->
  0 <= nearest_percent score total <= 100 /\
  (nearest_percent score total = 0 <-> score = 0) /\
  (nearest_percent score total = 100 <-> score = total).
Proof.
  intros Hs Ht.
  assert (H : forallb (fun st => let n := nearest_percent (fst st) (snd st) in
                         (0 <=? n) && (n <=? 100)
                         && Bool.eqb (n =? 0) (fst st =? 0)
                         && Bool.eqb (n =? 100) (fst st =? snd st))
                      (sessions_below 40) = true) by (vm_compute; reflexivity).
  rewrite forallb_forall in H.
  specialize (H _ (sessions_below_complete 40 score total Hs Ht)). cbn [fst snd] in H.
  apply andb_prop in H. destruct H as [H H100].
  apply andb_prop in H. destruct H as [H H0].
  apply andb_prop in H. destruct H as [Hlo Hhi].
  apply Z.leb_le in Hlo, Hhi. apply Bool.eqb_prop in H0, H100.
  split; [lia|]. split; rewrite <- !Z.eqb_eq; [now rewrite H0 | now rewrite H100].
Qed.

Lemma ge_of_Z_upto_100 (a b : Z) :
  0 <= a <= b -> b <= 100 -> ge (of_Z b) (of_Z a) = true.
Proof.
  intros Ha Hb.
  assert (H : forallb (fun x => forallb (fun y =>
                 implb (x <=? y)%nat (ge (of_Z (Z.of_nat y)) (of_Z (Z.of_nat x))))
                 (seq 0 101)) (seq 0 101) = true) by (vm_compute; reflexivity).
  rewrite forallb_forall in H.
  specialize (H (Z.to_nat a) ltac:(apply in_seq; lia)).
  rewrite forallb_forall in H.
  specialize (H (Z.to_nat b) ltac:(apply in_seq; lia)).
  rewrite !Z2Nat.id in H by lia.
  destruct (Nat.leb_spec (Z.to_nat a) (Z.to_nat b)); [exact H | lia].
Qed.

(** For a session of fewer than 40 questions the percentage is a whole
    number between 0 and 100; it is 0 only when nothing is correct and
    100 only when everything is; and a higher score never gives a lower
    percentage. *)
Theorem small_session_percentage (score total : Z) :
  0 <= score <= total -> 0 < total < 40 ->
  (exists n,
     percentage (of_Z score) (of_Z total) = of_Z n /\
     0 <= n <= 100 /\
     (n = 0 <-> score = 0) /\
     (n = 100 <-> score = total)) /\
  forall score',
    score <= score' <= total ->
    ge (percentage (of_Z score') (of_Z total))
       (percentage (of_Z score) (of_Z total)) = true.
Proof.
  intros Hs Ht. split.
  - exists (nearest_percent score total).
    split; [now apply percentage_exact_below_40|].
    now apply nearest_percent_range.
  - intros score' Hs'.
    rewrite !percentage_exact_below_40 by lia.
    destruct (nearest_percent_range score total Hs Ht) as [Hn _].
    destruct (nearest_percent_range score' total ltac:(lia) Ht) as [Hn' _].
    apply ge_of_Z_upto_100; [|lia]. split; [lia|].
    unfold nearest_percent. apply Z.div_le_mono; lia.
Qed.

End ResultsMore.

Lemma small_session_percentage_witness :
  (exists n,
     Results.percentage (of_Z 2) (of_Z 3) = of_Z n /\
     0 <= n <= 100 /\ (n = 0 <-> 2 = 0) /\ (n = 100 <-> 2 = 3)) /\
  forall score',
    2 <= score' <= 3 ->
    ge (Results.percentage (of_Z score') (of_Z 3))
       (Results.percentage (of_Z 2) (of_Z 3)) = true.
Proof.
  apply (small_session_percentage 2 3); lia.
Defined.

(** ** Services: reads, rows sent, sample insertions *)

Section ServicesMore.
Import ServiceFacts.
Variable new_URL : string -> option URL.t.
Variable supabase : Supabase.client.

Lemma length_or_0_rows {A} (d : option (list A)) :
  length_or_0 d = toString (Z.of_nat (List.length (rows_of d))).
Proof. destruct d; reflexivity. Qed.

Lemma read_envelope_facts {R} (reply : completion (Supabase.response (list R)))
    (failure noun : string) :
  let e := match reply with
           | Normal r =>
               match Supabase.error r with
               | Some err => failed [] (failure ++ Supabase.message err)
               | None => succeeded (rows_of (Supabase.data r))
                           ("Found " ++ length_or_0 (Supabase.data r) ++ noun)
               end
           | Throw t => failed [] (error_message t)
           end in
  (success e = true <-> answered reply) /\
  (success e = false -> data e = []) /\
  (forall r, reply = Normal r -> Supabase.error r = None ->
     data e = rows_of (Supabase.data r) /\
     message e = Some ("Found " ++ toString (Z.of_nat (List.length (data e))) ++ noun)%string).
Proof.
  unfold answered. destruct reply as [r|t]; [destruct (Supabase.error r) eqn:Ee|];
    cbv zeta; unfold succeeded, failed; cbn [success data message error].
  - split; [split; [discriminate | intros (r' & [= <-] & H); congruence]|].
    split; [reflexivity | intros r' [= <-] H; congruence].
  - split; [split; [intros _; now exists r | reflexivity]|].
    split; [discriminate|]. intros r' [= <-] _.
    split; [reflexivity | now rewrite length_or_0_rows].
  - split; [split; [discriminate | intros (r' & H & _); discriminate H]|].
    split; [reflexivity | intros r' H; discriminate H].
Qed.

(** The two reads issue exactly one select and report success exactly
    when the backend answered without an error. On success the data are
    the backend's rows as they came (all of them, in their order; a null
    result is the empty list) and the message counts those rows; on
    failure the data are empty. *)
Theorem reads_return_backend_rows :
  (forall language limit log,
     exists e,
       QuestionService.getQuestionsByLanguage supabase language limit log =
         (Normal e, log ++ [Supabase.questions_select language limit]) /\
       (success e = true <->
        answered (Supabase.on_questions_select supabase language limit)) /\
       (success e = false -> data e = []) /\
       (forall r, Supabase.on_questions_select supabase language limit = Normal r ->
          Supabase.error r = None ->
          data e = rows_of (Supabase.data r) /\
          message e = Some ("Found " ++ toString (Z.of_nat (List.length (data e)))
                                     ++ " questions")%string)) /\
  (forall questionId log,
     exists e,
       ImageService.getImagesByQuestionId supabase questionId log =
         (Normal e, log ++ [Supabase.images_select questionId]) /\
       (success e = true <-> answered (Supabase.on_images_select supabase questionId)) /\
       (success e = false -> data e = []) /\
       (forall r, Supabase.on_images_select supabase questionId = Normal r ->
          Supabase.error r = None ->
          data e = rows_of (Supabase.data r) /\
          message e = Some ("Found " ++ toString (Z.of_nat (List.length (data e)))
                                     ++ " images")%string)).
Proof.
  split.
  - intros language limit log. eexists.
    split; [apply getQuestionsByLanguage_eq|].
    apply (read_envelope_facts (Supabase.on_questions_select supabase language limit)
             "Failed to fetch questions: " " questions").
  - intros questionId log. eexists.
    split; [apply getImagesByQuestionId_eq|].
    apply (read_envelope_facts (Supabase.on_images_select supabase questionId)
             "Failed to fetch images: " " images").
Qed.

Lemma insertQuestion_accepted (questionData : QuestionService.QuestionData)
    (text o : string) (os : list string) (log : list Supabase.query) :
  QuestionService.question_text questionData = Some text -> text <> "" ->
  QuestionService.options questionData = Some (o :: os) ->
  (ImageService.truthy (QuestionService.images questionData) = None \/
   exists u, ImageService.truthy (QuestionService.images questionData) = Some u /\
             QuestionService.isValidImageUrl new_URL u = true) ->
  QuestionService.insertQuestion new_URL supabase questionData log =
  (Normal (envelope_of None (fun d => d) "Failed to insert question: "
             "Question inserted successfully"
             (Supabase.on_questions_insert supabase
                (QuestionService.dataToInsert text (o :: os) questionData))),
   log ++ [Supabase.questions_insert
             (QuestionService.dataToInsert text (o :: os) questionData)]).
Proof.
  intros Ht Hne Ho Hi. unfold QuestionService.insertQuestion.
  rewrite Ht, Ho, (truthy_nonempty _ Hne).
  unfold envelope_of, try_catch, bind, request, ret, throw.
  destruct Hi as [Hi | (u & Hi & Hv)]; rewrite Hi; [|rewrite Hv; cbn [negb]];
    (destruct (Supabase.on_questions_insert supabase _) as [r|t];
     [destruct (Supabase.error r)|]; reflexivity).
Qed.

(** [insertQuestion] either refuses without a request, or sends the one
    row built from its argument. *)
Lemma insertQuestion_outcome (questionData : QuestionService.QuestionData)
    (log : list Supabase.query) :
  (exists reason,
     QuestionService.insertQuestion new_URL supabase questionData log =
       (Normal (failed None reason), log)) \/
  (exists text o os,
     QuestionService.question_text questionData = Some text /\ text <> "" /\
     QuestionService.options questionData = Some (o :: os) /\
     (ImageService.truthy (QuestionService.images questionData) = None \/
      exists u, ImageService.truthy (QuestionService.images questionData) = Some u /\
                QuestionService.isValidImageUrl new_URL u = true) /\
     QuestionService.insertQuestion new_URL supabase questionData log =
       (Normal (envelope_of None (fun d => d) "Failed to insert question: "
                  "Question inserted successfully"
                  (Supabase.on_questions_insert supabase
                     (QuestionService.dataToInsert text (o :: os) questionData))),
        log ++ [Supabase.questions_insert
                  (QuestionService.dataToInsert text (o :: os) questionData)])).
Proof.
  destruct (ImageService.truthy (QuestionService.question_text questionData))
    as [text|] eqn:Ht;
    [|left; eexists; unfold QuestionService.insertQuestion; rewrite Ht; reflexivity].
  destruct (QuestionService.options questionData) as [[|o os]|] eqn:Ho;
    try (left; eexists; unfold QuestionService.insertQuestion; rewrite Ht, Ho;
         reflexivity).
  apply truthy_Some in Ht. destruct Ht as [Ht Hne].
  destruct (ImageService.truthy (QuestionService.images questionData)) as [u|] eqn:Hi.
  - destruct (QuestionService.isValidImageUrl new_URL u) eqn:Hv.
    + right. exists text, o, os. repeat split; auto.
      * right. now exists u.
      * apply insertQuestion_accepted; auto. right. now exists u.
    + left. eexists. unfold QuestionService.insertQuestion.
      rewrite Ht, Ho, (truthy_nonempty _ Hne), Hi.
      unfold try_catch, bind. rewrite Hv. reflexivity.
  - right. exists text, o, os. repeat split; auto.
    apply insertQuestion_accepted; auto.
Qed.

(** A question that passes the three checks is sent as given: the text,
    the options, the language and the correct answer go into the row
    unchanged, and the correct answer is not compared with the number of
    options; a missing or empty category becomes "general", a missing
    difficulty "easy", a missing or empty image null. The call succeeds
    exactly when the backend answers without an error. *)
Theorem insertQuestion_sends_what_it_is_given
    (questionData : QuestionService.QuestionData) (text o : string) (os : list string) :
  QuestionService.question_text questionData = Some text -> text <> "" ->
  QuestionService.options questionData = Some (o :: os) ->
  (forall u, QuestionService.images questionData = Some u -> u <> "" ->
             QuestionService.isValidImageUrl new_URL u = true) ->
  exists row,
    (forall log, exists e,
       QuestionService.insertQuestion new_URL supabase questionData log =
         (Normal e, log ++ [Supabase.questions_insert row]) /\
       (success e = true <-> answered (Supabase.on_questions_insert supabase row))) /\
    Supabase.question_text row = text /\
    Supabase.options row = o :: os /\
    Supabase.correct_answer row = QuestionService.correct_answer questionData /\
    Supabase.language row = QuestionService.language questionData /\
    (QuestionService.category questionData = None \/
     QuestionService.category questionData = Some "" ->
     Supabase.category row = "general") /\
    (forall c, QuestionService.category questionData = Some c -> c <> "" ->
               Supabase.category row = c) /\
    (QuestionService.difficulty questionData = None -> Supabase.difficulty row = easy) /\
    (forall d, QuestionService.difficulty questionData = Some d ->
               Supabase.difficulty row = d) /\
    (QuestionService.images questionData = None \/
     QuestionService.images questionData = Some "" -> Supabase.images row = None) /\
    (forall u, QuestionService.images questionData = Some u -> u <> "" ->
               Supabase.images row = Some u).
Proof.
  intros Ht Hne Ho Hv.
  exists (QuestionService.dataToInsert text (o :: os) questionData).
  split.
  - intros log. eexists. split.
    + apply insertQuestion_accepted; auto.
      destruct (QuestionService.images questionData) as [[|c u]|] eqn:Hi;
        [left; reflexivity | right | left; reflexivity].
      exists (String c u). split; [reflexivity|]. apply Hv; [reflexivity | discriminate].
    + unfold envelope_of, answered.
      destruct (Supabase.on_questions_insert supabase _) as [r|t];
        [destruct (Supabase.error r) eqn:Ee|];
        unfold succeeded, failed; cbn [success]; split;
        try discriminate; try reflexivity.
      * intros (r' & [= <-] & H). congruence.
      * intros _. now exists r.
      * intros (r' & H & _). discriminate H.
  - unfold QuestionService.dataToInsert. simpl.
    repeat split; try reflexivity.
    + intros [-> | ->]; reflexivity.
    + intros c -> Hc. destruct c; [congruence | reflexivity].
    + intros ->. reflexivity.
    + intros d ->. reflexivity.
    + intros [-> | ->]; reflexivity.
    + intros u -> Hu. destruct u; [congruence | reflexivity].
Qed.

End ServicesMore.

Lemma insertQuestion_sends_what_it_is_given_witness :
  exists row,
    (forall log, exists e,
       QuestionService.insertQuestion URL.parse Supabase.empty
         {| QuestionService.question_text := Some "Which option?";
            QuestionService.options := Some ["yes"; "no"];
            QuestionService.correct_answer := 7;
            QuestionService.language := tel;
            QuestionService.category := Some "";
            QuestionService.difficulty := None;
            QuestionService.images := Some "" |} log =
         (Normal e, log ++ [Supabase.questions_insert row]) /\
       (success e = true <->
        ServiceFacts.answered (Supabase.on_questions_insert Supabase.empty row))) /\
    Supabase.correct_answer row = 7 /\
    Supabase.category row = "general" /\
    Supabase.difficulty row = easy /\
    Supabase.images row = None.
Proof.
  destruct (insertQuestion_sends_what_it_is_given URL.parse Supabase.empty
              {| QuestionService.question_text := Some "Which option?";
                 QuestionService.options := Some ["yes"; "no"];
                 QuestionService.correct_answer := 7;
                 QuestionService.language := tel;
                 QuestionService.category := Some "";
                 QuestionService.difficulty := None;
                 QuestionService.images := Some "" |}
              "Which option?" "yes" ["no"] eq_refl ltac:(discriminate) eq_refl)
    as (row & Hrun & _ & _ & Hc & _ & Hcat & _ & Hd & _ & Hi & _).
  - intros u [= <-] Hu. congruence.
  - exists row. split; [exact Hrun|]. split; [exact Hc|].
    split; [apply Hcat; right; reflexivity|].
    split; [apply Hd; reflexivity|]. apply Hi. right. reflexivity.
Defined.

Section SampleInsertions.
Import ServiceFacts.
Variable new_URL : string -> option URL.t.
Variable supabase : Supabase.client.

(** Unlike [insertImage], [insertSampleImage] lets a failure escape: it
    sends the sample row (alt text, type "diagram", order 1, all as
    written) and returns the stored row when the backend answers without
    an error; when the backend answers with an error or rejects, it
    throws an Error that carries the envelope's error text. *)
Theorem insertSampleImage_throws_on_failure (log : list Supabase.query) :
  exists row,
    row = {| Supabase.question_id := "123e4567-e89b-12d3-a456-426614174000";
             Supabase.image_url :=
               "https://images.pexels.com/photos/6238297/pexels-photo-6238297.jpeg";
             Supabase.image_alt :=
               "Mathematical diagram showing geometric shapes and formulas";
             Supabase.image_type := "diagram";
             Supabase.display_order := of_Z 1 |} /\
    snd (ImageSample.insertSampleImage supabase log) = log ++ [Supabase.images_insert row] /\
    fst (ImageSample.insertSampleImage supabase log) =
      match Supabase.on_images_insert supabase row with
      | Normal r =>
          match Supabase.error r with
          | Some e => Throw (Error ("Failed to insert image: " ++ Supabase.message e))
          | None => Normal (Supabase.data r)
          end
      | Throw t => Throw (Error (error_message t))
      end.
Proof.
  eexists. split; [reflexivity|].
  unfold ImageSample.insertSampleImage, bind.
  rewrite (insertImage_run supabase ImageSample.sampleImageData
             "123e4567-e89b-12d3-a456-426614174000"
             "https://images.pexels.com/photos/6238297/pexels-photo-6238297.jpeg"
             log eq_refl eq_refl ltac:(discriminate) ltac:(discriminate)).
  change (ImageService.dataToInsert _ _ ImageSample.sampleImageData) with
    {| Supabase.question_id := "123e4567-e89b-12d3-a456-426614174000";
       Supabase.image_url :=
         "https://images.pexels.com/photos/6238297/pexels-photo-6238297.jpeg";
       Supabase.image_alt :=
         "Mathematical diagram showing geometric shapes and formulas";
       Supabase.image_type := "diagram";
       Supabase.display_order := of_Z 1 |}.
  destruct (Supabase.on_images_insert supabase _) as [r|t];
    [destruct (Supabase.error r)|]; split; reflexivity.
Qed.

Lemma envelope_of_uniform {R D} (nothing : D) (wrap : option R -> D)
    (failure success : string) (reply : completion (Supabase.response R)) :
  uniform nothing (envelope_of nothing wrap failure success reply).
Proof.
  unfold envelope_of.
  destruct reply as [r|t]; [destruct (Supabase.error r)|];
    [right | left | right]; unfold succeeded, failed; cbn; eauto 6.
Qed.

Lemma insertQuestion_uniform (q : QuestionService.QuestionData) (log : list Supabase.query) :
  exists e log',
    QuestionService.insertQuestion new_URL supabase q log = (Normal e, log') /\
    uniform None e.
Proof.
  destruct (insertQuestion_outcome new_URL supabase q log)
    as [(reason & H) | (text & o & os & _ & _ & _ & _ & H)];
    do 2 eexists; (split; [exact H|]).
  - right. unfold failed. cbn. eauto 6.
  - apply envelope_of_uniform.
Qed.

Lemma sample_question_accepted (q : QuestionService.QuestionData)
    (log : list Supabase.query) :
  In q QuestionSample.sampleQuestions ->
  QuestionService.isValidImageUrl new_URL QuestionSample.sampleImage = true ->
  exists e row,
    QuestionService.insertQuestion new_URL supabase q log =
      (Normal e, log ++ [Supabase.questions_insert row]) /\
    Supabase.language row = QuestionService.language q /\
    Supabase.images row = Some QuestionSample.sampleImage /\
    uniform None e.
Proof.
  intros Hin Hv.
  assert (Hq : exists text o os,
             QuestionService.question_text q = Some text /\ text <> "" /\
             QuestionService.options q = Some (o :: os) /\
             QuestionService.images q = Some QuestionSample.sampleImage).
  { destruct Hin as [<-|[<-|[<-|[]]]]; do 3 eexists;
      (split; [reflexivity|]); (split; [discriminate|]); split; reflexivity. }
  destruct Hq as (text & o & os & Ht & Hne & Ho & Hi).
  do 2 eexists. split; [|split; [|split]].
  - apply (insertQuestion_accepted new_URL supabase q text o os log Ht Hne Ho).
    right. exists QuestionSample.sampleImage. rewrite Hi. split; [reflexivity | exact Hv].
  - reflexivity.
  - unfold QuestionService.dataToInsert. cbn [Supabase.images]. now rewrite Hi.
  - apply envelope_of_uniform.
Qed.

Lemma insert_each_run (qs : list QuestionService.QuestionData) :
  forall results log,
  exists more log',
    QuestionSample.insert_each new_URL supabase qs results log =
      (Normal (results ++ more), log') /\
    List.length more = List.length qs /\
    Forall (uniform None) more.
Proof.
  induction qs as [|q qs IH]; intros results log; cbn [QuestionSample.insert_each].
  - exists [], log. rewrite app_nil_r. repeat split. constructor.
  - destruct (insertQuestion_uniform q log) as (e & l & H & U).
    destruct (IH (results ++ [e]) l) as (more & log' & Hrun & Hlen & Hall).
    exists (e :: more), log'. unfold bind. rewrite H, Hrun, <- app_assoc.
    repeat split; [simpl; now rewrite Hlen | now constructor].
Qed.

Lemma insert_each_accepted (qs : list QuestionService.QuestionData) :
  (forall q, In q qs -> In q QuestionSample.sampleQuestions) ->
  QuestionService.isValidImageUrl new_URL QuestionSample.sampleImage = true ->
  forall results log,
  exists more queries,
    QuestionSample.insert_each new_URL supabase qs results log =
      (Normal (results ++ more), log ++ queries) /\
    Forall2 (fun q query =>
               QuestionSample.inserts_question_in (QuestionService.language q) query)
            qs queries.
Proof.
  intros Hin Hv. induction qs as [|q qs IH]; intros results log;
    cbn [QuestionSample.insert_each].
  - exists [], []. rewrite !app_nil_r. split; [reflexivity | constructor].
  - destruct (sample_question_accepted q log (Hin q (or_introl eq_refl)) Hv)
      as (e & row & H & Hl & _).
    destruct (IH (fun q' Hq' => Hin q' (or_intror Hq')) (results ++ [e])
                 (log ++ [Supabase.questions_insert row]))
      as (more & queries & Hrun & Hall).
    exists (e :: more), (Supabase.questions_insert row :: queries).
    unfold bind. rewrite H, Hrun, <- !app_assoc. split; [reflexivity|].
    constructor; [|exact Hall]. now exists row.
Qed.

(** [insertSampleQuestionsWithImages] never throws and always returns
    three envelopes. When the sample image passes [isValidImageUrl] it
    sends three insertions, for en, hi and tel in that order, whatever
    the backend answers to each: a failed insertion does not stop the
    following ones. *)
Theorem sample_questions_are_all_inserted (log : list Supabase.query) :
  (exists results log',
     QuestionSample.insertSampleQuestionsWithImages new_URL supabase log =
       (Normal results, log') /\
     List.length results = 3%nat /\
     Forall (uniform None) results) /\
  (QuestionService.isValidImageUrl new_URL QuestionSample.sampleImage = true ->
   exists results q1 q2 q3,
     QuestionSample.insertSampleQuestionsWithImages new_URL supabase log =
       (Normal results, log ++ [q1; q2; q3]) /\
     QuestionSample.inserts_question_in en q1 /\
     QuestionSample.inserts_question_in hi q2 /\
     QuestionSample.inserts_question_in tel q3).
Proof.
  unfold QuestionSample.insertSampleQuestionsWithImages. split.
  - destruct (insert_each_run QuestionSample.sampleQuestions [] log)
      as (more & log' & Hrun & Hlen & Hall).
    exists more, log'. auto.
  - intros Hv.
    destruct (insert_each_accepted QuestionSample.sampleQuestions (fun q H => H) Hv [] log)
      as (more & queries & Hrun & Hall).
    unfold QuestionSample.sampleQuestions in Hall.
    inversion Hall as [|? q1 ? l1 H1 Hall1]; subst.
    inversion Hall1 as [|? q2 ? l2 H2 Hall2]; subst.
    inversion Hall2 as [|? q3 ? l3 H3 Hall3]; subst.
    inversion Hall3; subst.
    exists more, q1, q2, q3. auto.
Qed.

End SampleInsertions.

Lemma sample_questions_are_all_inserted_witness :
  exists results q1 q2 q3,
    QuestionSample.insertSampleQuestionsWithImages URL.parse Supabase.unreachable [] =
      (Normal results, [] ++ [q1; q2; q3]) /\
    QuestionSample.inserts_question_in en q1 /\
    QuestionSample.inserts_question_in hi q2 /\
    QuestionSample.inserts_question_in tel q3.
Proof.
  apply (proj2 (sample_questions_are_all_inserted URL.parse Supabase.unreachable [])).
  reflexivity.
Defined.

Section ImageRows.
Variable supabase : Supabase.client.

(** [insertImage] sends what is supplied: a supplied alt text, a
    non-empty type and a non-zero order go into the row unchanged. The
    type is not compared with the five known types nor the URL with any
    format: every non-empty string is sent. *)
Theorem insertImage_sends_supplied_values (imageData : ImageService.ImageData)
    (qid url : string) :
  ImageService.question_id imageData = Some qid ->
  ImageService.image_url imageData = Some url ->
  qid <> "" -> url <> "" ->
  exists row,
    (forall log,
       snd (ImageService.insertImage supabase imageData log) =
         log ++ [Supabase.images_insert row]) /\
    Supabase.question_id row = qid /\
    Supabase.image_url row = url /\
    (forall a, ImageService.image_alt imageData = Some a -> Supabase.image_alt row = a) /\
    (forall t, ImageService.image_type imageData = Some t -> t <> "" ->
               Supabase.image_type row = t) /\
    (forall n, ImageService.display_order imageData = Some n -> truthy_number n = true ->
               Supabase.display_order row = n).
Proof.
  intros Hq Hu Hqn Hun. exists (ImageService.dataToInsert qid url imageData).
  split; [intros log; now rewrite (insertImage_run supabase _ qid url log)|].
  unfold ImageService.dataToInsert. cbn.
  repeat split.
  - intros a ->. now destruct a.
  - intros t -> Ht. destruct t; [congruence | reflexivity].
  - intros n -> Hn. cbn. now rewrite Hn.
Qed.

End ImageRows.

Lemma insertImage_sends_supplied_values_witness :
  exists row,
    (forall log,
       snd (ImageService.insertImage Supabase.empty
              {| ImageService.question_id := Some "q-1";
                 ImageService.image_url := Some "not a url";
                 ImageService.image_alt := Some "a sketch";
                 ImageService.image_type := Some "sketch";
                 ImageService.display_order := Some (of_Z 3) |} log) =
         log ++ [Supabase.images_insert row]) /\
    Supabase.image_url row = "not a url" /\
    Supabase.image_alt row = "a sketch" /\
    Supabase.image_type row = "sketch" /\
    Supabase.display_order row = of_Z 3.
Proof.
  destruct (insertImage_sends_supplied_values Supabase.empty
              {| ImageService.question_id := Some "q-1";
                 ImageService.image_url := Some "not a url";
                 ImageService.image_alt := Some "a sketch";
                 ImageService.image_type := Some "sketch";
                 ImageService.display_order := Some (of_Z 3) |}
              "q-1" "not a url" eq_refl eq_refl ltac:(discriminate) ltac:(discriminate))
    as (row & Hlog & _ & Hu & Ha & Ht & Hn).
  exists row. split; [exact Hlog|]. split; [exact Hu|].
  split; [apply Ha; reflexivity|].
  split; [apply Ht; [reflexivity | discriminate]|].
  apply Hn; reflexivity.
Defined.

(** ** The image of a question *)

Section QuestionImageProperties.
Variable new_URL : string -> option URL.t.

Lemma isValidImageUrl_is_http (url : string) :
  QuestionService.isValidImageUrl new_URL url = true ->
  QuestionImage.isValidUrl new_URL url = true /\ url <> "".
Proof.
  rewrite isValidImageUrl_unfold. unfold QuestionImage.isValidUrl, QuestionService.is_http.
  intros H. apply andb_prop in H. destruct H as [Hu H].
  split; [|intros ->; discriminate].
  destruct (new_URL url); [|discriminate].
  apply andb_prop in H. tauto.
Qed.

(** The component shows nothing for a missing, empty or blank URL, and
    the "Invalid image URL" box exactly when the trimmed URL does not
    parse with http or https. Every URL without surrounding white space
    that [isValidImageUrl] accepts is shown as an image. *)
Theorem accepted_urls_are_displayed :
  QuestionImage.render new_URL None = QuestionImage.nothing /\
  (forall imageUrl, JSText.trim imageUrl = "" ->
     QuestionImage.render new_URL (Some imageUrl) = QuestionImage.nothing) /\
  (forall imageUrl, JSText.trim imageUrl <> "" ->
     QuestionImage.render new_URL (Some imageUrl) =
       if QuestionImage.isValidUrl new_URL (JSText.trim imageUrl)
       then QuestionImage.image (JSText.trim imageUrl)
       else QuestionImage.invalid_url) /\
  (forall url, JSText.trim url = url ->
     QuestionService.isValidImageUrl new_URL url = true ->
     QuestionImage.render new_URL (Some url) = QuestionImage.image url).
Proof.
  assert (Hblank : forall imageUrl, JSText.trim imageUrl = "" ->
            QuestionImage.render new_URL (Some imageUrl) = QuestionImage.nothing).
  { intros imageUrl H. unfold QuestionImage.render. rewrite H.
    now rewrite orb_true_r. }
  assert (Hshown : forall imageUrl, JSText.trim imageUrl <> "" ->
            QuestionImage.render new_URL (Some imageUrl) =
              if QuestionImage.isValidUrl new_URL (JSText.trim imageUrl)
              then QuestionImage.image (JSText.trim imageUrl)
              else QuestionImage.invalid_url).
  { intros imageUrl H. unfold QuestionImage.render.
    destruct imageUrl as [|c r]; [exfalso; apply H; reflexivity|].
    cbn [truthy_string negb orb].
    destruct (String.eqb_spec (JSText.trim (String c r)) ""); [congruence|].
    now destruct (QuestionImage.isValidUrl new_URL _). }
  repeat split; auto.
  intros url Ht Hv. destruct (isValidImageUrl_is_http url Hv) as [Hh Hne].
  rewrite Hshown by congruence. now rewrite Ht, Hh.
Qed.

End QuestionImageProperties.

Lemma accepted_urls_are_displayed_witness :
  QuestionImage.render URL.parse (Some "   ") = QuestionImage.nothing /\
  QuestionImage.render URL.parse (Some "ftp://x.com/a.png") = QuestionImage.invalid_url /\
  QuestionImage.render URL.parse (Some "https://images.pexels.com/photos/1/x.jpeg") =
    QuestionImage.image "https://images.pexels.com/photos/1/x.jpeg".
Proof.
  destruct (accepted_urls_are_displayed URL.parse) as (_ & Hblank & Hshown & Hok).
  split; [apply Hblank; reflexivity|].
  split; [apply (Hshown "ftp://x.com/a.png"); discriminate|].
  apply Hok; reflexivity.
Defined.

(** ** The language provider *)

Section LanguageProperties.
Import LanguageContext.

Lemma language_of_code_code (l : Language) : language_of_code (language_code l) = Some l.
Proof. destruct l; reflexivity. Qed.

Lemma language_of_code_inv (saved : string) (l : Language) :
  language_of_code saved = Some l -> saved = language_code l.
Proof.
  unfold language_of_code.
  destruct (String.eqb_spec saved "en"); [intros [= <-]; assumption|].
  destruct (String.eqb_spec saved "hi"); [intros [= <-]; assumption|].
  destruct (String.eqb_spec saved "tel"); [intros [= <-]; assumption|].
  discriminate.
Qed.

(** A language chosen on a working storage survives a restart: after
    [setLanguage], a freshly mounted provider that loads from the same
    store shows that language. This holds even when the choice was made
    on an unmounted provider, whose own state does not change. *)
Theorem language_choice_survives_restart (l : Language) (p : provider)
    (s : AsyncStorage.store) :
  let after := setLanguage AsyncStorage.working l p s in
  (isMounted p = true -> language (fst after) = l) /\
  (isMounted p = false -> fst after = p) /\
  snd after "selectedLanguage" = Some (language_code l) /\
  language (fst (loadLanguage AsyncStorage.working mounted (snd after))) = l /\
  snd (loadLanguage AsyncStorage.working mounted (snd after)) = snd after.
Proof.
  unfold setLanguage, loadLanguage. cbn.
  rewrite language_of_code_code. cbn.
  repeat split; intros H; rewrite H; reflexivity.
Qed.

(** The displayed language changes only through a storage operation
    that succeeds on a mounted provider. [setLanguage] leaves the
    provider as it is when the write rejects; [loadLanguage] leaves it
    as it is when the read rejects or finds nothing or finds a string
    that is not one of the three codes, and never writes; neither
    changes an unmounted provider. *)
Theorem language_changes_only_on_success (storage : AsyncStorage.t) (p : provider)
    (s : AsyncStorage.store) :
  (forall l,
     (forall t s', AsyncStorage.setItem storage s "selectedLanguage" (language_code l)
                   = (Throw t, s') ->
                   fst (setLanguage storage l p s) = p) /\
     (isMounted p = false -> fst (setLanguage storage l p s) = p) /\
     (fst (setLanguage storage l p s) = p \/
      fst (setLanguage storage l p s) = setLanguageState l p)) /\
  snd (loadLanguage storage p s) = s /\
  (isMounted p = false -> fst (loadLanguage storage p s) = p) /\
  (fst (loadLanguage storage p s) = p \/
   exists l,
     AsyncStorage.getItem storage s "selectedLanguage" = Normal (Some (language_code l)) /\
     isMounted p = true /\
     fst (loadLanguage storage p s) = setLanguageState l p).
Proof.
  split; [intros l; split; [|split]|split; [|split]].
  - intros t s' H. unfold setLanguage. now rewrite H.
  - intros H. unfold setLanguage.
    destruct (AsyncStorage.setItem storage s _ _) as [[[]|t] s']; cbn; now rewrite ?H.
  - unfold setLanguage.
    destruct (AsyncStorage.setItem storage s _ _) as [[[]|t] s']; cbn; auto.
    destruct (isMounted p); auto.
  - unfold loadLanguage.
    destruct (AsyncStorage.getItem storage s _) as [[saved|]|t]; try reflexivity.
    destruct (language_of_code saved); [destruct (isMounted p)|]; reflexivity.
  - intros H. unfold loadLanguage.
    destruct (AsyncStorage.getItem storage s _) as [[saved|]|t]; try reflexivity.
    destruct (language_of_code saved); [rewrite H|]; reflexivity.
  - unfold loadLanguage.
    destruct (AsyncStorage.getItem storage s _) as [[saved|]|t] eqn:Hg; auto.
    destruct (language_of_code saved) as [l|] eqn:Hl; auto.
    destruct (isMounted p) eqn:Hm; auto.
    right. exists l. apply language_of_code_inv in Hl. subst saved. auto.
Qed.

End LanguageProperties.

Lemma language_choice_survives_restart_witness :
  LanguageContext.language
    (fst (LanguageContext.setLanguage AsyncStorage.working hi LanguageContext.mounted
            AsyncStorage.empty)) = hi /\
  LanguageContext.language
    (fst (LanguageContext.loadLanguage AsyncStorage.working LanguageContext.mounted
            (snd (LanguageContext.setLanguage AsyncStorage.working tel
                    (LanguageContext.unmount LanguageContext.mounted)
                    AsyncStorage.empty)))) = tel.
Proof.
  pose proof (language_choice_survives_restart hi LanguageContext.mounted
                AsyncStorage.empty) as H1.
  pose proof (language_choice_survives_restart tel
                (LanguageContext.unmount LanguageContext.mounted)
                AsyncStorage.empty) as H2.
  cbv zeta in H1, H2.
  destruct H1 as (H1 & _). destruct H2 as (_ & _ & _ & H2 & _).
  split; [apply H1; reflexivity | exact H2].
Defined.

Lemma language_changes_only_on_success_witness :
  fst (LanguageContext.setLanguage AsyncStorage.failing hi LanguageContext.mounted
         AsyncStorage.empty) = LanguageContext.mounted /\
  fst (LanguageContext.loadLanguage AsyncStorage.working
         (LanguageContext.unmount LanguageContext.mounted)
         (AsyncStorage.put AsyncStorage.empty "selectedLanguage" "hi")) =
    LanguageContext.unmount LanguageContext.mounted.
Proof.
  destruct (language_changes_only_on_success AsyncStorage.failing LanguageContext.mounted
              AsyncStorage.empty) as (Hset & _).
  destruct (Hset hi) as (Hthrow & _).
  destruct (language_changes_only_on_success AsyncStorage.working
              (LanguageContext.unmount LanguageContext.mounted)
              (AsyncStorage.put AsyncStorage.empty "selectedLanguage" "hi"))
    as (_ & _ & Hload & _).
  split; [apply (Hthrow (Error "Storage unavailable") AsyncStorage.empty); reflexivity|].
  apply Hload. reflexivity.
Defined.

(** ** The question form *)

Section FormProperties.
Import QuestionForm FormFacts.

Lemma without_length (i : nat) (o : list string) :
  List.length (without i o) =
  if (i <? List.length o)%nat then (List.length o - 1)%nat else List.length o.
Proof.
  revert i. induction o as [|x o IH]; intros [|i]; simpl; try reflexivity; try lia.
  rewrite IH. change (S i <? S (List.length o))%nat with (i <? List.length o)%nat.
  destruct (Nat.ltb_spec i (List.length o)); lia.
Qed.

Lemma nth_error_without (i j : nat) (o : list string) :
  nth_error (without i o) j = if (j <? i)%nat then nth_error o j else nth_error o (S j).
Proof.
  revert i j. induction o as [|x o IH]; intros [|i] [|j]; simpl; try reflexivity.
  - now destruct (_ <? _)%nat.
  - rewrite IH. change (S j <? S i)%nat with (j <? i)%nat. reflexivity.
Qed.

Lemma without_firstn_skipn (i : nat) (o : list string) :
  without i o = firstn i o ++ skipn (S i) o.
Proof.
  revert i. induction o as [|x o IH]; intros [|i]; simpl; try reflexivity.
  now rewrite IH.
Qed.

(** The form keeps between two and six options and a correct answer
    that indexes one of them: the initial state has this shape, and
    [addOption] and [removeOption] preserve it. Adding stops at six
    options and removing at two; otherwise adding appends one empty
    option, and removing drops exactly the option at the given
    position: the options before it and the options after it remain,
    in their order, and a position beyond the end removes nothing.
    Neither touches the text, category, difficulty or image of the
    form. *)
Theorem form_keeps_its_shape (st : state) :
  well_formed initial /\
  (well_formed st ->
   well_formed (addOption st) /\
   (forall index, well_formed (removeOption index st))) /\
  (List.length (options st) = 6%nat -> addOption st = st) /\
  ((List.length (options st) < 6)%nat -> options (addOption st) = options st ++ [""]) /\
  (List.length (options st) = 2%nat -> forall index, removeOption index st = st) /\
  (forall index, (2 < List.length (options st))%nat ->
     (index < List.length (options st))%nat ->
     S (List.length (options (removeOption index st))) = List.length (options st)) /\
  (forall index, (2 < List.length (options st))%nat ->
     options (removeOption index st) =
       firstn index (options st) ++ skipn (S index) (options st) /\
     (forall j, (j < index)%nat ->
        nth_error (options (removeOption index st)) j = nth_error (options st) j) /\
     (forall j, (index <= j)%nat ->
        nth_error (options (removeOption index st)) j = nth_error (options st) (S j)) /\
     ((List.length (options st) <= index)%nat ->
      options (removeOption index st) = options st)) /\
  (forall index,
     questionText (removeOption index st) = questionText st /\
     category (removeOption index st) = category st /\
     difficulty (removeOption index st) = difficulty st /\
     imageUrl (removeOption index st) = imageUrl st /\
     questionText (addOption st) = questionText st /\
     category (addOption st) = category st /\
     difficulty (addOption st) = difficulty st /\
     imageUrl (addOption st) = imageUrl st /\
     correctAnswer (addOption st) = correctAnswer st).
Proof.
  split; [unfold well_formed; simpl; lia|].
  split; [|split; [|split; [|split; [|split; [|split]]]]].
  - unfold well_formed. intros [Hlen Hc]. split.
    + unfold addOption. destruct (Nat.ltb_spec (List.length (options st)) 6);
        cbn [options correctAnswer setOptions]; rewrite ?length_app; simpl; lia.
    + intros index. unfold removeOption.
      destruct (Nat.ltb_spec 2 (List.length (options st))); [|lia].
      pose proof (without_length index (options st)) as Hw.
      destruct (Nat.ltb_spec index (List.length (options st)));
        destruct (Z.leb_spec (Z.of_nat (List.length (without index (options st))))
                    (correctAnswer st));
        cbn [options correctAnswer setOptions setCorrectAnswer]; lia.
  - intros H. unfold addOption. now rewrite H.
  - intros H. unfold addOption.
    destruct (Nat.ltb_spec (List.length (options st)) 6); [reflexivity | lia].
  - intros H index. unfold removeOption. now rewrite H.
  - intros index H2 Hi. unfold removeOption.
    destruct (Nat.ltb_spec 2 (List.length (options st))); [|lia].
    pose proof (without_length index (options st)) as Hw.
    destruct (Nat.ltb_spec index (List.length (options st))); [|lia].
    destruct (Z.leb_spec (Z.of_nat (List.length (without index (options st))))
                (correctAnswer st));
      cbn [options setOptions setCorrectAnswer]; lia.
  - intros index H2.
    assert (Ho : options (removeOption index st) = without index (options st)).
    { unfold removeOption.
      destruct (Nat.ltb_spec 2 (List.length (options st))); [|lia].
      destruct (Z.of_nat (List.length (without index (options st))) <=? correctAnswer st);
        reflexivity. }
    rewrite Ho. split; [apply without_firstn_skipn|].
    split; [|split].
    + intros j Hj. rewrite nth_error_without.
      destruct (Nat.ltb_spec j index); [reflexivity | lia].
    + intros j Hj. rewrite nth_error_without.
      destruct (Nat.ltb_spec j index); [lia | reflexivity].
    + intros Hlen. rewrite without_firstn_skipn, firstn_all2, skipn_all2 by lia.
      apply app_nil_r.
  - intros index. unfold removeOption, addOption.
    destruct (2 <? List.length (options st))%nat;
      [destruct (Z.of_nat (List.length (without index (options st))) <=? correctAnswer st)|];
      destruct (List.length (options st) <? 6)%nat; repeat split.
Qed.

(** [removeOption] keeps the index of the correct answer, not the
    option it points to. Removing an option below the marked one leaves
    the mark on the same text; removing one above it moves the mark to
    the text that followed the marked one, unless the marked option was
    the last, in which case the mark follows its text. *)
Theorem removeOption_keeps_the_index (index : nat) (st : state) :
  well_formed st -> (2 < List.length (options st))%nat ->
  ((Z.to_nat (correctAnswer st) < index)%nat ->
   marked (removeOption index st) = marked st) /\
  ((index < Z.to_nat (correctAnswer st))%nat ->
   (S (Z.to_nat (correctAnswer st)) < List.length (options st))%nat ->
   correctAnswer (removeOption index st) = correctAnswer st /\
   marked (removeOption index st) =
     nth_error (options st) (S (Z.to_nat (correctAnswer st)))) /\
  ((index < Z.to_nat (correctAnswer st))%nat ->
   S (Z.to_nat (correctAnswer st)) = List.length (options st) ->
   correctAnswer (removeOption index st) = correctAnswer st - 1 /\
   marked (removeOption index st) = marked st).
Proof.
  unfold well_formed, marked. intros [Hlen Hc] H2.
  unfold removeOption. destruct (Nat.ltb_spec 2 (List.length (options st))); [|lia].
  pose proof (without_length index (options st)) as Hw.
  destruct (Z.ltb_spec (correctAnswer st) 0); [lia|].
  split; [|split]; [intros Hi | intros Hi Hl; split | intros Hi Hl; split].
  - destruct (Nat.ltb_spec index (List.length (options st)));
      (destruct (Z.leb_spec (Z.of_nat (List.length (without index (options st))))
                   (correctAnswer st)); [lia|]);
      cbn [options correctAnswer setOptions];
      (destruct (Z.ltb_spec (correctAnswer st) 0); [lia|]);
      rewrite nth_error_without;
      (destruct (Nat.ltb_spec (Z.to_nat (correctAnswer st)) index); [reflexivity | lia]).
  - destruct (Nat.ltb_spec index (List.length (options st))); [|lia].
    destruct (Z.leb_spec (Z.of_nat (List.length (without index (options st))))
                (correctAnswer st)); [lia|]. reflexivity.
  - destruct (Nat.ltb_spec index (List.length (options st))); [|lia].
    destruct (Z.leb_spec (Z.of_nat (List.length (without index (options st))))
                (correctAnswer st)); [lia|].
    cbn [options correctAnswer setOptions].
    destruct (Z.ltb_spec (correctAnswer st) 0); [lia|].
    rewrite nth_error_without.
    destruct (Nat.ltb_spec (Z.to_nat (correctAnswer st)) index); [lia | reflexivity].
  - destruct (Nat.ltb_spec index (List.length (options st))); [|lia].
    destruct (Z.leb_spec (Z.of_nat (List.length (without index (options st))))
                (correctAnswer st)); [|lia].
    cbn [correctAnswer setCorrectAnswer]. lia.
  - destruct (Nat.ltb_spec index (List.length (options st))); [|lia].
    destruct (Z.leb_spec (Z.of_nat (List.length (without index (options st))))
                (correctAnswer st)); [|lia].
    cbn [options correctAnswer setOptions setCorrectAnswer].
    destruct (Z.ltb_spec (Z.of_nat (List.length (without index (options st))) - 1) 0);
      [lia|].
    rewrite nth_error_without.
    destruct (Nat.ltb_spec (Z.to_nat (Z.of_nat (List.length (without index (options st))) - 1))
                index); [lia|].
    f_equal. lia.
Qed.

End FormProperties.

Lemma form_keeps_its_shape_witness :
  QuestionForm.well_formed (QuestionForm.addOption QuestionForm.initial) /\
  QuestionForm.well_formed (QuestionForm.removeOption 0 QuestionForm.initial) /\
  S (List.length (QuestionForm.options (QuestionForm.removeOption 0 QuestionForm.initial))) =
    4%nat /\
  QuestionForm.options
    (QuestionForm.removeOption 1
       (QuestionForm.setOptions ["a"; "b"; "c"; "d"] QuestionForm.initial)) =
    ["a"; "c"; "d"].
Proof.
  destruct (form_keeps_its_shape QuestionForm.initial) as (Hi & Hk & _ & _ & _ & Hr & _).
  destruct (Hk Hi) as [Ha Hrm].
  split; [exact Ha|]. split; [apply Hrm|]. split; [apply Hr; simpl; lia|].
  destruct (form_keeps_its_shape
              (QuestionForm.setOptions ["a"; "b"; "c"; "d"] QuestionForm.initial))
    as (_ & _ & _ & _ & _ & _ & Hc & _).
  destruct (Hc 1%nat ltac:(simpl; lia)) as (Heq & _).
  exact Heq.
Defined.

Lemma removeOption_keeps_the_index_witness :
  let st := QuestionForm.setCorrectAnswer 2
              (QuestionForm.setOptions ["a"; "b"; "c"; "d"] QuestionForm.initial) in
  FormFacts.marked st = Some "c" /\
  FormFacts.marked (QuestionForm.removeOption 0 st) = Some "d".
Proof.
  intros st. split; [reflexivity|].
  assert (Hw : QuestionForm.well_formed st) by (unfold QuestionForm.well_formed; simpl; lia).
  destruct (removeOption_keeps_the_index 0 st Hw ltac:(simpl; lia)) as (_ & Hshift & _).
  destruct (Hshift ltac:(simpl; lia) ltac:(simpl; lia)) as [_ Hm].
  exact Hm.
Defined.

(** ** Submitting the question form *)

Section FormSubmission.
Import QuestionForm FormFacts.

Variable new_URL : string -> option URL.t.
Variable supabase : Supabase.client.
Variable language : Language.
Variable onSuccess : option (Question.t -> completion unit).

Lemma some_blank_false (o : list string) :
  some_blank o = false -> Forall (fun opt => opt <> "") (map JSText.trim o).
Proof.
  unfold some_blank. induction o as [|x o IH]; simpl; [constructor|].
  intros H. apply Bool.orb_false_iff in H. destruct H as [Hx Ho].
  constructor; [|auto].
  intros E. rewrite E in Hx. discriminate.
Qed.

Lemma truthy_trimmed_or_null (url u : string) :
  ImageService.truthy (trimmed_or_null url) = Some u -> u = JSText.trim url.
Proof.
  unfold trimmed_or_null. intros H. apply truthy_Some in H. destruct H as [H _].
  destruct (truthy_string (JSText.trim url)); congruence.
Qed.

(** A refused form: one alert, no request, the state as it was. *)
Lemma handleSubmit_refused (st : state) (log : list effect) :
  truthy_string (JSText.trim (questionText st)) = false \/
  some_blank (options st) = true \/
  (truthy_string (imageUrl st) = true /\
   QuestionService.isValidImageUrl new_URL (imageUrl st) = false) ->
  exists message,
    handleSubmit new_URL supabase language onSuccess st log =
    (Normal st, log ++ [Alert "Error" message]).
Proof.
  intros H. unfold handleSubmit.
  destruct (truthy_string (JSText.trim (questionText st))) eqn:Ht; cbn [negb];
    [|eexists; reflexivity].
  destruct (some_blank (options st)) eqn:Hb; [eexists; reflexivity|].
  destruct H as [H | [H | [H1 H2]]]; try discriminate.
  rewrite H1, H2. eexists; reflexivity.
Qed.

(** The form as it is submitted. Whatever the parser, the backend and
    the parent's callback do, [handleSubmit] returns (it never throws),
    leaves the form as it was or with [loading] false, and shows at
    least one alert. It issues at most one request, and only before
    any alert: the insertion of a row that carries the trimmed question
    text, which is not empty, the trimmed options, none of them empty,
    the marked index, the form's language, and either no image or the
    trimmed image URL, which passed [isValidImageUrl]. When the form has
    its shape, the row has two to six options and a correct answer
    among them. *)
Theorem form_sends_only_checked_rows (st : state) (log : list effect) :
  exists st' effects,
    handleSubmit new_URL supabase language onSuccess st log = (Normal st', log ++ effects) /\
    (st' = st \/ st' = setLoading false st) /\
    ((exists message, effects = [Alert "Error" message]) \/
     (exists row alerts,
        effects = Backend (Supabase.questions_insert row) :: alerts /\
        alerts <> [] /\ Forall is_alert alerts /\
        row_of_form new_URL language st row /\
        (well_formed st -> valid_row row))).
Proof.
  destruct (truthy_string (JSText.trim (questionText st))) eqn:Ht;
    [|destruct (handleSubmit_refused st log ltac:(auto)) as [m Hm];
      exists st, [Alert "Error" m]; eauto 8].
  destruct (some_blank (options st)) eqn:Hb;
    [destruct (handleSubmit_refused st log ltac:(auto)) as [m Hm];
     exists st, [Alert "Error" m]; eauto 8|].
  destruct (truthy_string (imageUrl st)
            && negb (QuestionService.isValidImageUrl new_URL (imageUrl st))) eqn:Hi.
  { apply Bool.andb_true_iff in Hi. destruct Hi as [H1 H2].
    apply Bool.negb_true_iff in H2.
    destruct (handleSubmit_refused st log ltac:(auto)) as [m Hm].
    exists st, [Alert "Error" m]; eauto 8. }
  exists (setLoading false st).
  unfold handleSubmit. rewrite Ht, Hb, Hi. cbn [negb].
  unfold try_finally, try_catch, bind, call.
  destruct (insertQuestion_outcome new_URL supabase (questionData language st) [])
    as [(reason & H) | (text & o & os & Htext & Hne & Ho & Himg & H)]; rewrite H.
  - eexists. split; [cbn; rewrite app_nil_r; reflexivity|].
    split; [auto|]. left. eexists; reflexivity.
  - set (row := QuestionService.dataToInsert text (o :: os) (questionData language st)) in *.
    assert (Hrow : row_of_form new_URL language st row /\ (well_formed st -> valid_row row)).
    { cbn in Htext, Ho. injection Htext as <-. 
      assert (Hopts : Supabase.options row = map JSText.trim (options st))
        by (subst row; cbn; congruence).
      assert (Hall : Forall (fun opt => opt <> "") (Supabase.options row))
        by (rewrite Hopts; now apply some_blank_false).
      split.
      - repeat split; try assumption; try reflexivity.
        destruct Himg as [Hn | (u & Hu & Hv)]; [left; exact Hn|].
        right. cbn in Hu. pose proof (truthy_trimmed_or_null _ _ Hu) as ->.
        split; [exact Hu | exact Hv].
      - intros [Hlen Hc]. repeat split; try assumption;
          rewrite ?Hopts, ?length_map; try apply Hlen; apply Hc. }
    destruct Hrow as [Hrow Hvalid].
    assert (Halert : forall t m, is_alert (Alert t m)) by (intros t m; now exists t, m).
    unfold ServiceFacts.envelope_of.
    destruct (Supabase.on_questions_insert supabase row) as [r|t];
      [destruct (Supabase.error r) as [e|]; [|destruct (Supabase.data r) as [q|]]|];
      cbn [success data error failed succeeded];
      try (destruct onSuccess as [callback|]; [destruct (callback q)|]);
      (eexists; split; [cbn; rewrite <- !app_assoc; reflexivity|]; split; [auto|];
       right; eexists _, _; split; [reflexivity|]; split; [discriminate|];
       split; [repeat constructor; apply Halert | split; assumption]).
Qed.

(** The error under the image field and the submit button agree: after
    typing [url] the field shows an error exactly when [url] is
    non-empty and fails [isValidImageUrl], and a form whose image field
    shows an error is refused on submit with one alert and no request. *)
Theorem flagged_image_url_is_not_sent (url : string) (st : state) (log : list effect) :
  let typed := handleImageUrlChange new_URL url st in
  imageUrl typed = url /\
  (imageUrlError typed = "" <->
   url = "" \/ QuestionService.isValidImageUrl new_URL url = true) /\
  (imageUrlError typed <> "" ->
   exists message,
     handleSubmit new_URL supabase language onSuccess typed log =
     (Normal typed, log ++ [Alert "Error" message])).
Proof.
  unfold handleImageUrlChange, validateImageUrl.
  destruct url as [|c url']; cbn [truthy_string negb].
  - cbn. split; [reflexivity|]. split; [tauto | congruence].
  - destruct (QuestionService.isValidImageUrl new_URL (String c url')) eqn:Hv;
      cbn [negb snd].
    + cbn. split; [reflexivity|]. split; [tauto | congruence].
    + split; [reflexivity|]. split.
      * cbn. split; [discriminate | intros [H | H]; discriminate].
      * intros _. apply handleSubmit_refused. right. right. cbn. auto.
Qed.

(** The parent's callback runs inside the form's [try]: when the
    backend has stored the question and [onSuccess] throws, the user is
    shown the success alert and then the alert of an unexpected error;
    the question is stored all the same, and the form is left with
    [loading] false. *)
Theorem failing_onSuccess_is_reported_as_error (st : state) (log : list effect)
    (callback : Question.t -> completion unit) (row : Supabase.question_row)
    (r : Supabase.response Question.t) (question : Question.t) (t : thrown) :
  onSuccess = Some callback ->
  handleSubmit new_URL supabase language None st [] =
    (Normal (setLoading false st),
     [Backend (Supabase.questions_insert row);
      Alert "Success" "Question created successfully"]) ->
  Supabase.on_questions_insert supabase row = Normal r ->
  Supabase.data r = Some question ->
  callback question = Throw t ->
  handleSubmit new_URL supabase language onSuccess st log =
    (Normal (setLoading false st),
     log ++ [Backend (Supabase.questions_insert row);
             Alert "Success" "Question created successfully";
             Alert "Error" "An unexpected error occurred"]).
Proof.
  intros -> Hrun Hr Hq Ht. revert Hrun. unfold handleSubmit.
  destruct (negb (truthy_string (JSText.trim (questionText st)))); [discriminate|].
  destruct (some_blank (options st)); [discriminate|].
  destruct (truthy_string (imageUrl st)
            && negb (QuestionService.isValidImageUrl new_URL (imageUrl st)));
    [discriminate|].
  unfold try_finally, try_catch, bind, call.
  destruct (insertQuestion_outcome new_URL supabase (questionData language st) [])
    as [(reason & H) | (text & o & os & _ & _ & _ & _ & H)]; rewrite H.
  - cbn. discriminate.
  - set (row' := QuestionService.dataToInsert text (o :: os) (questionData language st)).
    unfold ServiceFacts.envelope_of.
    destruct (Supabase.on_questions_insert supabase row') as [r'|t'] eqn:Hr';
      [destruct (Supabase.error r') as [e|] eqn:He;
       [|destruct (Supabase.data r') as [q|] eqn:Hd]|];
      cbn; try discriminate.
    intros [= <-]. rewrite Hr in Hr'. injection Hr' as <-.
    rewrite Hq in Hd. injection Hd as <-. rewrite Ht. cbn.
    rewrite <- !app_assoc. reflexivity.
Qed.

End FormSubmission.

Lemma form_sends_only_checked_rows_witness :
  exists row,
    QuestionForm.handleSubmit URL.parse FormFacts.accepting en None FormFacts.filled [] =
      (Normal FormFacts.filled,
       [QuestionForm.Backend (Supabase.questions_insert row);
        QuestionForm.Alert "Success" "Question created successfully"]) /\
    Supabase.options row = ["3"; "4"; "5"] /\
    QuestionForm.valid_row row.
Proof.
  destruct (form_sends_only_checked_rows URL.parse FormFacts.accepting en None
              FormFacts.filled [])
    as (st' & effects & Hrun & _ & [(m & He) | (row & alerts & He & _ & _ & Hrow & Hvalid)]).
  - rewrite He in Hrun. vm_compute in Hrun. discriminate.
  - exists row. rewrite He in Hrun. vm_compute in Hrun.
    injection Hrun as <- <- <-.
    split; [reflexivity|]. split; [reflexivity|].
    apply Hvalid. unfold QuestionForm.well_formed. simpl. lia.
Defined.

Lemma flagged_image_url_is_not_sent_witness :
  exists message,
    QuestionForm.handleSubmit URL.parse Supabase.empty en None
      (QuestionForm.handleImageUrlChange URL.parse "ftp://example.com/a.png"
         FormFacts.filled) [] =
    (Normal (QuestionForm.handleImageUrlChange URL.parse "ftp://example.com/a.png"
               FormFacts.filled),
     [QuestionForm.Alert "Error" message]).
Proof.
  destruct (flagged_image_url_is_not_sent URL.parse Supabase.empty en None
              "ftp://example.com/a.png" FormFacts.filled []) as (_ & _ & H).
  apply H. vm_compute. discriminate.
Defined.

Lemma failing_onSuccess_is_reported_as_error_witness :
  let callback := fun _ : Question.t => @Throw unit (Error "navigation failed") in
  let row := QuestionService.dataToInsert "2 + 2 = ?" ["3"; "4"; "5"]
               (QuestionForm.questionData en FormFacts.filled) in
  QuestionForm.handleSubmit URL.parse FormFacts.accepting en (Some callback)
    FormFacts.filled [] =
  (Normal FormFacts.filled,
   [QuestionForm.Backend (Supabase.questions_insert row);
    QuestionForm.Alert "Success" "Question created successfully";
    QuestionForm.Alert "Error" "An unexpected error occurred"]).
Proof.
  intros callback row.
  apply (failing_onSuccess_is_reported_as_error URL.parse FormFacts.accepting en
           (Some callback) FormFacts.filled [] callback row
           {| Supabase.data := Some (FormFacts.stored row); Supabase.error := None |}
           (FormFacts.stored row) (Error "navigation failed"));
    reflexivity.
Defined.
